(** * tube: upload, import and playback handlers of [app/app.go]

    A shallow embedding of the request handlers of the video sharing server:
    [uploadHandler], [importHandler], [videoHandler] and the helpers they
    call.  A handler is a function on an explicit world (the set of files
    that exist, the log of the effects performed so far, the stack of
    deferred calls); everything the handler cannot decide by itself, that is
    which operating system call fails and which random token is drawn, is
    read from an environment [Env].

    Conventions.
    - Go strings are Rocq strings (bytes); paths are plain strings.
    - Go maps are [gmap string _]; a [range] over a map visits it in an
      unspecified order, so [Transcoder.Sizes] is the list of pairs in the
      order in which one run of the loop visits them.
    - An [error] value is the text of its message.
    - Calls of the logger are not part of the model. *)

From Stdlib Require Import String Ascii ZArith Lia.
From stdpp Require Import base strings pretty gmap sorting.

Local Open Scope Z_scope.

(** ** Strings and paths (Go standard library) *)

Module GoString.

Definition slash : ascii := "/"%char.
Definition dot : ascii := "."%char.
Definition quote : ascii := ascii_of_nat 34.

Definition is_sep (c : ascii) : bool := Ascii.eqb c slash.

(** Whether a path separator occurs in [s]. *)
Fixpoint has_sep (s : string) : bool :=
  match s with
  | EmptyString => false
  | String c s' => is_sep c || has_sep s'
  end.

(** [s[:n]] *)
Definition slice_to (n : nat) (s : string) : string := String.substring 0 n s.

(** [strings.HasSuffix]. *)
Fixpoint HasSuffix (s suffix : string) : bool :=
  String.eqb s suffix ||
  match s with
  | EmptyString => false
  | String _ s' => HasSuffix s' suffix
  end.

(** [strings.TrimSuffix]: [s] without the trailing [suffix], or [s] itself
    when it does not end in [suffix]. *)
Definition TrimSuffix (s suffix : string) : string :=
  if HasSuffix s suffix
  then slice_to (String.length s - String.length suffix) s
  else s.

(** [filepath.Ext]: the suffix beginning at the final dot in the final
    element of the path; empty if there is no dot. *)
Fixpoint Ext (path : string) : string :=
  match path with
  | EmptyString => EmptyString
  | String c rest =>
      match Ext rest with
      | EmptyString =>
          if has_sep rest then EmptyString
          else if Ascii.eqb c dot then path else EmptyString
      | e => e
      end
  end.

(** Trailing separators removed. *)
Fixpoint strip_trailing_seps (s : string) : string :=
  match s with
  | EmptyString => EmptyString
  | String c s' =>
      match strip_trailing_seps s' with
      | EmptyString => if is_sep c then EmptyString else String c EmptyString
      | r => String c r
      end
  end.

(** What follows the last separator. *)
Fixpoint last_element (s : string) : string :=
  match s with
  | EmptyString => EmptyString
  | String c s' =>
      if has_sep s' then last_element s'
      else if is_sep c then s' else s
  end.

(** [filepath.Base]: the last element of the path, trailing separators
    removed first; "." for the empty path and "/" for a path made of
    separators only. *)
Definition Base (path : string) : string :=
  match path with
  | EmptyString => "."
  | _ =>
      match last_element (strip_trailing_seps path) with
      | EmptyString => "/"
      | e => e
      end
  end.

(** [filepath.Join] of a directory and one file name, and the path
    [securejoin.SecureJoin] returns for a root and a name: the concatenation
    with one separator.  The library functions also clean their result
    ([Clean] below); the concatenation is the path they return for a clean
    directory other than "." and "/" and a name that is one path element
    other than "." and "..", and it is another spelling of the same file
    otherwise. *)
Definition Join (dir name : string) : string := dir +:+ "/" +:+ name.

(** The elements of a path: what lies between its separators. *)
Fixpoint elements_from (s : string) (cur : string) : list string :=
  match s with
  | EmptyString => [cur]
  | String c s' =>
      if is_sep c then cur :: elements_from s' EmptyString
      else elements_from s' (cur +:+ String c EmptyString)
  end.

(** One element met by [Clean]; [kept] holds the elements kept so far, the
    last one first.  An empty element and "." are dropped; ".." takes the
    element before it away, is kept at the start of a path that is not
    rooted and dropped at the start of a rooted one. *)
Definition clean_element (rooted : bool) (kept : list string) (e : string)
  : list string :=
  if String.eqb e "" || String.eqb e "." then kept
  else if String.eqb e ".." then
    match kept with
    | top :: rest => if String.eqb top ".." then e :: kept else rest
    | [] => if rooted then [] else [e]
    end
  else e :: kept.

Fixpoint join_elements (es : list string) : string :=
  match es with
  | [] => ""
  | [e] => e
  | e :: rest => e +:+ "/" +:+ join_elements rest
  end.

(** [path.Clean]: the shortest path that names the same file by purely
    lexical processing; "." for the empty path. *)
Definition Clean (path : string) : string :=
  match path with
  | EmptyString => "."
  | String c _ =>
      let rooted := is_sep c in
      let kept := fold_left (clean_element rooted) (elements_from path "") [] in
      let body := join_elements (rev kept) in
      if rooted then "/" +:+ body
      else if String.eqb body "" then "." else body
  end.

(** [path.Join] of two elements: empty elements are ignored and the result
    is cleaned; it is empty when both elements are. *)
Definition path_Join (prefix id : string) : string :=
  if String.eqb prefix "" && String.eqb id "" then ""
  else if String.eqb prefix "" then Clean id
  else Clean (prefix +:+ "/" +:+ id).

Definition lower_ascii (c : ascii) : ascii :=
  let n := nat_of_ascii c in
  if (Nat.leb 65 n && Nat.leb n 90)%bool then ascii_of_nat (n + 32) else c.

(** [strings.ToLower] on ASCII text. *)
Fixpoint ToLower (s : string) : string :=
  match s with
  | EmptyString => EmptyString
  | String c s' => String (lower_ascii c) (ToLower s')
  end.

(** The pattern of [ioutil.TempFile] split at its last "*": the random
    part goes between the two halves. *)
Fixpoint prefixAndSuffix (pattern : string) : option (string * string) :=
  match pattern with
  | EmptyString => None
  | String c rest =>
      match prefixAndSuffix rest with
      | Some (p, s) => Some (String c p, s)
      | None => if Ascii.eqb c "*"%char then Some (EmptyString, rest) else None
      end
  end.

(** The file name [ioutil.TempFile] builds from [pattern] and the random
    string [r]; without "*" the random string goes to the end. *)
Definition temp_name (pattern r : string) : string :=
  match prefixAndSuffix pattern with
  | Some (p, s) => p +:+ r +:+ s
  | None => pattern +:+ r
  end.

End GoString.

Import GoString.


(** ** Configuration, library and requests *)

(** Modelled from the spec: the declaration of [Config] (config.go) is not
    among the sources; these are the sections and fields the handlers read,
    the maximum upload size, the scratch directory ([UploadPath]), the
    timeouts and the downscale profiles of the specification. *)
Record ServerConfig := {
  UploadPath : string;
  PreserveUploadFilename : bool;
  MaxUploadSize : Z;
}.

Record ThumbnailerConfig := {
  ThumbnailerTimeout : Z;
  PositionFromStart : Z;
}.

Record TranscoderConfig := {
  TranscoderTimeout : Z;
  Sizes : list (string * string);   (* size, suffix: in the order of the range *)
}.

Record Config := {
  Server : ServerConfig;
  Thumbnailer : ThumbnailerConfig;
  Transcoder : TranscoderConfig;
}.

(** Modelled from the spec: [media.Path], one collection (root directory,
    URL prefix, filename preservation); its declaration is not among the
    sources. *)
Record LibPath := {
  Path : string;
  Prefix : string;
  PathPreserveUploadFilename : bool;
}.

(** Modelled from the spec: [media.Video], of which the handlers read the
    identifier, the title and the absolute path; its declaration is not among
    the sources. *)
Record Video := {
  ID : string;
  Title : string;
  VideoPath : string;
}.

(** Modelled from the spec: [media.Library], the catalog: collections by
    key and videos by identifier; its declaration is not among the sources. *)
Record Library := {
  Paths : gmap string LibPath;
  Videos : gmap string Video;
}.

Record App := {
  AppConfig : Config;
  AppLibrary : Library;
}.

(** The header of an uploaded file: the name the client claims and the number
    of bytes of the payload. *)
Record FileHeader := {
  Filename : string;
  Size : Z;
}.

Record Request := {
  Method : string;
  Form : gmap string string;            (* form values, body and query *)
  MultipartFile : gmap string FileHeader;
  (** the error [FormFile] meets before it looks for the file: the body is
      not a multipart form, or the file cannot be opened; nil otherwise *)
  FormFileError : option string;
  Vars : gmap string string;            (* mux.Vars *)
  Query : gmap string string;           (* URL.Query *)
}.

Definition FormValue (r : Request) (key : string) : string :=
  default "" (Form r !! key).

Definition QueryGet (r : Request) (key : string) : string :=
  default "" (Query r !! key).

(** [request.FormFile(key)]: the header of the file of the field, or the
    error: the one the request carries, or [http.ErrMissingFile] when the
    form has no such file. *)
Definition FormFile (r : Request) (key : string) : FileHeader + string :=
  match FormFileError r with
  | Some e => inr e
  | None =>
      match MultipartFile r !! key with
      | Some fileHeader => inl fileHeader
      | None => inr "http: no such file"
      end
  end.

(** Modelled from the spec: what the remote resolver ([importers], not among
    the sources) returns for a source URL: direct media URL, thumbnail URL,
    title and description. *)
Record VideoInfo := {
  VideoURL : string;
  ThumbnailURL : string;
  InfoTitle : string;
  InfoDescription : string;
}.

Definition uploadParserBuffer : Z := 1048576.
Definition StatusBadRequest : Z := 400.
Definition StatusMethodNotAllowed : Z := 405.
Definition StatusInternalServerError : Z := 500.

(** ** The environment *)

(** A call that leaves the program. *)
Inductive Op :=
| OpSecureJoin (root unsafePath : string)
| OpStat (path : string)
| OpTempFile (path : string)
| OpCreate (path : string)
| OpCopy (dst : string)                       (* io.Copy of the payload *)
| OpRunCmd (timeout : Z) (name : string) (args : list string)
| OpRename (src dst : string)
| OpRemove (path : string)
| OpNewImporter (url : string)
| OpGetVideoInfo (url : string)
| OpHead (url : string)
| OpDownload (url dst : string)
| OpMigrate (prefix id : string)
| OpIncViews (id : string)
| OpStderrPipe
| OpStdoutPipe
| OpStart (name : string) (args : list string)
| OpWrite (chunk : string)
| OpKill.

(** One read of the encoder's standard output: the bytes and the error. *)
Inductive ReadError := EOF | ReadFailed (msg : string).

Record Env := {
  (** the error of the n-th call, [None] when it succeeds *)
  env_fails : nat -> Op -> option string;
  (** whether the n-th call, when it is a failed command or download,
      leaves its unfinished output file behind *)
  env_partial : nat -> bool;
  (** the n-th random string ([shortuuid.New], the "*" of [TempFile]) *)
  env_rand : nat -> string;
  (** the answer of the remote resolver *)
  env_video_info : string -> VideoInfo;
  (** the Content-Length header of the answer to a HEAD request *)
  env_content_length : string -> string;
  (** [utils.SafeParseInt64], not among the sources: the integer a string
      denotes, or the given default *)
  SafeParseInt64 : string -> Z -> Z;
  (** [humanize.Bytes] *)
  humanize_Bytes : Z -> string;
  (** what the reads of the encoder's standard output return, in order;
      after them a read returns no bytes *)
  env_stdout : list (string * option ReadError);
}.

(** ** Worlds and effects *)

Inductive Event :=
| Call (op : Op) (err : option string)
| ParseMultipartForm (maxMemory : Z)
| Render (name : string) (ctx : Config)        (* a.render(name, w, ctx) *)
| SetHeader (key value : string)
| HttpError (msg : string) (code : Z)
| Fprintf (body : string)
| Chmod (path : string) (mode : Z)
| Close
| CopyStderr                                  (* io.Copy(os.Stdout, stderr) done *)
| GoStderrReader                              (* the goroutine draining stderr *)
| Flush
| ServeFile (path : string).

Inductive Deferred :=
| DeferClose
| DeferRemove (path : string)
| DeferKill.

Record World := {
  fs : gset string;           (* the files that exist *)
  trace : list Event;         (* the effects so far, oldest first *)
  defers : list Deferred;     (* deferred calls, newest first *)
  calls : nat;                (* calls made so far *)
  draws : nat;                (* random strings drawn so far *)
  proc_started : bool;        (* whether cmd.Start has succeeded *)
}.

Definition initial (files : gset string) : World :=
  {| fs := files; trace := []; defers := []; calls := 0%nat; draws := 0%nat;
     proc_started := false |}.

(** [ffmpeg] writes the file named by its last argument. *)
Definition ffmpeg_output (args : list string) : string := List.last args "".

(** The change a call makes to the file system. *)
Definition effect (op : Op) (err : option string) (partial : bool)
    (files : gset string) : gset string :=
  match op, err with
  | OpTempFile p, None => {[p]} ∪ files
  | OpCreate p, None => {[p]} ∪ files
  | OpRunCmd _ _ args, None => {[ffmpeg_output args]} ∪ files
  | OpRunCmd _ _ args, Some _ =>
      if partial then {[ffmpeg_output args]} ∪ files else files
  | OpDownload _ dst, None => {[dst]} ∪ files
  | OpDownload _ dst, Some _ => if partial then {[dst]} ∪ files else files
  | OpRename src dst, None => {[dst]} ∪ (files ∖ {[src]})
  | OpRemove p, None => files ∖ {[p]}
  | _, _ => files
  end.

(** How a piece of a handler ends. *)
Inductive Flow (A : Type) :=
| Next (a : A)            (* control goes on *)
| Returned                (* the handler executed [return] *)
| Panicked (msg : string)
| Blocked                 (* a call never returns *)
| OutOfFuel.              (* the bound on the collision loop was hit *)

Arguments Next {A} a.
Arguments Returned {A}.
Arguments Panicked {A} msg.
Arguments Blocked {A}.
Arguments OutOfFuel {A}.

Definition M (A : Type) : Type := World -> Flow A * World.

Definition ret {A} (a : A) : M A := fun w => (Next a, w).

Definition bind {A B} (c : M A) (k : A -> M B) : M B := fun w =>
  match c w with
  | (Next a, w') => k a w'
  | (Returned, w') => (Returned, w')
  | (Panicked msg, w') => (Panicked msg, w')
  | (Blocked, w') => (Blocked, w')
  | (OutOfFuel, w') => (OutOfFuel, w')
  end.

Declare Scope go_scope.
Delimit Scope go_scope with go.
Notation "x <- c ;; k" := (bind c (fun x => k))
  (at level 100, c at next level, right associativity) : go_scope.
Notation "c ;; k" := (bind c (fun _ => k))
  (at level 100, right associativity) : go_scope.
Local Open Scope go_scope.

Definition return_ {A} : M A := fun w => (Returned, w).
Definition panic {A} (msg : string) : M A := fun w => (Panicked msg, w).
Definition out_of_fuel {A} : M A := fun w => (OutOfFuel, w).

(** The world after one more logged effect, one more deferred call, one more
    random string drawn. *)
Definition log (e : Event) (w : World) : World :=
  {| fs := fs w; trace := trace w ++ [e]; defers := defers w;
     calls := calls w; draws := draws w; proc_started := proc_started w |}.

Definition push (d : Deferred) (w : World) : World :=
  {| fs := fs w; trace := trace w; defers := d :: defers w;
     calls := calls w; draws := draws w; proc_started := proc_started w |}.

Definition drew (w : World) : World :=
  {| fs := fs w; trace := trace w; defers := defers w;
     calls := calls w; draws := S (draws w); proc_started := proc_started w |}.

(** The world after the call [op] ended with [err]: the call is logged, the
    file system changes accordingly, a started command is remembered. *)
Definition did (op : Op) (err : option string) (partial : bool) (w : World)
  : World :=
  {| fs := effect op err partial (fs w);
     trace := trace w ++ [Call op err];
     defers := defers w;
     calls := S (calls w);
     draws := draws w;
     proc_started :=
       match op, err with
       | OpStart _ _, None => true
       | _, _ => proc_started w
       end |}.

(** The world in which the deferred calls have been taken off the stack. *)
Definition no_defers (w : World) : World :=
  {| fs := fs w; trace := trace w; defers := [];
     calls := calls w; draws := draws w; proc_started := proc_started w |}.

Definition emit (e : Event) : M unit := fun w => (Next tt, log e w).

Definition defer (d : Deferred) : M unit := fun w => (Next tt, push d w).

Definition exists_file (p : string) : M bool := fun w =>
  (Next (bool_decide (p ∈ fs w)), w).

Definition is_nil (err : option string) : bool :=
  match err with None => true | Some _ => false end.

Section Handlers.

Context (env : Env) (a : App).
(** The bound on the iterations of the collision loop of
    [newVideoFileName]; the source has none. *)
Context (fuel : nat).

(** A call to the environment: its outcome is the environment's. *)
Definition call (op : Op) : M (option string) := fun w =>
  let err := env_fails env (calls w) op in
  (Next err, did op err (env_partial env (calls w)) w).

(** [shortuuid.New()] and the random part of a temporary name. *)
Definition random : M string := fun w =>
  (Next (env_rand env (draws w)), drew w).

Definition http_Error (msg : string) (code : Z) : M unit :=
  emit (HttpError msg code).

(** [ioutil.TempFile(dir, pattern)]: the name of the new file or the
    error. *)
Definition TempFile (dir pattern : string) : M (string * option string) :=
  r <- random ;;
  let name := Join dir (temp_name pattern r) in
  err <- call (OpTempFile name) ;;
  ret (name, err).

(** [securejoin.SecureJoin(root, unsafePath)]. *)
Definition SecureJoin (root unsafePath : string) : M (string * option string) :=
  err <- call (OpSecureJoin root unsafePath) ;;
  match err with
  | Some e => ret ("", Some e)
  | None => ret (Join root unsafePath, None)
  end.

(** Modelled from the spec: [utils.RunCmd(timeout, "ffmpeg", args...)], the
    process runner, is not among the sources.  It runs the command under the
    timeout and returns an error on a timeout or a non-zero exit; whether it
    fails is the environment's choice, and a run that ends well has written
    the file named by the last argument. *)
Definition RunCmd (timeout : Z) (name : string) (args : list string)
  : M (option string) :=
  call (OpRunCmd timeout name args).

(** Modelled from the spec: [utils.Download(url, dst)], not among the
    sources, fetches [url] into the file [dst] and returns an error when it
    cannot. *)
Definition Download (url dst : string) : M (option string) :=
  call (OpDownload url dst).

(** Modelled from the spec: [utils.FileExists(path)], not among the sources,
    tells whether the file exists. *)
Definition FileExists (path : string) : M bool := exists_file path.

Definition run_deferred (d : Deferred) : M unit :=
  match d with
  | DeferClose => emit Close
  | DeferRemove p => _ <- call (OpRemove p) ;; ret tt
  | DeferKill => _ <- call OpKill ;; ret tt
  end.

Fixpoint run_defers (ds : list Deferred) (w : World) : World :=
  match ds with
  | [] => w
  | d :: ds' => run_defers ds' (snd (run_deferred d w))
  end.

(** A handler from entry to exit: the deferred calls run, newest first,
    when the body returns or panics. *)
Definition handle (body : M unit) (w : World) : Flow unit * World :=
  match body w with
  | (Blocked, w') => (Blocked, w')
  | (OutOfFuel, w') => (OutOfFuel, w')
  | (r, w') => (r, run_defers (defers w') (no_defers w'))
  end.

(** *** Helpers of the upload handler *)

(** [createScaledVideo]: one downscaled derivative. *)
Definition createScaledVideo (videoFile scaledVideoFile : string)
    (timeout : Z) (videoTitle videoDescription size : string)
  : M (bool * option string) :=
  err <- RunCmd timeout "ffmpeg"
    ["-y"; "-s"; size; "-c:v"; "libx264"; "-c:a"; "aac"; "-crf"; "18";
     "-strict"; "-2"; "-loglevel"; "verbose";
     "-metadata"; "title=" +:+ videoTitle;
     "-metadata"; "comment=" +:+ videoDescription;
     "-i"; videoFile; scaledVideoFile] ;;
  match err with
  | Some e => ret (false, Some ("error transcoding video: " +:+ e))
  | None => ret (true, None)
  end.

(** [createVideo]: the transcoded master. *)
Definition createVideo (videoFile transcodedVideoPath : string)
    (timeout : Z) (videoTitle videoDescription : string)
  : M (bool * option string) :=
  err <- RunCmd timeout "ffmpeg"
    ["-y"; "-vcodec"; "h264"; "-acodec"; "aac"; "-strict"; "-2";
     "-loglevel"; "quiet";
     "-metadata"; "title=" +:+ videoTitle;
     "-metadata"; "comment=" +:+ videoDescription;
     "-i"; videoFile; transcodedVideoPath] ;;
  match err with
  | Some e => ret (false, Some ("error transcoding video: " +:+ e))
  | None => ret (true, None)
  end.

(** [createThumbnail]. *)
Definition createThumbnail (videoFile thumbnailPath : string)
    (timeout secondsFromStart : Z) : M (bool * option string) :=
  err <- RunCmd timeout "ffmpeg"
    ["-y"; "-vf"; "thumbnail"; "-t"; pretty secondsFromStart;
     "-vframes"; "1"; "-strict"; "-2"; "-loglevel"; "quiet";
     "-i"; videoFile; thumbnailPath] ;;
  match err with
  | Some e => ret (false, Some ("error generating thumbnail: " +:+ e))
  | None => ret (true, None)
  end.

(** [getTranscodedPath]. *)
Definition getTranscodedPath (newVideoBasename : string)
  : M (string * option string) :=
  r <- SecureJoin (UploadPath (Server (AppConfig a))) newVideoBasename ;;
  match snd r with
  | Some e =>
      let err := "error creating temporary filename for transcoding: " +:+ e in
      http_Error err StatusInternalServerError ;;
      ret ("", Some err)
  | None => ret (fst r, None)
  end.

(** [preserveUploadFilenameIsEnabled].  Indexing the map with a directory
    that is not a collection yields a nil pointer, whose field cannot be
    read. *)
Definition preserveUploadFilenameIsEnabled (targetLibraryDir : string)
  : M bool :=
  if PreserveUploadFilename (Server (AppConfig a)) then ret true
  else
    match Paths (AppLibrary a) !! targetLibraryDir with
    | Some p => ret (PathPreserveUploadFilename p)
    | None => panic "invalid memory address or nil pointer dereference"
    end.

(** [fileExistsAtLocation]. *)
Definition fileExistsAtLocation (filename location : string)
  : M (bool * option string) :=
  r <- SecureJoin location filename ;;
  match snd r with
  | Some e => ret (false, Some e)
  | None =>
      let absolutePath := fst r in
      err <- call (OpStat absolutePath) ;;
      match err with
      | Some e => ret (false, Some e)       (* neither found nor absent *)
      | None =>
          found <- exists_file absolutePath ;;
          ret (found, None)
      end
  end.

(** [fileExistsAtAnyLocation]. *)
Fixpoint fileExistsAtAnyLocation (filename : string) (locations : list string)
  : M (bool * option string) :=
  match locations with
  | [] => ret (false, None)
  | loc :: rest =>
      r <- fileExistsAtLocation filename loc ;;
      match snd r with
      | Some e => ret (false, Some e)
      | None =>
          if fst r && is_nil (snd r) then ret (true, None)
          else fileExistsAtAnyLocation filename rest
      end
  end.

(** [basenameWithoutExtension]. *)
Definition basenameWithoutExtension (path : string) : string :=
  let basename := Base path in
  slice_to (String.length basename - String.length (Ext basename)) basename.

(** [pathWithoutExtension]. *)
Definition pathWithoutExtension (path : string) : string :=
  slice_to (String.length path - String.length (Ext path)) path.

(** The [for] statement of [newVideoFileName].  Its variables [exists] and
    [err] are declared by the statement itself; [inl] is the candidate with
    which the loop ends, [inr] what a [return] inside its body returns. *)
Fixpoint newVideoFileName_for (n : nat) (candidateFilename : string)
    (locationsToCheckForCollisions : list string) (newFileName : string)
  : M (string + string * option string) :=
  match n with
  | O => out_of_fuel
  | S n' =>
      r <- fileExistsAtAnyLocation newFileName locationsToCheckForCollisions ;;
      let exists_ := fst r in
      let err := snd r in
      if exists_ && is_nil err then
        match err with
        | Some e =>
            http_Error e StatusInternalServerError ;;
            ret (inr ("", Some e))
        | None =>
            u <- random ;;
            newVideoFileName_for n' candidateFilename
              locationsToCheckForCollisions
              (basenameWithoutExtension candidateFilename +:+ "_" +:+ u +:+ ".mp4")
        end
      else ret (inl newFileName)
  end.

(** [newVideoFileName].  [err] is the named result of the function, which
    no statement assigns. *)
Definition newVideoFileName (candidateFilename : string)
    (locationsToCheckForCollisions : list string)
  : M (string * option string) :=
  let err : option string := None in
  newFileName <-
    (if negb (String.eqb candidateFilename "")
     then ret (basenameWithoutExtension candidateFilename +:+ ".mp4")
     else u <- random ;; ret (u +:+ ".mp4")) ;;
  r <- newVideoFileName_for fuel candidateFilename
         locationsToCheckForCollisions newFileName ;;
  match r with
  | inr res => ret res
  | inl newFileName =>
      match err with
      | Some e => ret ("", Some e)
      | None => ret (newFileName, None)
      end
  end.

(** [copyFileFromFormToUploadDir]: the name of the staged file. *)
Definition copyFileFromFormToUploadDir (videoFilenameFromUpload : string)
  : M (string * option string) :=
  r <- TempFile (UploadPath (Server (AppConfig a)))
         ("tube-upload-*" +:+ Ext videoFilenameFromUpload) ;;
  match snd r with
  | Some e =>
      let err := "error creating temporary file for uploading: " +:+ e in
      http_Error err StatusInternalServerError ;;
      ret ("", Some err)
  | None =>
      err <- call (OpCopy (fst r)) ;;
      match err with
      | Some e =>
          let err := "error writing file: " +:+ e in
          http_Error err StatusInternalServerError ;;
          ret ("", Some err)
      | None => ret (fst r, None)
      end
  end.

(** [extractFormFile]: the claimed file name. *)
Definition extractFormFile (request : Request) : M (string * option string) :=
  match FormFile request "video_file" with
  | inr e =>
      let err := "error processing form: " +:+ e in
      http_Error err StatusInternalServerError ;;
      ret ("", Some err)
  | inl fileHeaderFromUpload => ret (Filename fileHeaderFromUpload, None)
  end.

(** [getSelectedTargetLibraryDir]. *)
Definition getSelectedTargetLibraryDir (request : Request)
  : M (string * option string) :=
  match Paths (AppLibrary a) !! FormValue request "target_library_path" with
  | None =>
      let err := "uploading to invalid library path: " +:+
                 FormValue request "target_library_path" in
      http_Error err StatusInternalServerError ;;
      ret ("", Some err)
  | Some _ => ret (FormValue request "target_library_path", None)
  end.

(** [renderUploadPage]: the call of [a.render] with the configuration as
    context; what the template makes of it is not part of the model. *)
Definition renderUploadPage : M unit := emit (Render "upload" (AppConfig a)).


(** *** [uploadHandler] *)

(** The loop over [Transcoder.Sizes] of the upload handler. *)
Fixpoint upload_resize (sizes : list (string * string))
    (uploadedFile transcodedVideoPath newVideoPath : string)
    (videoTitleFromUpload videoDescriptionFromUpload : string) : M unit :=
  match sizes with
  | [] => ret tt
  | (size, suffix) :: rest =>
      let scaledFileName :=
        TrimSuffix transcodedVideoPath (Ext transcodedVideoPath)
          +:+ "#" +:+ suffix +:+ ".mp4" in
      r <- createScaledVideo uploadedFile scaledFileName
             (TranscoderTimeout (Transcoder (AppConfig a)))
             videoTitleFromUpload videoDescriptionFromUpload size ;;
      match snd r with
      | Some e => http_Error e StatusInternalServerError ;; return_
      | None =>
          let targetFilename :=
            TrimSuffix newVideoPath (Ext newVideoPath)
              +:+ "#" +:+ suffix +:+ ".mp4" in
          err <- call (OpRename scaledFileName targetFilename) ;;
          match err with
          | Some e =>
              http_Error ("error moving scaled video: " +:+ e)
                StatusInternalServerError ;;
              return_
          | None =>
              upload_resize rest uploadedFile transcodedVideoPath
                newVideoPath videoTitleFromUpload videoDescriptionFromUpload
          end
      end
  end.

(** The POST branch of [uploadHandler]. *)
Definition upload_post (request : Request) : M unit :=
  emit (ParseMultipartForm uploadParserBuffer) ;;
  let videoTitleFromUpload := FormValue request "video_title" in
  let videoDescriptionFromUpload := FormValue request "video_description" in
  r <- getSelectedTargetLibraryDir request ;;
  match snd r with Some _ => return_ | None =>
  let targetLibraryDir := fst r in
  r <- extractFormFile request ;;
  match snd r with Some _ => return_ | None =>
  let videoFilenameFromUpload := fst r in
  defer DeferClose ;;
  r <- newVideoFileName videoFilenameFromUpload
         [targetLibraryDir; UploadPath (Server (AppConfig a))] ;;
  match snd r with Some _ => return_ | None =>
  let newVideoBasename := fst r in
  let newVideoPath := Join targetLibraryDir newVideoBasename in
  r <- copyFileFromFormToUploadDir videoFilenameFromUpload ;;
  match snd r with Some _ => return_ | None =>
  let uploadedFile := fst r in
  defer (DeferRemove uploadedFile) ;;
  r <- getTranscodedPath newVideoBasename ;;
  match snd r with Some _ => return_ | None =>
  let transcodedVideoPath := fst r in
  err <- call (OpCreate transcodedVideoPath) ;;
  match err with
  | Some e =>
      http_Error ("error creating temporary file for transcoding: " +:+ e)
        StatusInternalServerError ;;
      return_
  | None =>
  let transcodedVideoFile := transcodedVideoPath in
  emit (Chmod transcodedVideoFile 420) ;;
  defer (DeferRemove transcodedVideoFile) ;;
  let transcodedThumbnailPath :=
    pathWithoutExtension transcodedVideoFile +:+ ".jpg" in
  let newThumbnailPath := pathWithoutExtension newVideoPath +:+ ".jpg" in
  r <- createVideo uploadedFile transcodedVideoPath
         (TranscoderTimeout (Transcoder (AppConfig a)))
         videoTitleFromUpload videoDescriptionFromUpload ;;
  match snd r with
  | Some e => http_Error e StatusInternalServerError ;; return_
  | None =>
  r <- createThumbnail uploadedFile transcodedThumbnailPath
         (ThumbnailerTimeout (Thumbnailer (AppConfig a)))
         (PositionFromStart (Thumbnailer (AppConfig a))) ;;
  match snd r with
  | Some e => http_Error e StatusInternalServerError ;; return_
  | None =>
  err <- call (OpRename transcodedThumbnailPath newThumbnailPath) ;;
  match err with
  | Some e =>
      http_Error ("error renaming generated thumbnail: " +:+ e)
        StatusInternalServerError ;;
      return_
  | None =>
  err <- call (OpRename transcodedVideoFile newVideoPath) ;;
  match err with
  | Some e =>
      http_Error ("error renaming transcoded video: " +:+ e)
        StatusInternalServerError ;;
      return_
  | None =>
  upload_resize (Sizes (Transcoder (AppConfig a)))
    uploadedFile transcodedVideoPath newVideoPath
    videoTitleFromUpload videoDescriptionFromUpload ;;
  emit (Fprintf "Video successfully uploaded!")
  end end end end end end end end end end.

Definition uploadHandler_body (request : Request) : M unit :=
  if String.eqb (Method request) "GET" then renderUploadPage
  else if String.eqb (Method request) "POST" then upload_post request
  else http_Error "Method Not Allowed" StatusMethodNotAllowed.

Definition uploadHandler (request : Request) (w : World) : Flow unit * World :=
  handle (uploadHandler_body request) w.

(** *** [importHandler] *)

(** [sort.Strings] of the keys of the collections. *)
Definition sorted_keys : list string :=
  merge_sort String.le (elements (dom (Paths (AppLibrary a)))).

(** The loop over [Transcoder.Sizes] of the import handler. *)
Fixpoint import_resize (sizes : list (string * string)) (vf : string)
    (videoInfo : VideoInfo) : M unit :=
  match sizes with
  | [] => ret tt
  | (size, suffix) :: rest =>
      let sf := TrimSuffix vf (Ext vf) +:+ "#" +:+ suffix +:+ ".mp4" in
      err <- RunCmd (TranscoderTimeout (Transcoder (AppConfig a))) "ffmpeg"
        ["-y"; "-i"; vf; "-s"; size; "-c:v"; "libx264"; "-c:a"; "aac";
         "-crf"; "18"; "-strict"; "-2"; "-loglevel"; "quiet";
         "-metadata"; "title=" +:+ InfoTitle videoInfo;
         "-metadata"; "comment=" +:+ InfoDescription videoInfo;
         sf] ;;
      match err with
      | Some e =>
          http_Error ("error transcoding video: " +:+ e)
            StatusInternalServerError ;;
          return_
      | None => import_resize rest vf videoInfo
      end
  end.

(** The POST branch of [importHandler]. *)
Definition import_post (r : Request) : M unit :=
  emit (ParseMultipartForm 1024) ;;
  let url := FormValue r "url" in
  if String.eqb url "" then
    http_Error "error, no url supplied" StatusBadRequest ;; return_
  else
  let keys := sorted_keys in
  match keys with
  | [] => panic "index out of range [0] with length 0"
  | collection :: _ =>
  err <- call (OpNewImporter url) ;;
  match err with
  | Some e =>
      http_Error ("error creating video importer for " +:+ url +:+ ": " +:+ e)
        StatusInternalServerError ;;
      return_
  | None =>
  err <- call (OpGetVideoInfo url) ;;
  match err with
  | Some e =>
      http_Error ("error retrieving video info for " +:+ url +:+ ": " +:+ e)
        StatusInternalServerError ;;
      return_
  | None =>
  let videoInfo := env_video_info env url in
  uf <- TempFile (UploadPath (Server (AppConfig a))) "tube-import-*.mp4" ;;
  match snd uf with
  | Some e =>
      http_Error ("error creating temporary file for importing: " +:+ e)
        StatusInternalServerError ;;
      return_
  | None =>
  let uf := fst uf in
  defer (DeferRemove uf) ;;
  err <- call (OpHead (VideoURL videoInfo)) ;;
  match err with
  | Some e =>
      http_Error ("error getting size of video " +:+ e)
        StatusInternalServerError ;;
      return_
  | None =>
  let contentLength :=
    SafeParseInt64 env (env_content_length env (VideoURL videoInfo)) (-1) in
  if Z.eqb contentLength (-1) then
    http_Error "error calculating size of video" StatusInternalServerError ;;
    return_
  else if Z.ltb (MaxUploadSize (Server (AppConfig a))) contentLength then
    http_Error
      ("imported video would exceed maximum upload size of " +:+
       humanize_Bytes env (MaxUploadSize (Server (AppConfig a))))
      StatusInternalServerError ;;
    return_
  else
  err <- Download (VideoURL videoInfo) uf ;;
  match err with
  | Some e =>
      http_Error ("error downloading video " +:+ url +:+ ": " +:+ e)
        StatusInternalServerError ;;
      return_
  | None =>
  tf <- TempFile (UploadPath (Server (AppConfig a))) "tube-transcode-*.mp4" ;;
  match snd tf with
  | Some e =>
      http_Error ("error creating temporary file for transcoding: " +:+ e)
        StatusInternalServerError ;;
      return_
  | None =>
  let tf := fst tf in
  match Paths (AppLibrary a) !! collection with
  | None => panic "invalid memory address or nil pointer dereference"
  | Some p =>
  u <- random ;;
  let vf := Join (Path p) (u +:+ ".mp4") in
  let thumbFn1 := TrimSuffix tf (Ext tf) +:+ ".jpg" in
  let thumbFn2 := TrimSuffix vf (Ext vf) +:+ ".jpg" in
  err <- Download (ThumbnailURL videoInfo) thumbFn1 ;;
  match err with
  | Some e =>
      http_Error ("error downloading thumbnail: " +:+ e)
        StatusInternalServerError ;;
      return_
  | None =>
  err <- RunCmd (TranscoderTimeout (Transcoder (AppConfig a))) "ffmpeg"
    ["-y"; "-i"; uf; "-vcodec"; "h264"; "-acodec"; "aac";
     "-strict"; "-2"; "-loglevel"; "quiet";
     "-metadata"; "title=" +:+ InfoTitle videoInfo;
     "-metadata"; "comment=" +:+ InfoDescription videoInfo;
     tf] ;;
  match err with
  | Some e =>
      http_Error ("error transcoding video: " +:+ e)
        StatusInternalServerError ;;
      return_
  | None =>
  err <- call (OpRename thumbFn1 thumbFn2) ;;
  match err with
  | Some e =>
      http_Error ("error renaming generated thumbnail: " +:+ e)
        StatusInternalServerError ;;
      return_
  | None =>
  err <- call (OpRename tf vf) ;;
  match err with
  | Some e =>
      http_Error ("error renaming transcoded video: " +:+ e)
        StatusInternalServerError ;;
      return_
  | None =>
  import_resize (Sizes (Transcoder (AppConfig a))) vf videoInfo ;;
  emit (Fprintf "Video successfully imported!")
  end end end end end end end end end end end end.

Definition importHandler_body (r : Request) : M unit :=
  if String.eqb (Method r) "GET" then emit (Render "import" (AppConfig a))
  else if String.eqb (Method r) "POST" then import_post r
  else http_Error "Method Not Allowed" StatusMethodNotAllowed.

Definition importHandler (r : Request) (w : World) : Flow unit * World :=
  handle (importHandler_body r) w.


(** *** [videoHandler] *)

(** [io.Copy(os.Stdout, stderr)] on the read end of the pipe that
    [cmd.StderrPipe] returns.  The copy ends at the end of the stream, and
    a pipe reaches its end only when every write end is closed; until
    [cmd.Start] has run, the handler's own process holds the write end and
    nothing is written, so the copy does not return. *)
Definition io_Copy_Stdout_stderr : M unit := fun w =>
  if proc_started w then emit CopyStderr w else (Blocked, w).

(** The loop that forwards the encoder's output to the response. *)
Fixpoint forward_stdout (reads : list (string * option ReadError)) : M unit :=
  match reads with
  | [] => ret tt
  | (chunk, err) :: rest =>
      if Nat.eqb (String.length chunk) 0 then ret tt
      else
        match err with
        | Some (ReadFailed _) =>
            http_Error "error reading from ffmpeg stdout"
              StatusInternalServerError ;;
            return_
        | _ =>
            werr <- call (OpWrite chunk) ;;
            match werr with
            | Some _ =>
                http_Error "error writing to response"
                  StatusInternalServerError ;;
                return_
            | None => emit Flush ;; forward_stdout rest
            end
        end
  end.

Definition is_quality (quality : string) : bool :=
  String.eqb quality "720p" || String.eqb quality "480p" ||
  String.eqb quality "360p" || String.eqb quality "240p".

Definition videoHandler_body (r : Request) : M unit :=
  let id := default "" (Vars r !! "id") in
  let prefix := default "" (Vars r !! "prefix") in
  let id := if bool_decide (is_Some (Vars r !! "prefix"))
            then path_Join prefix id else id in
  match Videos (AppLibrary a) !! id with
  | None => return_
  | Some m =>
  let quality := ToLower (QueryGet r "quality") in
  sel <-
    (if is_quality quality then
       let videoPath :=
         TrimSuffix (VideoPath m) (Ext (VideoPath m))
           +:+ "#" +:+ quality +:+ ".mp4" in
       found <- FileExists videoPath ;;
       ret (videoPath, negb found)
     else ret (VideoPath m, false)) ;;
  let videoPath := fst sel in
  let otf := snd sel in
  _ <- call (OpMigrate prefix id) ;;
  _ <- call (OpIncViews id) ;;
  let title := Title m in
  let disposition := "attachment; filename=" +:+ String quote title
                       +:+ ".mp4" +:+ String quote "" in
  emit (SetHeader "Content-Disposition" disposition) ;;
  emit (SetHeader "Content-Type" "video/mp4") ;;
  if otf then
    let args :=
      ["-y"; "-s"; "320x200"; "-vcodec"; "h264"; "-acodec"; "aac";
       "-strict"; "-2"; "-loglevel"; "debug"; "-i"; videoPath;
       "-f"; "mp4"; "-movflags"; "frag_keyframe+empty_moov"; "-"] in
    err <- call OpStderrPipe ;;
    match err with
    | Some _ =>
        http_Error "error creating stderr pipe" StatusInternalServerError ;;
        return_
    | None =>
    io_Copy_Stdout_stderr ;;
    err <- call OpStdoutPipe ;;
    match err with
    | Some _ =>
        http_Error "error creating stdout pipe" StatusInternalServerError ;;
        return_
    | None =>
    err <- call (OpStart "ffmpeg" args) ;;
    match err with
    | Some _ =>
        http_Error "error starting ffmpeg" StatusInternalServerError ;;
        return_
    | None =>
    defer DeferKill ;;
    emit GoStderrReader ;;
    emit (SetHeader "Content-Type" "video/mp4") ;;
    forward_stdout (env_stdout env)
    end end end
  else emit (ServeFile videoPath)
  end.

Definition videoHandler (r : Request) (w : World) : Flow unit * World :=
  handle (videoHandler_body r) w.

End Handlers.

(** ** Observations on a log *)

(** The renames that succeeded, in order. *)
Definition rename_of (e : Event) : option (string * string) :=
  match e with
  | Call (OpRename src dst) None => Some (src, dst)
  | _ => None
  end.

Definition renames (t : list Event) : list (string * string) := omap rename_of t.

(** The file a step other than a rename creates or writes, whether the step
    ends well or not. *)
Definition written_by (e : Event) : option string :=
  match e with
  | Call (OpTempFile p) _ => Some p
  | Call (OpCreate p) _ => Some p
  | Call (OpCopy p) _ => Some p
  | Call (OpRunCmd _ _ args) _ => Some (ffmpeg_output args)
  | Call (OpDownload _ dst) _ => Some dst
  | _ => None
  end.

Definition written (t : list Event) : list string := omap written_by t.

(** The errors reported to the client. *)
Definition http_error_of (e : Event) : option (string * Z) :=
  match e with
  | HttpError msg code => Some (msg, code)
  | _ => None
  end.

Definition http_errors (t : list Event) : list (string * Z) := omap http_error_of t.

(** The external commands started, by [utils.RunCmd] or [cmd.Start]. *)
Definition command_of (e : Event) : option (list string) :=
  match e with
  | Call (OpRunCmd _ _ args) _ => Some args
  | Call (OpStart _ args) _ => Some args
  | _ => None
  end.

Definition commands (t : list Event) : list (list string) := omap command_of t.

(** A step that only asks the file system a question. *)
Definition is_query (e : Event) : bool :=
  match e with
  | Call (OpSecureJoin _ _) _ | Call (OpStat _) _ => true
  | _ => false
  end.

(** The success messages written to the client. *)
Definition success_of (e : Event) : option string :=
  match e with
  | Fprintf body => Some body
  | _ => None
  end.

Definition successes (t : list Event) : list string := omap success_of t.

(** The calls made, whatever their outcome. *)
Definition op_of (e : Event) : option Op :=
  match e with
  | Call op _ => Some op
  | _ => None
  end.

Definition ops (t : list Event) : list Op := omap op_of t.

(** The files the handler asked to remove. *)
Definition removal_of (e : Event) : option string :=
  match e with
  | Call (OpRemove p) _ => Some p
  | _ => None
  end.

Definition removals (t : list Event) : list string := omap removal_of t.

(** The files that exist, in alphabetical order. *)
Definition files_of (w : World) : list string :=
  merge_sort String.le (elements (fs w)).

(** What a deferred call logs. *)
Definition is_cleanup (e : Event) : bool :=
  match e with
  | Close | Call (OpRemove _) _ | Call OpKill _ => true
  | _ => false
  end.

(** ** Vocabulary of the statements *)

(** From [w] to [w'] the handler only asked the file system questions: the
    log grew by queries, and files and deferred calls are the same. *)
Definition quiet_step (w w' : World) : Prop :=
  exists evs,
    trace w' = trace w ++ evs /\ forallb is_query evs = true /\
    fs w' = fs w /\ defers w' = defers w.

(** [p] is a file of the directory [d]. *)
Definition in_dir (d p : string) : Prop := exists name, p = Join d name.

(** From [w] to [w'] no file outside the directory [d] disappeared. *)
Definition keeps_outside (d : string) (w w' : World) : Prop :=
  forall p, ~ in_dir d p -> p ∈ fs w -> p ∈ fs w'.

(** The derivative of [stem] for one profile (size, suffix), in [dir]. *)
Definition scaled (dir stem : string) (profile : string * string) : string :=
  Join dir (stem +:+ "#" +:+ snd profile +:+ ".mp4").

(** Neither a master in the collection nor a success message: at most the
    thumbnail has been renamed. *)
Definition unpublished (t : list Event) : Prop :=
  (renames t = [] \/ exists x, renames t = [x]) /\ successes t = [].

(** The errors the derivative steps report: the encoder's and, in the upload
    handler, the rename's. *)
Definition derivative_error (msg : string) : Prop :=
  exists e,
    msg = "error transcoding video: " +:+ e \/
    msg = "error moving scaled video: " +:+ e.


(** The directory of the collection the import handler selects. *)
Definition import_target (a : App) : string :=
  match sorted_keys a with
  | [] => ""
  | collection :: _ =>
      match Paths (AppLibrary a) !! collection with
      | Some p => Path p
      | None => ""
      end
  end.

(** The identifier of the video a playback request names. *)
Definition requested_id (r : Request) : string :=
  if bool_decide (is_Some (Vars r !! "prefix"))
  then path_Join (default "" (Vars r !! "prefix")) (default "" (Vars r !! "id"))
  else default "" (Vars r !! "id").

(** The two entry points of the ingestion. *)
Inductive EntryPoint := ByUpload | ByImport.

Definition ingest (ep : EntryPoint) (env : Env) (a : App) (fuel : nat)
    (request : Request) (w : World) : Flow unit * World :=
  match ep with
  | ByUpload => uploadHandler env a fuel request w
  | ByImport => importHandler env a request w
  end.

Definition success_message (ep : EntryPoint) : string :=
  match ep with
  | ByUpload => "Video successfully uploaded!"
  | ByImport => "Video successfully imported!"
  end.

Definition target (ep : EntryPoint) (a : App) (request : Request) : string :=
  match ep with
  | ByUpload => FormValue request "target_library_path"
  | ByImport => import_target a
  end.

(** The renames of the derivatives: the upload handler stages each one and
    renames it; the import handler renames none. *)
Definition derivative_renames (ep : EntryPoint) (a : App) (U T stem : string)
  : list (string * string) :=
  match ep with
  | ByUpload => map (fun p => (scaled U stem p, scaled T stem p))
                  (Sizes (Transcoder (AppConfig a)))
  | ByImport => []
  end.

(** The candidate with which [newVideoFileName] enters its loop, and the
    world then: the stem of the claimed name, or a random token when no name
    is claimed. *)
Definition first_candidate (env : Env) (candidateFilename : string) (w : World)
  : string * World :=
  if negb (String.eqb candidateFilename "")
  then (basenameWithoutExtension candidateFilename +:+ ".mp4", w)
  else (env_rand env (draws w) +:+ ".mp4", drew w).

(** The candidate of the loop after [k] collisions from [name] on, that is
    after [k] checks that each found the candidate of the moment, and the
    world in which its own check starts; none when an earlier check ends the
    loop. *)
Fixpoint nth_candidate (env : Env) (candidateFilename : string)
    (locations : list string) (k : nat) (name : string) (w : World)
  : option (string * World) :=
  match k with
  | O => Some (name, w)
  | S k' =>
      match fileExistsAtAnyLocation env name locations w with
      | (Next (true, None), w1) =>
          nth_candidate env candidateFilename locations k'
            (basenameWithoutExtension candidateFilename +:+ "_" +:+
             env_rand env (draws w1) +:+ ".mp4") (drew w1)
      | _ => None
      end
  end.

(** The files of the directory [dir] that a step other than a rename
    created or wrote. *)
Definition written_in (dir : string) (t : list Event) : list string :=
  List.filter (String.prefix (dir +:+ "/")) (written t).

(** ** Sample inputs *)

Module Sample.

Fixpoint parse_digits (s : string) (acc : Z) : option Z :=
  match s with
  | EmptyString => Some acc
  | String c s' =>
      let n := Z.of_nat (nat_of_ascii c) in
      if (48 <=? n) && (n <=? 57) then parse_digits s' (10 * acc + (n - 48))
      else None
  end.

Definition parse_int (s : string) (fallback : Z) : Z :=
  match s with
  | EmptyString => fallback
  | _ => default fallback (parse_digits s 0)
  end.

Definition info : VideoInfo :=
  {| VideoURL := "http://media.example/v.webm";
     ThumbnailURL := "http://media.example/t.jpg";
     InfoTitle := "Test";
     InfoDescription := "Demo" |}.

(** An environment in which every call succeeds. *)
Definition env_ok : Env :=
  {| env_fails := fun _ _ => None;
     env_partial := fun _ => false;
     env_rand := fun n => "r" +:+ pretty n;
     env_video_info := fun _ => info;
     env_content_length := fun _ => "100";
     SafeParseInt64 := parse_int;
     humanize_Bytes := fun z => pretty z +:+ " B";
     env_stdout := [("abc", None); ("de", Some EOF)] |}.

Definition config (sizes : list (string * string)) : Config :=
  {| Server := {| UploadPath := "uploads";
                  PreserveUploadFilename := false;
                  MaxUploadSize := 1000 |};
     Thumbnailer := {| ThumbnailerTimeout := 60; PositionFromStart := 3 |};
     Transcoder := {| TranscoderTimeout := 300; Sizes := sizes |} |}.

Definition videos : LibPath :=
  {| Path := "videos"; Prefix := ""; PathPreserveUploadFilename := false |}.

Definition cat : Video :=
  {| ID := "cat"; Title := "Cat"; VideoPath := "videos/cat.mp4" |}.

Definition app (sizes : list (string * string)) : App :=
  {| AppConfig := config sizes;
     AppLibrary := {| Paths := {["videos" := videos]};
                      Videos := {["cat" := cat]} |} |}.

(** The same server when its scratch directory is the directory of the
    collection. *)
Definition app_shared (sizes : list (string * string)) : App :=
  {| AppConfig :=
       {| Server := {| UploadPath := "videos";
                       PreserveUploadFilename := false;
                       MaxUploadSize := 1000 |};
          Thumbnailer := Thumbnailer (config sizes);
          Transcoder := Transcoder (config sizes) |};
     AppLibrary := AppLibrary (app sizes) |}.

(** The same server with no collection. *)
Definition app_empty : App :=
  {| AppConfig := config [];
     AppLibrary := {| Paths := ∅; Videos := ∅ |} |}.

Definition upload (target filename : string) (size : Z) : Request :=
  {| Method := "POST";
     Form := {["target_library_path" := target;
               "video_title" := "Test";
               "video_description" := "Demo"]};
     MultipartFile := {["video_file" := {| Filename := filename; Size := size |}]};
     FormFileError := None;
     Vars := ∅;
     Query := ∅ |}.

Definition import (url : string) : Request :=
  {| Method := "POST";
     Form := if String.eqb url "" then ∅ else {["url" := url]};
     MultipartFile := ∅;
     FormFileError := None;
     Vars := ∅;
     Query := ∅ |}.

Definition play (id quality : string) : Request :=
  {| Method := "GET";
     Form := ∅;
     MultipartFile := ∅;
     FormFileError := None;
     Vars := {["id" := id]};
     Query := {["quality" := quality]} |}.

(** The environment in which the calls that [fails] selects fail, and the
    HEAD request announces [content_length] bytes. *)
Definition env_with (fails : Op -> option string) (content_length : string)
  : Env :=
  {| env_fails := fun _ op => fails op;
     env_partial := fun _ => false;
     env_rand := fun n => "r" +:+ pretty n;
     env_video_info := fun _ => info;
     env_content_length := fun _ => content_length;
     SafeParseInt64 := parse_int;
     humanize_Bytes := fun z => pretty z +:+ " B";
     env_stdout := [("abc", None); ("de", Some EOF)] |}.

(** Every [os.Stat] fails with an error other than "not found". *)
Definition stat_fails : Env :=
  env_with (fun op => match op with
                      | OpStat _ => Some "permission denied"
                      | _ => None
                      end) "100".

(** Every run of the encoder fails. *)
Definition transcoder_fails : Env :=
  env_with (fun op => match op with
                      | OpRunCmd _ _ _ => Some "exit status 1"
                      | _ => None
                      end) "100".

(** The encoder fails when it is asked to scale ("-s"). *)
Definition resize_fails : Env :=
  env_with (fun op => match op with
                      | OpRunCmd _ _ ("-y" :: "-s" :: _) => Some "exit status 1"
                      | _ => None
                      end) "100".

(** Writing the payload to the staged file fails. *)
Definition copy_fails : Env :=
  env_with (fun op => match op with
                      | OpCopy _ => Some "unexpected EOF"
                      | _ => None
                      end) "100".

(** The remote file is announced with 5000 bytes. *)
Definition announces_5000 : Env := env_with (fun _ => None) "5000".

(** One downscale profile. *)
Definition hd : list (string * string) := [("hd720", "720p")].

(** [os.Stat] of [path], and of no other path, fails with an error other
    than "not found". *)
Definition stat_fails_on (path : string) : Env :=
  env_with (fun op => match op with
                      | OpStat p =>
                          if String.eqb p path then Some "permission denied"
                          else None
                      | _ => None
                      end) "100".

(** The encoder fails when it is asked to scale ("-s"), in either handler,
    and leaves its unfinished output behind. *)
Definition resize_aborts : Env :=
  {| env_fails := fun _ op =>
       match op with
       | OpRunCmd _ _ args =>
           if existsb (String.eqb "-s") args then Some "signal: killed" else None
       | _ => None
       end;
     env_partial := fun _ => true;
     env_rand := fun n => "r" +:+ pretty n;
     env_video_info := fun _ => info;
     env_content_length := fun _ => "100";
     SafeParseInt64 := parse_int;
     humanize_Bytes := fun z => pretty z +:+ " B";
     env_stdout := [] |}.

(** The world in which the check of the second candidate of "cat.mov"
    starts, after the first one, "cat.mp4", was found in the collection. *)
Definition at_second_check : World :=
  default (initial ∅)
    (snd <$> nth_candidate (stat_fails_on "videos/cat_r0.mp4") "cat.mov"
               ["videos"; "uploads"] 1 "cat.mp4" (initial {["videos/cat.mp4"]})).

(** The world after that check. *)
Definition after_second_check : World :=
  snd (fileExistsAtAnyLocation (stat_fails_on "videos/cat_r0.mp4") "cat_r0.mp4"
         ["videos"; "uploads"] at_second_check).

End Sample.

Import Sample.

(** ** Vocabulary of the further properties *)

(** No call to the environment fails. *)
Definition never_fails (env : Env) : Prop :=
  forall n op, env_fails env n op = None.

(** Whether [filename] is among [files] in one of the directories. *)
Definition exists_in (files : gset string) (filename : string)
    (locations : list string) : bool :=
  existsb (fun loc => bool_decide (Join loc filename ∈ files)) locations.

(** The answers given to the client: errors and success messages. *)
Definition answers (t : list Event) : nat :=
  (length (http_errors t) + length (successes t))%nat.

(** What a helper that returns [err] has told the client. *)
Definition reported (err : option string) : list (string * Z) :=
  match err with
  | Some e => [(e, StatusInternalServerError)]
  | None => []
  end.

(** The contract of the helpers of the upload handler that are given the
    response writer: the helper ends with a value and an error; when the
    error is not nil it has been reported to the client with status 500,
    and nothing else has, so that the caller only has to return; the value
    is then the empty string. *)
Definition reports_its_error (c : M (string * option string)) : Prop :=
  forall w, exists x err w',
    c w = (Next (x, err), w') /\
    http_errors (trace w') = http_errors (trace w) ++ reported err /\
    successes (trace w') = successes (trace w) /\
    (err <> None -> x = "").

(** [c] completes the answer to the client.  When [n] answers have been
    given just before [c], one answer has been given after it if [c] leaves
    the handler or ends with a value that is not [ok], and none if it ends
    with an [ok] value; [c] neither panics nor blocks, and it hits the bound
    of the collision loop only if it is [bounded]. *)
Definition ans {A} (bounded : bool) (n : nat) (c : M A) (ok : A -> bool)
  : Prop :=
  forall w,
    match c w with
    | (Next x, w') =>
        (n + answers (trace w') = answers (trace w) + (if ok x then 0 else 1))%nat
    | (Returned, w') => (n + answers (trace w') = answers (trace w) + 1)%nat
    | (OutOfFuel, _) => bounded = true
    | (Panicked _, _) | (Blocked, _) => False
    end.

(** The downloads the handler asked for: source and destination. *)
Definition download_of (e : Event) : option (string * string) :=
  match e with
  | Call (OpDownload url dst) _ => Some (url, dst)
  | _ => None
  end.

Definition downloads (t : list Event) : list (string * string) :=
  omap download_of t.

(** The size the remote server announces for the video behind [url]: the
    Content-Length of the answer to the HEAD request, -1 when it is not a
    number. *)
Definition announced_size (env : Env) (url : string) : Z :=
  SafeParseInt64 env
    (env_content_length env (VideoURL (env_video_info env url))) (-1).

(** [c] asks for no download unless [P] holds. *)
Definition downloads_only_if (P : Prop) {A} (c : M A) : Prop :=
  forall w, P \/ downloads (trace (c w).2) = downloads (trace w).




(** The path under which the playback handler looks for the derivative of
    the master [path] in the quality [quality]. *)
Definition derivative_path (path quality : string) : string :=
  TrimSuffix path (Ext path) +:+ "#" +:+ quality +:+ ".mp4".

(** The header that names the download after the title. *)
Definition content_disposition (title : string) : string :=
  "attachment; filename=" +:+ String quote title +:+ ".mp4" +:+ String quote "".

(** Whether one of the [n] candidates that the collision loop of
    [newVideoFileName] tries from [name] on is in none of the locations;
    the later candidates are made of the random strings from the [d]-th
    on. *)
Fixpoint free_within (env : Env) (files : gset string)
    (candidateFilename : string) (locations : list string)
    (n : nat) (name : string) (d : nat) : bool :=
  match n with
  | O => false
  | S n' =>
      negb (exists_in files name locations)
      || free_within env files candidateFilename locations n'
           (basenameWithoutExtension candidateFilename +:+ "_" +:+
            env_rand env d +:+ ".mp4") (S d)
  end.

(** The same for [newVideoFileName], from its first candidate on, when [d]
    random strings have been drawn. *)
Definition name_free_within (env : Env) (files : gset string)
    (candidateFilename : string) (locations : list string)
    (n d : nat) : bool :=
  if negb (String.eqb candidateFilename "")
  then free_within env files candidateFilename locations n
         (basenameWithoutExtension candidateFilename +:+ ".mp4") d
  else free_within env files candidateFilename locations n
         (env_rand env d +:+ ".mp4") (S d).

(** The file name an upload claims, empty when the request has no file. *)
Definition claimed_name (request : Request) : string :=
  match FormFile request "video_file" with
  | inl fileHeader => Filename fileHeader
  | inr _ => ""
  end.

(** Whether one of the first [n] names the upload handler would try for the
    master of [request], among [files], is free in the collection and in the
    scratch directory. *)
Definition upload_name_free_within (env : Env) (a : App) (files : gset string)
    (request : Request) (n : nat) : bool :=
  name_free_within env files (claimed_name request)
    [FormValue request "target_library_path"; UploadPath (Server (AppConfig a))]
    n 0.

(** The files the upload handler staged in full or created for the
    transcoder. *)
Definition staged_of (e : Event) : option string :=
  match e with
  | Call (OpCopy p) None => Some p
  | Call (OpCreate p) None => Some p
  | _ => None
  end.

Definition staged (t : list Event) : list string := omap staged_of t.

(** The file a deferred call removes. *)
Definition deferred_removal (d : Deferred) : option string :=
  match d with
  | DeferRemove p => Some p
  | _ => None
  end.

(** ** Further sample inputs *)

Module Fixtures.

(** A second collection, whose key comes first in the order of the strings. *)
Definition archive : LibPath :=
  {| Path := "archive"; Prefix := "old"; PathPreserveUploadFilename := false |}.

Definition app_two : App :=
  {| AppConfig := config [];
     AppLibrary := {| Paths := {["videos" := videos; "archive" := archive]};
                      Videos := {["cat" := cat]} |} |}.

(** An upload to [target] without the field "video_file". *)
Definition upload_without_file (target : string) : Request :=
  {| Method := "POST";
     Form := {["target_library_path" := target]};
     MultipartFile := ∅;
     FormFileError := None;
     Vars := ∅;
     Query := ∅ |}.

(** An upload to [target] whose body is not a multipart form. *)
Definition upload_not_multipart (target : string) : Request :=
  {| Method := "POST";
     Form := {["target_library_path" := target]};
     MultipartFile := ∅;
     FormFileError := Some "request Content-Type isn't multipart/form-data";
     Vars := ∅;
     Query := ∅ |}.

(** The request of a method the router lets through to the handlers. *)
Definition options : Request :=
  {| Method := "OPTIONS"; Form := ∅; MultipartFile := ∅; FormFileError := None;
     Vars := ∅; Query := ∅ |}.

End Fixtures.

Import Fixtures.

(** ** Facts on strings *)

Section StringFacts.

Lemma append_cons (c : ascii) (x y : string) :
  String c x +:+ y = String c (x +:+ y).
Proof. reflexivity. Qed.

Lemma append_nil_l (y : string) : "" +:+ y = y.
Proof. reflexivity. Qed.

Lemma append_assoc (x y z : string) : (x +:+ y) +:+ z = x +:+ (y +:+ z).
Proof.
  induction x as [|c x IH]; [reflexivity|].
  now rewrite !append_cons, IH.
Qed.

Lemma length_append (x y : string) :
  String.length (x +:+ y) = (String.length x + String.length y)%nat.
Proof.
  induction x as [|c x IH]; [reflexivity|].
  rewrite append_cons. simpl. now rewrite IH.
Qed.

Lemma slice_to_append (x y : string) : slice_to (String.length x) (x +:+ y) = x.
Proof.
  unfold slice_to. induction x as [|c x IH].
  - rewrite append_nil_l. now destruct y.
  - rewrite append_cons. simpl. now rewrite IH.
Qed.

Lemma slice_to_drop (x y : string) :
  slice_to (String.length (x +:+ y) - String.length y) (x +:+ y) = x.
Proof.
  rewrite length_append.
  replace (String.length x + String.length y - String.length y)%nat
    with (String.length x) by lia.
  apply slice_to_append.
Qed.

Lemma HasSuffix_append (x y : string) : HasSuffix (x +:+ y) y = true.
Proof.
  induction x as [|c x IH].
  - rewrite append_nil_l. destruct y; simpl; [reflexivity|].
    now rewrite Ascii.eqb_refl, String.eqb_refl.
  - rewrite append_cons. simpl. rewrite IH. apply orb_true_r.
Qed.

Lemma TrimSuffix_append (x y : string) : TrimSuffix (x +:+ y) y = x.
Proof. unfold TrimSuffix. rewrite HasSuffix_append. apply slice_to_drop. Qed.

(** The two extensions the handlers append. *)
Lemma Ext_append_mp4 (x : string) : Ext (x +:+ ".mp4") = ".mp4".
Proof.
  induction x as [|c x IH]; [reflexivity|].
  rewrite append_cons. simpl. now rewrite IH.
Qed.

Lemma Ext_append_jpg (x : string) : Ext (x +:+ ".jpg") = ".jpg".
Proof.
  induction x as [|c x IH]; [reflexivity|].
  rewrite append_cons. simpl. now rewrite IH.
Qed.

Lemma pathWithoutExtension_mp4 (x : string) :
  pathWithoutExtension (x +:+ ".mp4") = x.
Proof. unfold pathWithoutExtension. rewrite Ext_append_mp4. apply slice_to_drop. Qed.

Lemma TrimSuffix_Ext_mp4 (x : string) :
  TrimSuffix (x +:+ ".mp4") (Ext (x +:+ ".mp4")) = x.
Proof. rewrite Ext_append_mp4. apply TrimSuffix_append. Qed.

Lemma Join_append (d x y : string) : Join d (x +:+ y) = Join d x +:+ y.
Proof. unfold Join. now rewrite !append_assoc. Qed.

(** Cancellation on the right. *)
Lemma append_inv_tail (x y z : string) : x +:+ z = y +:+ z -> x = y.
Proof.
  revert y. induction x as [|c x IH]; intros [|d y] H.
  - reflexivity.
  - apply (f_equal String.length) in H.
    rewrite append_cons, append_nil_l in H. simpl in H.
    rewrite length_append in H. lia.
  - apply (f_equal String.length) in H.
    rewrite append_cons, append_nil_l in H. simpl in H.
    rewrite length_append in H. lia.
  - rewrite !append_cons in H. injection H as -> H. f_equal. now apply IH.
Qed.

(** [Clean] and [path_Join] on inputs of the tests of the Go library. *)
Example Clean_samples :
  Clean "" = "." /\ Clean "abc/def/" = "abc/def" /\
  Clean "abc//def//ghi" = "abc/def/ghi" /\ Clean "///abc" = "/abc" /\
  Clean "abc/./def" = "abc/def" /\ Clean "abc/." = "abc" /\
  Clean "abc/def/../ghi/../jkl" = "abc/jkl" /\ Clean "abc/def/../.." = "." /\
  Clean "/abc/def/../../.." = "/" /\
  Clean "abc/def/../../../ghi/jkl/../../../mno" = "../../mno" /\
  Clean "abc/../../././../def" = "../../def".
Proof. vm_compute. repeat split; reflexivity. Qed.

Example path_Join_samples :
  path_Join "a" "b" = "a/b" /\ path_Join "a" "" = "a" /\
  path_Join "" "b" = "b" /\ path_Join "" "" = "" /\
  path_Join "a/" "b" = "a/b" /\ path_Join "/" "a" = "/a" /\
  path_Join "old" "." = "old" /\ path_Join "old" "../cat" = "cat".
Proof. vm_compute. repeat split; reflexivity. Qed.

End StringFacts.

(** ** Facts on logs *)

Section LogFacts.

Lemma renames_app (t u : list Event) : renames (t ++ u) = renames t ++ renames u.
Proof. apply omap_app. Qed.

Lemma written_app (t u : list Event) : written (t ++ u) = written t ++ written u.
Proof. apply omap_app. Qed.

Lemma ops_app (t u : list Event) : ops (t ++ u) = ops t ++ ops u.
Proof. apply omap_app. Qed.

Lemma http_errors_app (t u : list Event) :
  http_errors (t ++ u) = http_errors t ++ http_errors u.
Proof. apply omap_app. Qed.

Lemma queries_no_rename (t : list Event) :
  forallb is_query t = true -> renames t = [].
Proof.
  induction t as [|e t IH]; simpl; [reflexivity|].
  intros [He Ht]%andb_true_iff. unfold renames in *. simpl.
  rewrite (IH Ht). destruct e as [[] ?| | | | | | | | | | |]; simpl in *; congruence.
Qed.

Lemma queries_no_write (t : list Event) :
  forallb is_query t = true -> written t = [].
Proof.
  induction t as [|e t IH]; simpl; [reflexivity|].
  intros [He Ht]%andb_true_iff. unfold written in *. simpl.
  rewrite (IH Ht). destruct e as [[] ?| | | | | | | | | | |]; simpl in *; congruence.
Qed.

Lemma queries_no_http_error (t : list Event) :
  forallb is_query t = true -> http_errors t = [].
Proof.
  induction t as [|e t IH]; simpl; [reflexivity|].
  intros [He Ht]%andb_true_iff. unfold http_errors in *. simpl.
  rewrite (IH Ht). destruct e as [[] ?| | | | | | | | | | |]; simpl in *; congruence.
Qed.

Lemma queries_no_Fprintf (t : list Event) (body : string) :
  forallb is_query t = true -> ~ In (Fprintf body) t.
Proof.
  induction t as [|e t IH]; simpl; [tauto|].
  intros [He Ht]%andb_true_iff [->|Hin]; [discriminate | now apply IH].
Qed.

End LogFacts.

(** ** Validation of the target collection *)

Section Validation.

Context (env : Env) (a : App) (fuel : nat).

(** C7.  An upload (POST) whose target is not a collection of the library
    is answered with the error "uploading to invalid library path" and
    nothing else happens: the handler makes no call to the environment (no
    file is staged, no command is started, no file is renamed), and the
    files are those that existed before. *)
Theorem upload_invalid_target_no_side_effects
    (request : Request) (files : gset string) :
  Method request = "POST" ->
  Paths (AppLibrary a) !! FormValue request "target_library_path" = None ->
  uploadHandler env a fuel request (initial files) =
    (Returned,
     {| fs := files;
        trace := [ParseMultipartForm uploadParserBuffer;
                  HttpError ("uploading to invalid library path: " +:+
                             FormValue request "target_library_path")
                    StatusInternalServerError];
        defers := [];
        calls := 0%nat;
        draws := 0%nat;
        proc_started := false |}).
Proof.
  intros Hpost Hnone.
  unfold uploadHandler, handle, uploadHandler_body. rewrite Hpost. simpl.
  unfold upload_post, bind, emit, getSelectedTargetLibraryDir. simpl.
  rewrite Hnone. reflexivity.
Qed.

End Validation.

Lemma upload_invalid_target_witness :
  uploadHandler env_ok (app []) 3 (upload "nowhere" "cat.mov" 10) (initial ∅) =
    (Returned,
     {| fs := ∅;
        trace := [ParseMultipartForm uploadParserBuffer;
                  HttpError "uploading to invalid library path: nowhere"
                    StatusInternalServerError];
        defers := [];
        calls := 0%nat;
        draws := 0%nat;
        proc_started := false |}).
Proof.
  apply (upload_invalid_target_no_side_effects env_ok (app []) 3
           (upload "nowhere" "cat.mov" 10) ∅); vm_compute; reflexivity.
Defined.

(** ** Name resolution *)

Lemma quiet_step_refl (w : World) : quiet_step w w.
Proof. exists []. now rewrite app_nil_r. Qed.

Lemma quiet_step_trans (w1 w2 w3 : World) :
  quiet_step w1 w2 -> quiet_step w2 w3 -> quiet_step w1 w3.
Proof.
  intros (e1 & Ht1 & Hq1 & Hf1 & Hd1) (e2 & Ht2 & Hq2 & Hf2 & Hd2).
  exists (e1 ++ e2). rewrite Ht2, Ht1, <- app_assoc, forallb_app, Hq1, Hq2.
  repeat split; congruence.
Qed.

Section NameResolution.

Context (env : Env) (a : App).

Lemma random_quiet (w : World) :
  quiet_step w (snd (random env w)) /\
  fst (random env w) = Next (env_rand env (draws w)).
Proof. split; [|reflexivity]. exists []. simpl. now rewrite app_nil_r. Qed.

Lemma fileExistsAtLocation_spec (filename location : string) (w : World) :
  exists found err w',
    fileExistsAtLocation env filename location w = (Next (found, err), w') /\
    quiet_step w w'.
Proof.
  unfold fileExistsAtLocation, SecureJoin, bind, call, exists_file, ret. simpl.
  destruct (env_fails env (calls w) (OpSecureJoin location filename)) as [e|] eqn:E1;
    simpl.
  - do 3 eexists. split; [reflexivity|].
    eexists [_]. simpl. repeat split.
  - destruct (env_fails env (S (calls w)) (OpStat (Join location filename)))
      as [e|] eqn:E2; simpl.
    + do 3 eexists. split; [reflexivity|].
      eexists [_; _]. simpl. rewrite <- app_assoc. repeat split.
    + do 3 eexists. split; [reflexivity|].
      eexists [_; _]. simpl. rewrite <- app_assoc. repeat split.
Qed.

Lemma fileExistsAtAnyLocation_spec (filename : string) (locations : list string)
    (w : World) :
  exists found err w',
    fileExistsAtAnyLocation env filename locations w = (Next (found, err), w') /\
    quiet_step w w'.
Proof.
  revert w. induction locations as [|loc rest IH]; intros w; simpl.
  - do 3 eexists. split; [reflexivity | apply quiet_step_refl].
  - destruct (fileExistsAtLocation_spec filename loc w) as (b & err & w1 & E & Hq).
    unfold bind at 1. rewrite E. simpl.
    destruct err as [e|]; simpl.
    + do 3 eexists. split; [reflexivity | exact Hq].
    + destruct b; simpl.
      * do 3 eexists. split; [reflexivity | exact Hq].
      * destruct (IH w1) as (b' & err' & w2 & E' & Hq').
        do 3 eexists. split; [exact E' | eapply quiet_step_trans; eauto].
Qed.

(** The [for] statement never leaves the function: it ends, with a
    candidate, or the bound is hit. *)
Lemma newVideoFileName_for_spec (n : nat) (candidateFilename : string)
    (locations : list string) (newFileName : string) (w : World) :
  (exists stem, newFileName = stem +:+ ".mp4") ->
  exists r w',
    newVideoFileName_for env n candidateFilename locations newFileName w = (r, w') /\
    quiet_step w w' /\
    (r = OutOfFuel \/ exists stem, r = Next (inl (stem +:+ ".mp4"))).
Proof.
  revert newFileName w. induction n as [|n IH]; intros name w Hname; simpl.
  - do 2 eexists. split; [reflexivity|]. split; [apply quiet_step_refl | now left].
  - destruct (fileExistsAtAnyLocation_spec name locations w) as (b & err & w1 & E & Hq).
    unfold bind at 1. rewrite E. simpl.
    destruct err as [e|]; simpl.
    + rewrite andb_false_r. do 2 eexists. split; [reflexivity|]. split; [exact Hq|].
      right. destruct Hname as [stem ->]. now eexists.
    + destruct b; simpl.
      * unfold bind at 1. simpl.
        edestruct (IH (basenameWithoutExtension candidateFilename
                         +:+ "_" +:+ env_rand env (draws w1) +:+ ".mp4")
                      (snd (random env w1))) as (r & w2 & E2 & Hq2 & Hr).
        { exists (basenameWithoutExtension candidateFilename
                    +:+ "_" +:+ env_rand env (draws w1)).
          now rewrite !append_assoc. }
        do 2 eexists. split; [exact E2|]. split; [|exact Hr].
        eapply quiet_step_trans; [exact Hq|].
        eapply quiet_step_trans; [apply random_quiet | exact Hq2].
      * do 2 eexists. split; [reflexivity|]. split; [exact Hq|].
        right. destruct Hname as [stem ->]. now eexists.
Qed.

(** [newVideoFileName] reports nothing and returns no error: it ends with
    a name in ".mp4" and a nil error, unless the bound is hit. *)
Lemma newVideoFileName_spec (fuel : nat) (candidateFilename : string)
    (locations : list string) (w : World) :
  exists r w',
    newVideoFileName env fuel candidateFilename locations w = (r, w') /\
    quiet_step w w' /\
    (r = OutOfFuel \/ exists stem, r = Next (stem +:+ ".mp4", None)).
Proof.
  unfold newVideoFileName.
  destruct (negb (String.eqb candidateFilename "")).
  - unfold bind at 1. simpl.
    destruct (newVideoFileName_for_spec fuel candidateFilename locations
                (basenameWithoutExtension candidateFilename +:+ ".mp4") w)
      as (r & w' & E & Hq & Hr); [now eexists|].
    unfold bind. rewrite E.
    destruct Hr as [->|[stem ->]]; simpl; do 2 eexists;
      (split; [reflexivity|]); (split; [exact Hq|]); [now left | right; now eexists].
  - unfold bind at 1. unfold bind at 2. simpl.
    destruct (newVideoFileName_for_spec fuel candidateFilename locations
                (env_rand env (draws w) +:+ ".mp4") (snd (random env w)))
      as (r & w' & E & Hq & Hr); [now eexists|].
    unfold bind. simpl in *. rewrite E.
    assert (Hq0 : quiet_step w w').
    { eapply quiet_step_trans; [apply random_quiet | exact Hq]. }
    destruct Hr as [->|[stem ->]]; simpl; do 2 eexists;
      (split; [reflexivity|]); (split; [exact Hq0|]); [now left | right; now eexists].
Qed.

End NameResolution.

Section SwallowedError.

Context (env : Env).

(** The loop from one candidate to the candidate at which it ends. *)
Lemma newVideoFileName_for_ends (k n : nat) (candidateFilename : string)
    (locations : list string) (name name' : string) (w w1 w2 : World)
    (found : bool) (err : option string) :
  nth_candidate env candidateFilename locations k name w = Some (name', w1) ->
  fileExistsAtAnyLocation env name' locations w1 = (Next (found, err), w2) ->
  found && is_nil err = false ->
  newVideoFileName_for env (k + S n) candidateFilename locations name w
    = (Next (inl name'), w2).
Proof.
  revert name w. induction k as [|k IH]; intros name w Hk E Hend.
  - injection Hk as -> ->. simpl. unfold bind. rewrite E. simpl.
    now rewrite Hend.
  - simpl in Hk.
    destruct (fileExistsAtAnyLocation env name locations w)
      as [[[[|] [e|]]| | | |] w'] eqn:E0; try discriminate.
    change (S k + S n)%nat with (S (k + S n)). simpl.
    unfold bind at 1. rewrite E0. simpl.
    unfold bind at 1. simpl. now apply IH.
Qed.

(** C10.  When the existence check of the current candidate returns an
    error, be it the first candidate or the one reached after [k]
    collisions, the loop of [newVideoFileName] ends and the function returns
    that candidate with a nil error, whatever the check said about the file,
    and nothing is reported to the client.  And on any input and in any
    world the function never returns an error nor reports one: the branch of
    the loop body that would do so is never taken and the check after the
    loop reads the named result, which is nil. *)
Theorem existence_check_error_is_swallowed
    (fuel k : nat) (candidateFilename : string) (locations : list string)
    (newFileName : string) (w w1 w2 : World) (found : bool) (e : string) :
  nth_candidate env candidateFilename locations k
    (first_candidate env candidateFilename w).1
    (first_candidate env candidateFilename w).2 = Some (newFileName, w1) ->
  fileExistsAtAnyLocation env newFileName locations w1
    = (Next (found, Some e), w2) ->
  (k < fuel)%nat ->
  newVideoFileName env fuel candidateFilename locations w
    = (Next (newFileName, None), w2)
  /\ http_errors (trace w2) = http_errors (trace w)
  /\ (forall fuel' w0 r w',
        newVideoFileName env fuel' candidateFilename locations w0 = (Next r, w') ->
        snd r = None /\ http_errors (trace w') = http_errors (trace w0)).
Proof.
  intros Hk E Hfuel.
  assert (Hall : forall fuel' w0 r w',
            newVideoFileName env fuel' candidateFilename locations w0
              = (Next r, w') ->
            snd r = None /\ http_errors (trace w') = http_errors (trace w0)).
  { intros fuel' w0 r w' E0.
    destruct (newVideoFileName_spec env fuel' candidateFilename locations w0)
      as (r0 & w0' & E0' & (evs & Ht & Hq & _) & Hr).
    rewrite E0 in E0'. injection E0' as <- <-.
    destruct Hr as [Hr|[stem Hr]]; [discriminate|]. injection Hr as ->.
    split; [reflexivity|].
    rewrite Ht, http_errors_app, (queries_no_http_error _ Hq). apply app_nil_r. }
  assert (Hrun : newVideoFileName env fuel candidateFilename locations w
                 = (Next (newFileName, None), w2)).
  { replace fuel with (k + S (fuel - S k))%nat by lia.
    unfold newVideoFileName. unfold first_candidate in Hk.
    destruct (negb (candidateFilename =? "")%string); simpl in Hk.
    - unfold bind at 1. simpl. unfold bind.
      rewrite (newVideoFileName_for_ends k _ _ _ _ _ _ _ _ _ _ Hk E);
        [reflexivity | apply andb_false_r].
    - unfold bind at 1. unfold bind at 2. simpl. unfold bind.
      rewrite (newVideoFileName_for_ends k _ _ _ _ _ _ _ _ _ _ Hk E);
        [reflexivity | apply andb_false_r]. }
  split; [exact Hrun|]. split; [|exact Hall].
  apply (Hall _ _ _ _ Hrun).
Qed.

End SwallowedError.

(** C10, on an upload of "cat.mov" while "cat.mp4" is in the collection and
    the check of the second candidate, "cat_r0.mp4", fails: the function
    returns the second candidate. *)
Lemma existence_check_error_witness :
  nth_candidate (stat_fails_on "videos/cat_r0.mp4") "cat.mov"
    ["videos"; "uploads"] 1 "cat.mp4" (initial {["videos/cat.mp4"]})
    = Some ("cat_r0.mp4", at_second_check)
  /\ newVideoFileName (stat_fails_on "videos/cat_r0.mp4") 3 "cat.mov"
       ["videos"; "uploads"] (initial {["videos/cat.mp4"]})
     = (Next ("cat_r0.mp4", None), after_second_check)
  /\ http_errors (trace after_second_check)
     = http_errors (trace (initial {["videos/cat.mp4"]}))
  /\ (forall fuel' w0 r w',
        newVideoFileName (stat_fails_on "videos/cat_r0.mp4") fuel' "cat.mov"
          ["videos"; "uploads"] w0 = (Next r, w') ->
        snd r = None /\ http_errors (trace w') = http_errors (trace w0)).
Proof.
  split; [vm_compute; reflexivity|].
  apply (existence_check_error_is_swallowed (stat_fails_on "videos/cat_r0.mp4")
           3 1 "cat.mov" ["videos"; "uploads"] "cat_r0.mp4"
           (initial {["videos/cat.mp4"]}) at_second_check after_second_check
           false "permission denied");
    [vm_compute; reflexivity | vm_compute; reflexivity | lia].
Defined.

(** ** Import with no collection *)

Section NoCollection.

Context (env : Env) (a : App).

Lemma sorted_keys_empty : Paths (AppLibrary a) = ∅ -> sorted_keys a = [].
Proof.
  intros H. unfold sorted_keys. rewrite H, dom_empty_L, elements_empty.
  reflexivity.
Qed.

(** C9, amended.  A POST to the import entry point that carries a URL,
    made while no collection is configured, panics on [keys[0]]: no error
    is reported to the client and no call is made. *)
Theorem import_without_collection_panics (r : Request) (files : gset string) :
  Method r = "POST" ->
  FormValue r "url" <> "" ->
  Paths (AppLibrary a) = ∅ ->
  importHandler env a r (initial files) =
    (Panicked "index out of range [0] with length 0",
     {| fs := files;
        trace := [ParseMultipartForm 1024];
        defers := [];
        calls := 0%nat;
        draws := 0%nat;
        proc_started := false |}).
Proof.
  intros Hpost Hurl Hempty.
  unfold importHandler, handle, importHandler_body. rewrite Hpost. simpl.
  unfold import_post, bind, emit. simpl.
  apply String.eqb_neq in Hurl. rewrite Hurl, (sorted_keys_empty Hempty).
  reflexivity.
Qed.

End NoCollection.

Lemma import_without_collection_witness :
  importHandler env_ok app_empty (import "http://x.example/1") (initial ∅) =
    (Panicked "index out of range [0] with length 0",
     {| fs := ∅;
        trace := [ParseMultipartForm 1024];
        defers := [];
        calls := 0%nat;
        draws := 0%nat;
        proc_started := false |}).
Proof.
  apply (import_without_collection_panics env_ok app_empty
           (import "http://x.example/1") ∅).
  - reflexivity.
  - vm_compute. discriminate.
  - reflexivity.
Defined.

(** C9, as stated, fails: a POST without URL, made while no collection is
    configured, is answered with the validation error "error, no url
    supplied" and the handler returns; it does not panic. *)
Lemma import_without_url_does_not_panic :
  Method (import "") = "POST" /\
  Paths (AppLibrary app_empty) = ∅ /\
  importHandler env_ok app_empty (import "") (initial ∅) =
    (Returned,
     {| fs := ∅;
        trace := [ParseMultipartForm 1024;
                  HttpError "error, no url supplied" StatusBadRequest];
        defers := [];
        calls := 0%nat;
        draws := 0%nat;
        proc_started := false |}) /\
  ~ (exists msg,
       fst (importHandler env_ok app_empty (import "") (initial ∅)) = Panicked msg).
Proof.
  repeat split; try reflexivity.
  intros [msg H]. vm_compute in H. discriminate.
Qed.

(** ** Worlds, step by step *)

Lemma in_dir_Join d n : in_dir d (Join d n).
Proof. now exists n. Qed.

Lemma in_dir_scaled d stem suffix :
  in_dir d (Join d stem +:+ "#" +:+ suffix +:+ ".mp4").
Proof. exists (stem +:+ "#" +:+ suffix +:+ ".mp4"). now rewrite Join_append. Qed.


Section WorldFacts.

Context (e : Event) (d : Deferred) (op : Op) (err : option string) (b : bool)
  (w : World).

Lemma trace_log : trace (log e w) = trace w ++ [e].
Proof. reflexivity. Qed.

Lemma fs_log : fs (log e w) = fs w.
Proof. reflexivity. Qed.

Lemma defers_log : defers (log e w) = defers w.
Proof. reflexivity. Qed.

Lemma trace_push : trace (push d w) = trace w.
Proof. reflexivity. Qed.

Lemma fs_push : fs (push d w) = fs w.
Proof. reflexivity. Qed.

Lemma defers_push : defers (push d w) = d :: defers w.
Proof. reflexivity. Qed.

Lemma trace_drew : trace (drew w) = trace w.
Proof. reflexivity. Qed.

Lemma fs_drew : fs (drew w) = fs w.
Proof. reflexivity. Qed.

Lemma defers_drew : defers (drew w) = defers w.
Proof. reflexivity. Qed.

Lemma trace_did : trace (did op err b w) = trace w ++ [Call op err].
Proof. reflexivity. Qed.

Lemma fs_did : fs (did op err b w) = effect op err b (fs w).
Proof. reflexivity. Qed.

Lemma defers_did : defers (did op err b w) = defers w.
Proof. reflexivity. Qed.

Lemma trace_no_defers : trace (no_defers w) = trace w.
Proof. reflexivity. Qed.

Lemma fs_no_defers : fs (no_defers w) = fs w.
Proof. reflexivity. Qed.
End WorldFacts.

Create Rewrite HintDb world.
#[global] Hint Rewrite trace_log fs_log defers_log trace_push fs_push defers_push
  trace_drew fs_drew defers_drew trace_did fs_did defers_did
  trace_no_defers fs_no_defers : world.

Arguments log : simpl never.
Arguments push : simpl never.
Arguments drew : simpl never.
Arguments did : simpl never.
Arguments no_defers : simpl never.


(** ** Deferred calls *)

Section CleanupFacts.

Lemma successes_app (t u : list Event) :
  successes (t ++ u) = successes t ++ successes u.
Proof. apply omap_app. Qed.

Lemma queries_no_success (t : list Event) :
  forallb is_query t = true -> successes t = [].
Proof.
  induction t as [|e t IH]; simpl; [reflexivity|].
  intros [He Ht]%andb_true_iff. unfold successes in *. simpl.
  rewrite (IH Ht). destruct e as [[] ?| | | | | | | | | | |]; simpl in *; congruence.
Qed.

Lemma cleanup_no_rename (t : list Event) :
  forallb is_cleanup t = true -> renames t = [].
Proof.
  induction t as [|e t IH]; simpl; [reflexivity|].
  intros [He Ht]%andb_true_iff. unfold renames in *. simpl.
  rewrite (IH Ht). destruct e as [[] ?| | | | | | | | | | |]; simpl in *; congruence.
Qed.

Lemma cleanup_no_write (t : list Event) :
  forallb is_cleanup t = true -> written t = [].
Proof.
  induction t as [|e t IH]; simpl; [reflexivity|].
  intros [He Ht]%andb_true_iff. unfold written in *. simpl.
  rewrite (IH Ht). destruct e as [[] ?| | | | | | | | | | |]; simpl in *; congruence.
Qed.

Lemma cleanup_no_http_error (t : list Event) :
  forallb is_cleanup t = true -> http_errors t = [].
Proof.
  induction t as [|e t IH]; simpl; [reflexivity|].
  intros [He Ht]%andb_true_iff. unfold http_errors in *. simpl.
  rewrite (IH Ht). destruct e as [[] ?| | | | | | | | | | |]; simpl in *; congruence.
Qed.

Lemma cleanup_no_success (t : list Event) :
  forallb is_cleanup t = true -> successes t = [].
Proof.
  induction t as [|e t IH]; simpl; [reflexivity|].
  intros [He Ht]%andb_true_iff. unfold successes in *. simpl.
  rewrite (IH Ht). destruct e as [[] ?| | | | | | | | | | |]; simpl in *; congruence.
Qed.

Context (env : Env).

Lemma run_defers_trace (ds : list Deferred) (w : World) :
  exists evs,
    trace (run_defers env ds w) = trace w ++ evs /\
    forallb is_cleanup evs = true.
Proof.
  revert w. induction ds as [|d ds IH]; intros w; simpl.
  - exists []. now rewrite app_nil_r.
  - destruct (IH (run_deferred env d w).2) as (evs & Ht & Hc).
    destruct d; simpl in *.
    + exists (Close :: evs). rewrite Ht. autorewrite with world.
      now rewrite <- app_assoc.
    + eexists (_ :: evs). rewrite Ht. unfold bind, call. simpl.
      autorewrite with world. rewrite <- app_assoc. split; [reflexivity | exact Hc].
    + eexists (_ :: evs). rewrite Ht. unfold bind, call. simpl.
      autorewrite with world. rewrite <- app_assoc. split; [reflexivity | exact Hc].
Qed.

Lemma renames_run_defers (ds : list Deferred) (w : World) :
  renames (trace (run_defers env ds w)) = renames (trace w).
Proof.
  destruct (run_defers_trace ds w) as (evs & -> & Hc).
  now rewrite renames_app, (cleanup_no_rename _ Hc), app_nil_r.
Qed.

Lemma written_run_defers (ds : list Deferred) (w : World) :
  written (trace (run_defers env ds w)) = written (trace w).
Proof.
  destruct (run_defers_trace ds w) as (evs & -> & Hc).
  now rewrite written_app, (cleanup_no_write _ Hc), app_nil_r.
Qed.

Lemma http_errors_run_defers (ds : list Deferred) (w : World) :
  http_errors (trace (run_defers env ds w)) = http_errors (trace w).
Proof.
  destruct (run_defers_trace ds w) as (evs & -> & Hc).
  now rewrite http_errors_app, (cleanup_no_http_error _ Hc), app_nil_r.
Qed.

Lemma successes_run_defers (ds : list Deferred) (w : World) :
  successes (trace (run_defers env ds w)) = successes (trace w).
Proof.
  destruct (run_defers_trace ds w) as (evs & -> & Hc).
  now rewrite successes_app, (cleanup_no_success _ Hc), app_nil_r.
Qed.

(** The deferred calls remove nothing but the files they name. *)
Lemma run_defers_keeps (ds : list Deferred) (w : World) (p : string) :
  (forall q, In (DeferRemove q) ds -> p <> q) ->
  p ∈ fs w -> p ∈ fs (run_defers env ds w).
Proof.
  revert w. induction ds as [|d ds IH]; intros w Hne Hin; simpl; [exact Hin|].
  apply IH; [intros q Hq; apply Hne; now right|].
  destruct d; simpl; [exact Hin| |exact Hin].
  unfold bind, call. simpl. autorewrite with world.
  assert (p <> path) by (apply Hne; now left).
  destruct (env_fails env (calls w) (OpRemove path)); simpl; set_solver.
Qed.

End CleanupFacts.

#[global] Hint Rewrite renames_run_defers written_run_defers
  http_errors_run_defers successes_run_defers
  renames_app written_app http_errors_app successes_app ops_app : world.

Ltac step :=
  match goal with
  | |- context [env_fails ?env ?n ?op] =>
      let e := fresh "e" in
      let E := fresh "E" in
      destruct (env_fails env n op) as [e|] eqn:E
  end; simpl.

(** ** The runs of the upload handler *)

Section UploadRuns.
Context (env : Env) (a : App) (fuel : nat).
Let U := UploadPath (Server (AppConfig a)).

Local Opaque Ext TrimSuffix Join.

Lemma upload_resize_spec (sizes : list (string * string))
    (uploadedFile T stem title desc : string) (w : World) :
  exists r w' evs,
    upload_resize env a sizes uploadedFile (Join U (stem +:+ ".mp4"))
      (Join T (stem +:+ ".mp4")) title desc w = (r, w') /\
    trace w' = trace w ++ evs /\
    defers w' = defers w /\
    Forall (in_dir U) (written evs) /\
    successes evs = [] /\
    keeps_outside U w w' /\
    ((r = Next tt /\ http_errors evs = [] /\
      renames evs = map (fun p => (scaled U stem p, scaled T stem p)) sizes)
     \/ (r = Returned /\
         exists msg, derivative_error msg /\
           http_errors evs = [(msg, StatusInternalServerError)])).
Proof.
  revert w. induction sizes as [|[size suffix] rest IH]; intros w.
  - exists (Next tt), w, []. simpl. rewrite app_nil_r.
    repeat split; auto. intros p _ Hp. exact Hp.
  - simpl. rewrite !Join_append, !TrimSuffix_Ext_mp4.
    unfold createScaledVideo, RunCmd, bind, call, http_Error, emit, return_, ret.
    simpl. step.
    + do 2 eexists. eexists [_; _]. split; [reflexivity|].
      autorewrite with world. rewrite <- app_assoc.
      split; [reflexivity|]. split; [reflexivity|].
      split; [|split; [|split]].
      * repeat constructor. apply in_dir_scaled.
      * reflexivity.
      * intros p Hp Hin. simpl. destruct (env_partial _ _); set_solver.
      * right. split; [reflexivity|]. eexists. split; [|reflexivity].
        eexists. left. reflexivity.
    + step.
      * do 2 eexists. eexists [_; _; _]. split; [reflexivity|].
        autorewrite with world. rewrite <- !app_assoc.
        split; [reflexivity|]. split; [reflexivity|].
        split; [|split; [|split]].
        -- repeat constructor. apply in_dir_scaled.
        -- reflexivity.
        -- intros p Hp Hin. simpl. set_solver.
        -- right. split; [reflexivity|]. eexists. split; [|reflexivity].
           eexists. right. reflexivity.
      * match goal with |- context [upload_resize _ _ _ _ _ _ _ _ ?w1] =>
          destruct (IH w1) as (r & w' & evs & Eq & Ht & Hd & Hw & Hf & Hk & Hr) end.
        rewrite !Join_append in Eq. rewrite Eq.
        do 2 eexists. eexists (_ :: _ :: evs). split; [reflexivity|].
        rewrite Ht. autorewrite with world in *. rewrite <- !app_assoc.
        split; [reflexivity|]. split; [exact Hd|].
        split; [|split; [|split]].
        -- repeat constructor; [apply in_dir_scaled | exact Hw].
        -- change (successes (?x :: ?y :: evs)) with (successes [x; y] ++ successes evs).
           now rewrite Hf.
        -- intros p Hp Hin. apply Hk; [exact Hp|]. autorewrite with world. simpl.
           assert (p <> Join U stem +:+ "#" +:+ suffix +:+ ".mp4").
           { intros ->. apply Hp. apply in_dir_scaled. }
           clear - Hin H. set_solver.
        -- destruct Hr as [(Hn & He & Hr)|(Hn & He)]; subst r; [left | now right].
           split; [reflexivity|]. split; [exact He|].
           change (renames (?x :: ?y :: evs)) with (renames [x; y] ++ renames evs).
           rewrite Hr. unfold scaled. simpl. now rewrite !Join_append.
Qed.


Ltac run H := unfold bind at 1 in H; simpl in H.

Ltac fork H :=
  match type of H with
  | context [env_fails ?env ?n ?op] =>
      let e := fresh "e" in
      let E := fresh "E" in
      destruct (env_fails env n op) as [e|] eqn:E; simpl in H
  end.

Ltac unpub :=
  left; unfold unpublished; autorewrite with world;
  match goal with Ht : trace _ = _ |- _ => rewrite ?Ht end;
  autorewrite with world;
  match goal with
    H1 : renames _ = [], H4 : successes _ = [] |- _ => rewrite ?H1, ?H4
  end;
  simpl;
  split; [first [left; reflexivity | right; eexists; reflexivity] | reflexivity].

(** The three ways a run of the upload handler can end. *)

Lemma upload_run (request : Request) (files : gset string)
    (r : Flow unit) (w' : World) :
  let T := FormValue request "target_library_path" in
  uploadHandler env a fuel request (initial files) = (r, w') ->
  unpublished (trace w') \/
  exists stem pre evs tail,
    trace w' =
      pre ++ [Call (OpRename (Join U (stem +:+ ".jpg")) (Join T (stem +:+ ".jpg"))) None;
              Call (OpRename (Join U (stem +:+ ".mp4")) (Join T (stem +:+ ".mp4"))) None]
          ++ evs ++ tail /\
    renames pre = [] /\ Forall (in_dir U) (written pre) /\
    http_errors pre = [] /\ successes pre = [] /\
    Forall (in_dir U) (written evs) /\ successes evs = [] /\
    ((http_errors evs = [] /\
      renames evs =
        map (fun p => (scaled U stem p, scaled T stem p))
            (Sizes (Transcoder (AppConfig a))) /\
      exists cleanup,
        tail = Fprintf "Video successfully uploaded!" :: cleanup /\
        forallb is_cleanup cleanup = true)
     \/ (r = Returned /\
         (exists msg, derivative_error msg /\
            http_errors evs = [(msg, StatusInternalServerError)]) /\
         forallb is_cleanup tail = true)) /\
    ((forall n m, Join U n <> Join T m) ->
     Join T (stem +:+ ".jpg") ∈ fs w' /\ Join T (stem +:+ ".mp4") ∈ fs w').
Proof.
  intros T Hrun.
  unfold uploadHandler, handle, uploadHandler_body in Hrun.
  destruct (String.eqb (Method request) "GET").
  { simpl in Hrun. injection Hrun as <- <-. left. split; [left|]; reflexivity. }
  destruct (String.eqb (Method request) "POST").
  2:{ simpl in Hrun. injection Hrun as <- <-. left. split; [left|]; reflexivity. }
  unfold upload_post in Hrun.
  run Hrun. run Hrun. unfold getSelectedTargetLibraryDir in Hrun.
  fold T in Hrun.
  destruct (Paths (AppLibrary a) !! T) as [p|].
  2:{ simpl in Hrun. injection Hrun as <- <-. left. split; [left|]; reflexivity. }
  simpl in Hrun.
  run Hrun. unfold extractFormFile in Hrun.
  destruct (FormFile request "video_file") as [fh|e0].
  2:{ simpl in Hrun. injection Hrun as <- <-. left. split; [left|]; reflexivity. }
  simpl in Hrun.
  run Hrun. run Hrun.
  match type of Hrun with context [newVideoFileName _ _ ?c ?l ?w] =>
    destruct (newVideoFileName_spec env fuel c l w)
      as (rn & w2 & En & (evs & Ht & Hq & Hfs & Hd) & Hrn) end.
  rewrite En in Hrun. autorewrite with world in Ht, Hfs, Hd. simpl in Ht, Hfs, Hd.
  change (?x :: evs) with ([x] ++ evs) in Ht.
  pose proof (queries_no_rename _ Hq) as Hq1.
  pose proof (queries_no_write _ Hq) as Hq2.
  pose proof (queries_no_http_error _ Hq) as Hq3.
  pose proof (queries_no_success _ Hq) as Hq4.
  destruct Hrn as [->|[stem ->]].
  { injection Hrun as <- <-. left. unfold unpublished. rewrite Ht.
    autorewrite with world. rewrite Hq1, Hq4. split; [left|]; reflexivity. }
  simpl in Hrun.
  unfold bind at 1 in Hrun.
  unfold copyFileFromFormToUploadDir in Hrun.
  unfold bind at 1 in Hrun. unfold TempFile in Hrun.
  unfold bind at 1 in Hrun. unfold random at 1 in Hrun.
  unfold bind at 1 in Hrun. unfold call at 1 in Hrun. simpl in Hrun.
  fork Hrun.
  { injection Hrun as <- <-. unpub. }
  unfold bind at 1 in Hrun. unfold call at 1 in Hrun. simpl in Hrun.
  fork Hrun.
  { injection Hrun as <- <-. unpub. }
  set (tmp := Join _ (temp_name _ _)) in *.
  run Hrun.
  unfold bind at 1 in Hrun. unfold getTranscodedPath in Hrun.
  unfold bind at 1 in Hrun. unfold SecureJoin in Hrun.
  unfold bind at 1 in Hrun. unfold call at 1 in Hrun. simpl in Hrun.
  fork Hrun.
  { injection Hrun as <- <-. unpub. }
  unfold bind at 1 in Hrun. unfold call at 1 in Hrun. simpl in Hrun.
  fork Hrun.
  { injection Hrun as <- <-. unpub. }
  run Hrun. run Hrun.
  unfold bind at 1 in Hrun. unfold createVideo in Hrun.
  unfold bind at 1 in Hrun. unfold RunCmd at 1, call at 1 in Hrun. simpl in Hrun.
  fork Hrun.
  { injection Hrun as <- <-. unpub. }
  unfold bind at 1 in Hrun. unfold createThumbnail in Hrun.
  unfold bind at 1 in Hrun. unfold RunCmd at 1, call at 1 in Hrun. simpl in Hrun.
  fork Hrun.
  { injection Hrun as <- <-. unpub. }
  unfold bind at 1 in Hrun. unfold call at 1 in Hrun. simpl in Hrun.
  fork Hrun.
  { injection Hrun as <- <-. unpub. }
  unfold bind at 1 in Hrun. unfold call at 1 in Hrun. simpl in Hrun.
  fork Hrun.
  { injection Hrun as <- <-. unpub. }
  right.
  rewrite !Join_append, !pathWithoutExtension_mp4, <- !Join_append in Hrun.
  match type of Hrun with context [bind (upload_resize _ _ _ _ _ _ _ _) _ ?w] =>
    set (w3 := w) in Hrun end.
  unfold bind at 1 in Hrun.
  destruct (upload_resize_spec (Sizes (Transcoder (AppConfig a))) tmp T stem
              (FormValue request "video_title")
              (FormValue request "video_description") w3)
    as (rr & w4 & evr & Er & Htr & Hdr & Hwr & Hfr & Hkr & Hrr).
  unfold U in Er. rewrite Er in Hrun.
  assert (Hpre : exists pre,
            trace w3 = pre ++
              [Call (OpRename (Join U (stem +:+ ".jpg")) (Join T (stem +:+ ".jpg"))) None;
               Call (OpRename (Join U (stem +:+ ".mp4")) (Join T (stem +:+ ".mp4"))) None] /\
            renames pre = [] /\ Forall (in_dir U) (written pre) /\
            http_errors pre = [] /\ successes pre = []).
  { eexists ([ParseMultipartForm uploadParserBuffer] ++ evs ++ [_; _; _; _; _; _; _]).
    split; [|split; [|split; [|split]]].
    - unfold w3. autorewrite with world. rewrite Ht. rewrite <- !app_assoc. reflexivity.
    - autorewrite with world. rewrite Hq1. reflexivity.
    - autorewrite with world. rewrite Hq2. simpl.
      repeat constructor; apply in_dir_Join.
    - autorewrite with world. rewrite Hq3. reflexivity.
    - autorewrite with world. rewrite Hq4. reflexivity. }
  assert (Hd3 : defers w3 =
            [DeferRemove (Join U (stem +:+ ".mp4")); DeferRemove tmp; DeferClose]).
  { unfold w3. autorewrite with world. rewrite Hd. reflexivity. }
  assert (Hfs3 : (forall n m, Join U n <> Join T m) ->
                 Join T (stem +:+ ".jpg") ∈ fs w3 /\ Join T (stem +:+ ".mp4") ∈ fs w3).
  { intros Hpriv. unfold w3. autorewrite with world. simpl.
    pose proof (Hpriv (stem +:+ ".mp4") (stem +:+ ".jpg")) as Hne.
    clear - Hne. set_solver. }
  clearbody w3. destruct Hpre as (pre & Ht3 & Hp1 & Hp2 & Hp3 & Hp4).
  assert (Hfs' : forall wf, fs wf = fs w4 ->
            (forall n m, Join U n <> Join T m) ->
            Join T (stem +:+ ".jpg") ∈ fs (run_defers env (defers w3) wf) /\
            Join T (stem +:+ ".mp4") ∈ fs (run_defers env (defers w3) wf)).
  { intros wf Hwf Hpriv. destruct (Hfs3 Hpriv) as [H1 H2]. rewrite Hd3.
    split; apply run_defers_keeps.
    - intros q [Hq'|[Hq'|[Hq'|[]]]]; try discriminate;
        injection Hq' as <-; apply not_eq_sym, Hpriv.
    - rewrite Hwf. apply Hkr; [intros [n Hn]; symmetry in Hn; now apply Hpriv in Hn | exact H1].
    - intros q [Hq'|[Hq'|[Hq'|[]]]]; try discriminate;
        injection Hq' as <-; apply not_eq_sym, Hpriv.
    - rewrite Hwf. apply Hkr; [intros [n Hn]; symmetry in Hn; now apply Hpriv in Hn | exact H2]. }
  destruct Hrr as [(-> & He & Hren)|(-> & Hmsg)]; simpl in Hrun;
    injection Hrun as <- <-.
  - match goal with |- context [trace (run_defers env ?ds ?w)] =>
      destruct (run_defers_trace env ds w) as (cl & Hcl & Hc) end.
    exists stem, pre, evr, (Fprintf "Video successfully uploaded!" :: cl).
    split; [|repeat split].
    + rewrite Hcl. autorewrite with world. rewrite Htr, Ht3.
      rewrite <- !app_assoc. reflexivity.
    + exact Hp1.
    + exact Hp2.
    + exact Hp3.
    + exact Hp4.
    + exact Hwr.
    + exact Hfr.
    + left. split; [exact He|]. split; [exact Hren|]. now exists cl.
    + autorewrite with world. rewrite Hdr. apply Hfs'; [reflexivity | assumption].
    + autorewrite with world. rewrite Hdr. apply Hfs'; [reflexivity | assumption].
  - match goal with |- context [trace (run_defers env ?ds ?w)] =>
      destruct (run_defers_trace env ds w) as (cl & Hcl & Hc) end.
    exists stem, pre, evr, cl.
    split; [|repeat split].
    + rewrite Hcl. autorewrite with world. rewrite Htr, Ht3.
      rewrite <- !app_assoc. reflexivity.
    + exact Hp1.
    + exact Hp2.
    + exact Hp3.
    + exact Hp4.
    + exact Hwr.
    + exact Hfr.
    + right. split; [reflexivity|]. split; [exact Hmsg | exact Hc].
    + rewrite Hdr. apply Hfs'; [reflexivity | assumption].
    + rewrite Hdr. apply Hfs'; [reflexivity | assumption].
Qed.

End UploadRuns.

(** ** The runs of the import handler *)

Section ImportRuns.
Context (env : Env) (a : App).
Let U := UploadPath (Server (AppConfig a)).

Local Opaque Ext TrimSuffix Join.

Ltac run H := unfold bind at 1 in H; simpl in H.

Ltac fork H :=
  match type of H with
  | context [env_fails ?env ?n ?op] =>
      let e := fresh "e" in
      let E := fresh "E" in
      destruct (env_fails env n op) as [e|] eqn:E; simpl in H
  end.

Ltac unpub0 :=
  left; unfold unpublished; autorewrite with world;
  match goal with Ht : trace _ = [] |- _ => rewrite ?Ht end; simpl;
  split; [first [left; reflexivity | right; eexists; reflexivity] | reflexivity].

Lemma import_resize_spec (sizes : list (string * string)) (vf : string)
    (videoInfo : VideoInfo) (w : World) :
  exists r w' evs,
    import_resize env a sizes vf videoInfo w = (r, w') /\
    trace w' = trace w ++ evs /\
    defers w' = defers w /\
    renames evs = [] /\
    successes evs = [] /\
    (forall p, p ∈ fs w -> p ∈ fs w') /\
    ((r = Next tt /\ http_errors evs = [])
     \/ (r = Returned /\
         exists msg, derivative_error msg /\
           http_errors evs = [(msg, StatusInternalServerError)])).
Proof.
  revert w. induction sizes as [|[size suffix] rest IH]; intros w.
  - exists (Next tt), w, []. simpl. rewrite app_nil_r.
    repeat split; auto.
  - simpl. unfold RunCmd, bind, call, http_Error, emit, return_, ret.
    simpl. step.
    + do 2 eexists. eexists [_; _]. split; [reflexivity|].
      autorewrite with world. rewrite <- app_assoc.
      split; [reflexivity|]. split; [reflexivity|].
      split; [reflexivity|]. split; [reflexivity|]. split.
      * intros p Hin. simpl. destruct (env_partial _ _); set_solver.
      * right. split; [reflexivity|]. eexists. split; [|reflexivity].
        eexists. left. reflexivity.
    + match goal with |- context [import_resize _ _ _ _ _ ?w1] =>
        destruct (IH w1) as (r & w' & evs & Eq & Ht & Hd & Hn & Hf & Hk & Hr) end.
      rewrite Eq.
      do 2 eexists. eexists (_ :: evs). split; [reflexivity|].
      rewrite Ht. autorewrite with world in *. rewrite <- !app_assoc.
      split; [reflexivity|]. split; [exact Hd|].
      split; [|split; [|split]].
      * change (renames (?x :: evs)) with (renames [x] ++ renames evs).
        now rewrite Hn.
      * change (successes (?x :: evs)) with (successes [x] ++ successes evs).
        now rewrite Hf.
      * intros p Hin. apply Hk. autorewrite with world. simpl. set_solver.
      * destruct Hr as [(Hx & He)|(Hx & He)]; subst r; [left | now right].
        split; [reflexivity|].
        change (http_errors (?x :: evs)) with (http_errors [x] ++ http_errors evs).
        now rewrite He.
Qed.

Lemma import_run (request : Request) (files : gset string)
    (r : Flow unit) (w' : World) :
  let T := import_target a in
  importHandler env a request (initial files) = (r, w') ->
  unpublished (trace w') \/
  exists s1 s2 pre evs tail,
    trace w' =
      pre ++ [Call (OpRename (Join U (s1 +:+ ".jpg")) (Join T (s2 +:+ ".jpg"))) None;
              Call (OpRename (Join U (s1 +:+ ".mp4")) (Join T (s2 +:+ ".mp4"))) None]
          ++ evs ++ tail /\
    renames pre = [] /\ Forall (in_dir U) (written pre) /\
    http_errors pre = [] /\ successes pre = [] /\
    renames evs = [] /\ successes evs = [] /\
    ((http_errors evs = [] /\
      exists cleanup,
        tail = Fprintf "Video successfully imported!" :: cleanup /\
        forallb is_cleanup cleanup = true)
     \/ (r = Returned /\
         (exists msg, derivative_error msg /\
            http_errors evs = [(msg, StatusInternalServerError)]) /\
         forallb is_cleanup tail = true)) /\
    ((forall n m, Join U n <> Join T m) ->
     Join T (s2 +:+ ".jpg") ∈ fs w' /\ Join T (s2 +:+ ".mp4") ∈ fs w').
Proof.
  intros T Hrun.
  assert (Ht0 : trace (initial files) = []) by reflexivity.
  assert (Hd0 : defers (initial files) = []) by reflexivity.
  revert Ht0 Hd0 Hrun. generalize (initial files) as w0. intros w0 Ht0 Hd0 Hrun.
  unfold importHandler, handle, importHandler_body in Hrun.
  destruct (String.eqb (Method request) "GET").
  { simpl in Hrun. injection Hrun as <- <-. unpub0. }
  destruct (String.eqb (Method request) "POST").
  2:{ simpl in Hrun. injection Hrun as <- <-. unpub0. }
  unfold import_post in Hrun. unfold Download in Hrun.
  run Hrun.
  destruct (String.eqb (FormValue request "url") "").
  { simpl in Hrun. injection Hrun as <- <-. unpub0. }
  unfold T, import_target.
  destruct (sorted_keys a) as [|collection keys].
  { simpl in Hrun. injection Hrun as <- <-. unpub0. }
  unfold bind at 1 in Hrun. unfold call at 1 in Hrun. simpl in Hrun. fork Hrun.
  { injection Hrun as <- <-. unpub0. }
  unfold bind at 1 in Hrun. unfold call at 1 in Hrun. simpl in Hrun. fork Hrun.
  { injection Hrun as <- <-. unpub0. }
  unfold bind at 1 in Hrun. unfold TempFile at 1 in Hrun.
  unfold bind at 1 in Hrun. unfold random at 1 in Hrun.
  unfold bind at 1 in Hrun. unfold call at 1 in Hrun. simpl in Hrun. fork Hrun.
  { injection Hrun as <- <-. unpub0. }
  set (uf := Join _ (temp_name "tube-import-*.mp4" _)) in *.
  run Hrun.
  unfold bind at 1 in Hrun. unfold call at 1 in Hrun. simpl in Hrun. fork Hrun.
  { injection Hrun as <- <-. unpub0. }
  destruct (_ =? -1).
  { simpl in Hrun. injection Hrun as <- <-. unpub0. }
  destruct (_ <? _).
  { simpl in Hrun. injection Hrun as <- <-. unpub0. }
  unfold bind at 1 in Hrun. unfold call at 1 in Hrun. simpl in Hrun. fork Hrun.
  { injection Hrun as <- <-. unpub0. }
  unfold bind at 1 in Hrun. unfold TempFile at 1 in Hrun.
  unfold bind at 1 in Hrun. unfold random at 1 in Hrun.
  unfold bind at 1 in Hrun. unfold call at 1 in Hrun. simpl in Hrun.
  change (temp_name "tube-transcode-*.mp4" ?x)
    with ("tube-transcode-" +:+ x +:+ ".mp4") in *.
  fork Hrun.
  { injection Hrun as <- <-. unpub0. }
  destruct (Paths (AppLibrary a) !! collection) as [p|].
  2:{ simpl in Hrun. injection Hrun as <- <-. unpub0. }
  unfold bind at 1 in Hrun. unfold random at 1 in Hrun. simpl in Hrun.
  rewrite <- !(append_assoc "tube-transcode-" _ ".mp4") in Hrun.
  rewrite !Join_append, !TrimSuffix_Ext_mp4, <- !Join_append in Hrun.
  unfold bind at 1 in Hrun. unfold call at 1 in Hrun. simpl in Hrun. fork Hrun.
  { injection Hrun as <- <-. unpub0. }
  unfold bind at 1 in Hrun. unfold RunCmd at 1, call at 1 in Hrun. simpl in Hrun.
  fork Hrun.
  { injection Hrun as <- <-. unpub0. }
  unfold bind at 1 in Hrun. unfold call at 1 in Hrun. simpl in Hrun. fork Hrun.
  { injection Hrun as <- <-. unpub0. }
  unfold bind at 1 in Hrun. unfold call at 1 in Hrun. simpl in Hrun. fork Hrun.
  { injection Hrun as <- <-. unpub0. }
  right.
  match type of Hrun with context [bind (import_resize _ _ _ _ _) _ ?w] =>
    set (w3 := w) in Hrun end.
  unfold bind at 1 in Hrun.
  destruct (import_resize_spec (Sizes (Transcoder (AppConfig a)))
              (Join (Path p) (env_rand env (S (S (draws w0))) +:+ ".mp4"))
              (env_video_info env (FormValue request "url")) w3)
    as (rr & w4 & evr & Er & Htr & Hdr & Hnr & Hfr & Hkr & Hrr).
  rewrite Er in Hrun.
  set (s1 := "tube-transcode-" +:+ env_rand env (S (draws w0))) in *.
  set (s2 := env_rand env (S (S (draws w0)))) in *.
  assert (Hpre : exists pre,
            trace w3 = pre ++
              [Call (OpRename (Join U (s1 +:+ ".jpg")) (Join (Path p) (s2 +:+ ".jpg"))) None;
               Call (OpRename (Join U (s1 +:+ ".mp4")) (Join (Path p) (s2 +:+ ".mp4"))) None] /\
            renames pre = [] /\ Forall (in_dir U) (written pre) /\
            http_errors pre = [] /\ successes pre = []).
  { eexists [_; _; _; _; _; _; _; _; _].
    split; [|split; [|split; [|split]]].
    - unfold w3. autorewrite with world. rewrite Ht0. reflexivity.
    - reflexivity.
    - simpl. repeat constructor; apply in_dir_Join.
    - reflexivity.
    - reflexivity. }
  assert (Hd3 : defers w3 = [DeferRemove uf]).
  { unfold w3. autorewrite with world. rewrite Hd0. reflexivity. }
  assert (Hfs3 : (forall n m, Join U n <> Join (Path p) m) ->
                 Join (Path p) (s2 +:+ ".jpg") ∈ fs w3 /\
                 Join (Path p) (s2 +:+ ".mp4") ∈ fs w3).
  { intros Hpriv. unfold w3. autorewrite with world. simpl.
    pose proof (Hpriv (s1 +:+ ".mp4") (s2 +:+ ".jpg")) as Hne.
    clear - Hne. set_solver. }
  clearbody w3. destruct Hpre as (pre & Ht3 & Hp1 & Hp2 & Hp3 & Hp4).
  assert (Hfs' : forall wf, fs wf = fs w4 ->
            (forall n m, Join U n <> Join (Path p) m) ->
            Join (Path p) (s2 +:+ ".jpg") ∈ fs (run_defers env (defers w3) wf) /\
            Join (Path p) (s2 +:+ ".mp4") ∈ fs (run_defers env (defers w3) wf)).
  { intros wf Hwf Hpriv. destruct (Hfs3 Hpriv) as [H1 H2]. rewrite Hd3.
    split; apply run_defers_keeps.
    - intros q [Hq'|[]]. injection Hq' as <-. apply not_eq_sym, Hpriv.
    - rewrite Hwf. now apply Hkr.
    - intros q [Hq'|[]]. injection Hq' as <-. apply not_eq_sym, Hpriv.
    - rewrite Hwf. now apply Hkr. }
  destruct Hrr as [(-> & He)|(-> & Hmsg)]; simpl in Hrun;
    injection Hrun as <- <-.
  - match goal with |- context [trace (run_defers env ?ds ?w)] =>
      destruct (run_defers_trace env ds w) as (cl & Hcl & Hc) end.
    exists s1, s2, pre, evr, (Fprintf "Video successfully imported!" :: cl).
    split; [|repeat split].
    + rewrite Hcl. autorewrite with world. rewrite Htr, Ht3.
      rewrite <- !app_assoc. reflexivity.
    + exact Hp1.
    + exact Hp2.
    + exact Hp3.
    + exact Hp4.
    + exact Hnr.
    + exact Hfr.
    + left. split; [exact He|]. now exists cl.
    + autorewrite with world. rewrite Hdr. apply Hfs'; [reflexivity | assumption].
    + autorewrite with world. rewrite Hdr. apply Hfs'; [reflexivity | assumption].
  - match goal with |- context [trace (run_defers env ?ds ?w)] =>
      destruct (run_defers_trace env ds w) as (cl & Hcl & Hc) end.
    exists s1, s2, pre, evr, cl.
    split; [|repeat split].
    + rewrite Hcl. autorewrite with world. rewrite Htr, Ht3.
      rewrite <- !app_assoc. reflexivity.
    + exact Hp1.
    + exact Hp2.
    + exact Hp3.
    + exact Hp4.
    + exact Hnr.
    + exact Hfr.
    + right. split; [reflexivity|]. split; [exact Hmsg | exact Hc].
    + rewrite Hdr. apply Hfs'; [reflexivity | assumption].
    + rewrite Hdr. apply Hfs'; [reflexivity | assumption].
Qed.
End ImportRuns.

(** ** Publication *)

Lemma success_in_successes (t : list Event) (body : string) :
  In (Fprintf body) t -> In body (successes t).
Proof.
  induction t as [|e t IH]; intros H; [destruct H|].
  change (e :: t) with ([e] ++ t). rewrite successes_app.
  apply in_or_app. destruct H as [->|H]; [left; cbv; now left | right; now apply IH].
Qed.

Section Publication.
Context (env : Env) (a : App) (fuel : nat).
Let U := UploadPath (Server (AppConfig a)).

(** Both handlers, in one statement. *)
Lemma ingest_run (ep : EntryPoint) (request : Request) (files : gset string)
    (r : Flow unit) (w' : World) :
  let T := target ep a request in
  ingest ep env a fuel request (initial files) = (r, w') ->
  unpublished (trace w') \/
  exists s1 s2 pre evs tail,
    trace w' =
      pre ++ [Call (OpRename (Join U (s1 +:+ ".jpg")) (Join T (s2 +:+ ".jpg"))) None;
              Call (OpRename (Join U (s1 +:+ ".mp4")) (Join T (s2 +:+ ".mp4"))) None]
          ++ evs ++ tail /\
    renames pre = [] /\ Forall (in_dir U) (written pre) /\
    http_errors pre = [] /\ successes pre = [] /\
    successes evs = [] /\
    ((http_errors evs = [] /\
      renames evs = derivative_renames ep a U T s2 /\
      exists cleanup,
        tail = Fprintf (success_message ep) :: cleanup /\
        forallb is_cleanup cleanup = true)
     \/ (r = Returned /\
         (exists msg, derivative_error msg /\
            http_errors evs = [(msg, StatusInternalServerError)]) /\
         forallb is_cleanup tail = true)) /\
    ((forall n m, Join U n <> Join T m) ->
     Join T (s2 +:+ ".jpg") ∈ fs w' /\ Join T (s2 +:+ ".mp4") ∈ fs w').
Proof.
  intros T Hrun. destruct ep; simpl in Hrun.
  - destruct (upload_run env a fuel request files r w' Hrun)
      as [H|(stem & pre & evs & tail & Ht & H1 & H2 & H3 & H4 & H5 & H6 & H7 & H8)];
      [now left|right].
    exists stem, stem, pre, evs, tail.
    do 6 (split; [assumption|]). split; [|exact H8].
    destruct H7 as [(E1 & E2 & E3)|E]; [left|right]; tauto.
  - destruct (import_run env a request files r w' Hrun)
      as [H|(s1 & s2 & pre & evs & tail & Ht & H1 & H2 & H3 & H4 & H5 & H6 & H7 & H8)];
      [now left|right].
    exists s1, s2, pre, evs, tail.
    do 6 (split; [assumption|]). split; [|exact H8].
    destruct H7 as [(E1 & E3)|E]; [left|right]; tauto.
Qed.

(** X30.  In a run of either entry point that ends with the success
    message, the log is [pre], then the rename of the thumbnail from the
    scratch directory into the collection, then the rename of the master,
    then [post]: the two files share a stem in the collection (and one in
    the scratch directory); before them nothing was renamed and every file
    that a step created or wrote lies in the scratch directory, so
    thumbnail and master reach the collection by these two renames only;
    after them the only renames are those of the derivatives, one per
    profile in the upload handler and none in the import handler. *)
Theorem publication_is_two_renames (ep : EntryPoint) (request : Request)
    (files : gset string) (r : Flow unit) (w' : World) :
  let T := target ep a request in
  ingest ep env a fuel request (initial files) = (r, w') ->
  In (Fprintf (success_message ep)) (trace w') ->
  exists s1 s2 pre post,
    trace w' =
      pre ++ [Call (OpRename (Join U (s1 +:+ ".jpg")) (Join T (s2 +:+ ".jpg"))) None;
              Call (OpRename (Join U (s1 +:+ ".mp4")) (Join T (s2 +:+ ".mp4"))) None]
          ++ post /\
    renames pre = [] /\
    Forall (in_dir U) (written pre) /\
    renames post = derivative_renames ep a U T s2.
Proof.
  intros T Hrun Hok. apply success_in_successes in Hok.
  destruct (ingest_run ep request files r w' Hrun)
    as [[_ Hs]|(s1 & s2 & pre & evs & tail & Ht & H1 & H2 & H3 & H4 & H6 & H7 & _)].
  { rewrite Hs in Hok. destruct Hok. }
  destruct H7 as [(E1 & E2 & cl & -> & Hc)|(_ & _ & Hc)].
  - exists s1, s2, pre, (evs ++ Fprintf (success_message ep) :: cl).
    repeat split; try assumption.
    rewrite renames_app. change (renames (?x :: cl)) with (renames [x] ++ renames cl).
    rewrite (cleanup_no_rename _ Hc), E2. simpl. now rewrite app_nil_r.
  - exfalso. rewrite Ht in Hok. autorewrite with world in Hok.
    rewrite H4, H6, (cleanup_no_success _ Hc) in Hok. destruct Hok.
Qed.

End Publication.

(** X30, on an upload with one downscale profile. *)
Lemma publication_is_two_renames_witness :
  exists s1 s2 pre post,
    trace (ingest ByUpload env_ok (app hd) 5 (upload "videos" "cat.mov" 10)
             (initial ∅)).2 =
      pre ++ [Call (OpRename (Join "uploads" (s1 +:+ ".jpg"))
                             (Join "videos" (s2 +:+ ".jpg"))) None;
              Call (OpRename (Join "uploads" (s1 +:+ ".mp4"))
                             (Join "videos" (s2 +:+ ".mp4"))) None]
          ++ post /\
    renames pre = [] /\
    Forall (in_dir "uploads") (written pre) /\
    renames post = derivative_renames ByUpload (app hd) "uploads" "videos" s2.
Proof.
  apply (publication_is_two_renames env_ok (app hd) 5 ByUpload
           (upload "videos" "cat.mov" 10) ∅
           (ingest ByUpload env_ok (app hd) 5 (upload "videos" "cat.mov" 10)
              (initial ∅)).1).
  - vm_compute. reflexivity.
  - vm_compute. repeat (try (left; reflexivity); right).
Defined.


(** ** Runs that depart from the specification *)

(** C1.  A successful import with one downscale profile publishes
    thumbnail and master by two renames that share the stem "r2", the
    thumbnail first, and then lets the encoder write the derivative in the
    collection itself: "videos/r2#720p.mp4" is created there by a step that
    is not a rename, so that the collection holds it while it is being
    written. *)
Lemma import_writes_derivative_in_collection :
  let w' := (importHandler env_ok (app hd) (import "http://x.example/1")
               (initial ∅)).2 in
  successes (trace w') = ["Video successfully imported!"] /\
  renames (trace w') =
    [("uploads/tube-transcode-r1.jpg", "videos/r2.jpg");
     ("uploads/tube-transcode-r1.mp4", "videos/r2.mp4")] /\
  written_in "videos" (trace w') = ["videos/r2#720p.mp4"] /\
  files_of w' = ["videos/r2#720p.mp4"; "videos/r2.jpg"; "videos/r2.mp4"].
Proof. vm_compute. repeat split; reflexivity. Qed.

(** The upload handler writes nothing in the collection: the three files
    reach it by renames. *)
Example upload_writes_nothing_in_collection :
  let w' := (uploadHandler env_ok (app hd) 5 (upload "videos" "cat.mov" 10)
               (initial ∅)).2 in
  successes (trace w') = ["Video successfully uploaded!"] /\
  renames (trace w') =
    [("uploads/cat.jpg", "videos/cat.jpg");
     ("uploads/cat.mp4", "videos/cat.mp4");
     ("uploads/cat#720p.mp4", "videos/cat#720p.mp4")] /\
  written_in "videos" (trace w') = [] /\
  files_of w' = ["videos/cat#720p.mp4"; "videos/cat.jpg"; "videos/cat.mp4"].
Proof. vm_compute. repeat split; reflexivity. Qed.

(** C5.  An import whose encoder is killed while it scales the one
    derivative, after thumbnail and master have been published: the error is
    reported and master and thumbnail stay, but the derivative is not
    missing: the unfinished "videos/r2#720p.mp4" stays in the collection,
    where the encoder was writing it, and no step removes it. *)
Lemma import_failure_leaves_unfinished_derivative :
  let run := importHandler resize_aborts (app hd) (import "http://x.example/1")
               (initial ∅) in
  run.1 = Returned /\
  renames (trace run.2) =
    [("uploads/tube-transcode-r1.jpg", "videos/r2.jpg");
     ("uploads/tube-transcode-r1.mp4", "videos/r2.mp4")] /\
  http_errors (trace run.2) =
    [("error transcoding video: signal: killed", StatusInternalServerError)] /\
  successes (trace run.2) = [] /\
  written_in "videos" (trace run.2) = ["videos/r2#720p.mp4"] /\
  removals (trace run.2) = ["uploads/tube-import-r0.mp4"] /\
  files_of run.2 = ["videos/r2#720p.mp4"; "videos/r2.jpg"; "videos/r2.mp4"].
Proof. vm_compute. repeat split; reflexivity. Qed.

(** In the upload handler the unfinished derivative stays in the scratch
    directory and the collection holds master and thumbnail only. *)
Example upload_failure_leaves_derivative_in_scratch :
  let run := uploadHandler resize_aborts (app hd) 5
               (upload "videos" "cat.mov" 10) (initial ∅) in
  run.1 = Returned /\
  http_errors (trace run.2) =
    [("error transcoding video: signal: killed", StatusInternalServerError)] /\
  written_in "videos" (trace run.2) = [] /\
  files_of run.2 = ["uploads/cat#720p.mp4"; "videos/cat.jpg"; "videos/cat.mp4"].
Proof. vm_compute. repeat split; reflexivity. Qed.

(** When the scratch directory is the directory of the collection, the
    transcoded file is the master, the two renames change nothing, and the
    removal that the handler deferred for the transcoded file deletes the
    master when the handler is left: after the failed derivative the
    collection holds the thumbnail only. *)
Example upload_into_shared_directory_loses_master :
  let run := uploadHandler resize_fails (app_shared hd) 5
               (upload "videos" "cat.mov" 10) (initial ∅) in
  run.1 = Returned /\
  renames (trace run.2) =
    [("videos/cat.jpg", "videos/cat.jpg"); ("videos/cat.mp4", "videos/cat.mp4")] /\
  http_errors (trace run.2) =
    [("error transcoding video: exit status 1", StatusInternalServerError)] /\
  removals (trace run.2) = ["videos/cat.mp4"; "videos/tube-upload-r0.mov"] /\
  files_of run.2 = ["videos/cat.jpg"].
Proof. vm_compute. repeat split; reflexivity. Qed.

(** C2.  The upload handler never compares the payload with
    [MaxUploadSize]: an upload of 5000 bytes to a server whose limit is 1000
    is staged, transcoded twice and published, and the client is told that
    it succeeded. *)
Lemma upload_over_limit_is_published :
  let request := upload "videos" "cat.mov" 5000 in
  let w' := (uploadHandler env_ok (app []) 5 request (initial ∅)).2 in
  (Size <$> MultipartFile request !! "video_file") = Some 5000 /\
  MaxUploadSize (Server (AppConfig (app []))) = 1000 /\
  http_errors (trace w') = [] /\
  successes (trace w') = ["Video successfully uploaded!"] /\
  length (commands (trace w')) = 2%nat /\
  renames (trace w') =
    [("uploads/cat.jpg", "videos/cat.jpg"); ("uploads/cat.mp4", "videos/cat.mp4")] /\
  files_of w' = ["videos/cat.jpg"; "videos/cat.mp4"].
Proof. vm_compute. repeat split; reflexivity. Qed.

(** The import handler does compare: a remote file announced with 5000 bytes
    is rejected before it is downloaded. *)
Example import_over_limit_is_rejected :
  let w' := (importHandler announces_5000 (app []) (import "http://x.example/1")
               (initial ∅)).2 in
  http_errors (trace w') =
    [("imported video would exceed maximum upload size of 1000 B",
      StatusInternalServerError)] /\
  written (trace w') = ["uploads/tube-import-r0.mp4"] /\
  commands (trace w') = [] /\
  renames (trace w') = [] /\
  files_of w' = [].
Proof. vm_compute. repeat split; reflexivity. Qed.

(** C3.  With filename preservation switched off, for the server and for the
    collection, the basename of an upload is still the stem of the name the
    client claims: [newVideoFileName] draws no random token, and the master
    is published as "cat.mp4". *)
Lemma upload_name_ignores_preservation :
  let a := app [] in
  let named := newVideoFileName env_ok 5 "cat.mov" ["videos"; "uploads"] (initial ∅) in
  let w' := (uploadHandler env_ok a 5 (upload "videos" "cat.mov" 10) (initial ∅)).2 in
  preserveUploadFilenameIsEnabled a "videos" (initial ∅) = (Next false, initial ∅) /\
  named.1 = Next ("cat.mp4", None) /\
  draws named.2 = 0%nat /\
  renames (trace w') =
    [("uploads/cat.jpg", "videos/cat.jpg"); ("uploads/cat.mp4", "videos/cat.mp4")].
Proof. vm_compute. repeat split; reflexivity. Qed.

(** C4.  In the import handler the derivative of the one profile is encoded
    from the published master ("-i videos/r2.mp4"), not from the staged
    source "uploads/tube-import-r0.mp4", and the encoder writes it into the
    collection itself: no rename follows the two of the publication. *)
Lemma import_derivative_bypasses_scratch :
  let w' := (importHandler env_ok (app hd) (import "http://x.example/1")
               (initial ∅)).2 in
  successes (trace w') = ["Video successfully imported!"] /\
  renames (trace w') =
    [("uploads/tube-transcode-r1.jpg", "videos/r2.jpg");
     ("uploads/tube-transcode-r1.mp4", "videos/r2.mp4")] /\
  commands (trace w') =
    [["-y"; "-i"; "uploads/tube-import-r0.mp4"; "-vcodec"; "h264";
      "-acodec"; "aac"; "-strict"; "-2"; "-loglevel"; "quiet";
      "-metadata"; "title=Test"; "-metadata"; "comment=Demo";
      "uploads/tube-transcode-r1.mp4"];
     ["-y"; "-i"; "videos/r2.mp4"; "-s"; "hd720"; "-c:v"; "libx264";
      "-c:a"; "aac"; "-crf"; "18"; "-strict"; "-2"; "-loglevel"; "quiet";
      "-metadata"; "title=Test"; "-metadata"; "comment=Demo";
      "videos/r2#720p.mp4"]].
Proof. vm_compute. repeat split; reflexivity. Qed.

(** The upload handler does what the import handler misses: the derivative is
    encoded from the staged source into the scratch directory and renamed. *)
Example upload_derivative_goes_through_scratch :
  let w' := (uploadHandler env_ok (app hd) 5 (upload "videos" "cat.mov" 10)
               (initial ∅)).2 in
  last (commands (trace w')) =
    Some ["-y"; "-s"; "hd720"; "-c:v"; "libx264"; "-c:a"; "aac"; "-crf"; "18";
          "-strict"; "-2"; "-loglevel"; "verbose";
          "-metadata"; "title=Test"; "-metadata"; "comment=Demo";
          "-i"; "uploads/tube-upload-r0.mov"; "uploads/cat#720p.mp4"] /\
  last (renames (trace w')) = Some ("uploads/cat#720p.mp4", "videos/cat#720p.mp4").
Proof. vm_compute. repeat split; reflexivity. Qed.

(** C6.  When the encoder fails during an import, the handler removes the
    staged source only: the file reserved for the transcoded video and the
    downloaded thumbnail stay in the scratch directory. *)
Lemma import_failure_leaves_scratch_files :
  let w' := (importHandler transcoder_fails (app []) (import "http://x.example/1")
               (initial ∅)).2 in
  http_errors (trace w') =
    [("error transcoding video: exit status 1", StatusInternalServerError)] /\
  written (trace w') =
    ["uploads/tube-import-r0.mp4"; "uploads/tube-import-r0.mp4";
     "uploads/tube-transcode-r1.mp4"; "uploads/tube-transcode-r1.jpg";
     "uploads/tube-transcode-r1.mp4"] /\
  removals (trace w') = ["uploads/tube-import-r0.mp4"] /\
  files_of w' = ["uploads/tube-transcode-r1.jpg"; "uploads/tube-transcode-r1.mp4"].
Proof. vm_compute. repeat split; reflexivity. Qed.

(** The upload handler leaks as well: when the payload cannot be written, it
    returns before the removal of the staged file is deferred. *)
Example upload_copy_failure_leaves_staged_file :
  let w' := (uploadHandler copy_fails (app []) 5 (upload "videos" "cat.mov" 10)
               (initial ∅)).2 in
  http_errors (trace w') =
    [("error writing file: unexpected EOF", StatusInternalServerError)] /\
  files_of w' = ["uploads/tube-upload-r0.mov"].
Proof. vm_compute. repeat split; reflexivity. Qed.

(** ** Playback on the fly *)

Section OnTheFly.
Context (env : Env) (a : App).

(** X28.  Whatever the request, the calls of the playback handler are among
    the two updates of the view store and the creation of the pipe for the
    encoder's standard error: it never starts the encoder, never writes a
    chunk to the response and never kills a process. *)
Lemma videoHandler_never_starts_encoder (r : Request) (files : gset string) :
  let prefix := default "" (Vars r !! "prefix") in
  let id := requested_id r in
  let done := ops (trace (videoHandler env a r (initial files)).2) in
  done = [] \/
  done = [OpMigrate prefix id; OpIncViews id] \/
  done = [OpMigrate prefix id; OpIncViews id; OpStderrPipe].
Proof.
  intros prefix id done.
  assert (Hd : done = ops (trace (videoHandler env a r (initial files)).2))
    by reflexivity.
  clearbody done. unfold id, prefix, requested_id. clear id prefix.
  unfold videoHandler, handle, videoHandler_body in Hd.
  destruct (Videos (AppLibrary a) !! _) as [m|]; [|left; exact Hd].
  right. unfold bind at 1 in Hd.
  destruct (is_quality _).
  - unfold bind at 1 in Hd. unfold FileExists, exists_file in Hd. simpl in Hd.
    match type of Hd with context [negb ?b] => destruct b end; simpl in Hd.
    + left. unfold bind, call, emit in Hd. simpl in Hd.
      autorewrite with world in Hd. exact Hd.
    + unfold bind at 1 in Hd. unfold call at 1 in Hd. simpl in Hd.
      unfold bind at 1 in Hd. unfold call at 1 in Hd. simpl in Hd.
      unfold bind at 1 in Hd. unfold emit at 1 in Hd.
      unfold bind at 1 in Hd. unfold emit at 1 in Hd.
      unfold bind at 1 in Hd. unfold call at 1 in Hd.
      match type of Hd with context [env_fails env ?n OpStderrPipe] =>
        destruct (env_fails env n OpStderrPipe) end.
      * right. unfold bind, http_Error, emit, return_ in Hd. simpl in Hd.
        autorewrite with world in Hd. exact Hd.
      * right. unfold bind at 1 in Hd. unfold io_Copy_Stdout_stderr in Hd.
        simpl in Hd. autorewrite with world in Hd. exact Hd.
  - left. simpl in Hd. unfold bind, call, emit in Hd. simpl in Hd.
    autorewrite with world in Hd. exact Hd.
Qed.
End OnTheFly.

(** C8.  A playback request for the 720p variant of a catalogued video whose
    derivative is absent sets the content type and then blocks in the copy
    of the encoder's standard error, which precedes [cmd.Start]: the encoder
    is not started, nothing is written to the response, nothing is killed.
    The input the encoder would be given is the absent derivative itself. *)
Lemma on_the_fly_blocks_before_start :
  let run := videoHandler env_ok (app []) (play "cat" "720p")
               (initial {["videos/cat.mp4"]}) in
  run.1 = Blocked /\
  ops (trace run.2) = [OpMigrate "" "cat"; OpIncViews "cat"; OpStderrPipe] /\
  In (SetHeader "Content-Type" "video/mp4") (trace run.2) /\
  commands (trace run.2) = [] /\
  proc_started run.2 = false /\
  files_of run.2 = ["videos/cat.mp4"].
Proof.
  vm_compute. repeat split; try reflexivity.
  right. right. right. left. reflexivity.
Qed.


(** * Further properties of the code *)

(** ** Stems and extensions *)

Section PathFacts.

Lemma append_nil_r (x : string) : x +:+ "" = x.
Proof. induction x as [|c x IH]; [reflexivity|]. now rewrite append_cons, IH. Qed.

(** The extension is a suffix of the path. *)
Lemma Ext_suffix (path : string) : exists stem, path = stem +:+ Ext path.
Proof.
  induction path as [|c rest [stem IH]]; [now exists ""|].
  simpl. destruct (Ext rest) as [|d e] eqn:E.
  - destruct (has_sep rest).
    + exists (String c rest). now rewrite append_nil_r.
    + destruct (Ascii.eqb c dot).
      * now exists "".
      * exists (String c rest). now rewrite append_nil_r.
  - exists (String c stem). rewrite append_cons. now f_equal.
Qed.

Lemma has_sep_append (x y : string) :
  has_sep (x +:+ y) = has_sep x || has_sep y.
Proof.
  induction x as [|c x IH]; [reflexivity|].
  rewrite append_cons. simpl. now rewrite IH, orb_assoc.
Qed.

Lemma has_sep_slice_to (n : nat) (s : string) :
  has_sep s = false -> has_sep (slice_to n s) = false.
Proof.
  unfold slice_to. revert n. induction s as [|c s IH]; intros [|n] H; try reflexivity.
  simpl in *. apply orb_false_iff in H as [-> H]. now apply IH.
Qed.

Lemma has_sep_last_element (s : string) : has_sep (last_element s) = false.
Proof.
  induction s as [|c s IH]; [reflexivity|].
  simpl. destruct (has_sep s) eqn:E; [exact IH|].
  destruct (is_sep c) eqn:Ec; [exact E|].
  simpl. now rewrite Ec, E.
Qed.

(** A file name: not empty and without separator. *)
Lemma strip_trailing_seps_name (n : string) :
  n <> "" -> has_sep n = false -> strip_trailing_seps n = n.
Proof.
  induction n as [|c n IH]; [congruence|].
  intros _ H. simpl in H. apply orb_false_iff in H as [Hc Hn].
  simpl. destruct n as [|d n].
  - simpl. now rewrite Hc.
  - rewrite IH; [reflexivity | discriminate | exact Hn].
Qed.

Lemma strip_trailing_seps_append (x n : string) :
  n <> "" -> strip_trailing_seps n = n ->
  strip_trailing_seps (x +:+ n) = x +:+ n.
Proof.
  intros Hn Hs. induction x as [|c x IH]; [exact Hs|].
  rewrite append_cons. simpl. rewrite IH.
  destruct (x +:+ n) eqn:E; [|reflexivity].
  destruct x; [now rewrite append_nil_l in E | discriminate].
Qed.

Lemma last_element_name (n : string) :
  has_sep n = false -> last_element n = n.
Proof.
  destruct n as [|c n]; [reflexivity|].
  simpl. intros H. apply orb_false_iff in H as [Hc Hn]. now rewrite Hn, Hc.
Qed.

Lemma last_element_Join (d n : string) :
  has_sep n = false -> last_element (Join d n) = n.
Proof.
  intros Hn. unfold Join. induction d as [|c d IH].
  - rewrite append_nil_l. change ("/" +:+ n) with (String slash n).
    simpl. now rewrite Hn.
  - rewrite append_cons. simpl. rewrite has_sep_append.
    change ("/" +:+ n) with (String slash n). simpl.
    rewrite orb_true_r. exact IH.
Qed.

Lemma Base_name (n : string) : n <> "" -> has_sep n = false -> Base n = n.
Proof.
  intros Hne Hn. unfold Base. destruct n as [|c n]; [congruence|].
  rewrite strip_trailing_seps_name, last_element_name by assumption.
  reflexivity.
Qed.

Lemma Base_Join (d n : string) :
  n <> "" -> has_sep n = false -> Base (Join d n) = n.
Proof.
  intros Hne Hn. unfold Base.
  destruct (Join d n) eqn:E.
  { unfold Join in E. destruct d; discriminate. }
  rewrite <- E. unfold Join at 1.
  rewrite strip_trailing_seps_append.
  - fold (Join d n). rewrite last_element_Join by exact Hn.
    destruct n; [congruence | reflexivity].
  - change ("/" +:+ n) with (String slash n). discriminate.
  - change ("/" +:+ n) with (String slash n). simpl.
    rewrite strip_trailing_seps_name by assumption.
    destruct n; [congruence | reflexivity].
Qed.

(** X1.  The two stem functions split what they are given in two: the stem
    followed by the extension is the path again, for [pathWithoutExtension],
    and the last element of the path, for [basenameWithoutExtension];
    nothing is lost, whatever the path. *)
Theorem stem_and_extension_split (path : string) :
  pathWithoutExtension path +:+ Ext path = path /\
  basenameWithoutExtension path +:+ Ext (Base path) = Base path.
Proof.
  assert (H : forall p, pathWithoutExtension p +:+ Ext p = p).
  { intros p. unfold pathWithoutExtension.
    destruct (Ext_suffix p) as [stem H].
    set (e := Ext p) in *. clearbody e. subst p.
    now rewrite slice_to_drop. }
  split; [apply H | apply (H (Base path))].
Qed.

End PathFacts.

Section StemFacts.

Lemma Base_cases (path : string) : Base path = "/" \/ has_sep (Base path) = false.
Proof.
  unfold Base. destruct path as [|c p]; [now right|].
  destruct (last_element _) eqn:E; [now left|].
  right. rewrite <- E. apply has_sep_last_element.
Qed.

(** X2.  [basenameWithoutExtension] removes the leading directories: its
    result has no separator, except for a path made of separators only,
    whose stem is the separator. *)
Theorem basenameWithoutExtension_no_directory (path : string) :
  basenameWithoutExtension path = "/" \/
  has_sep (basenameWithoutExtension path) = false.
Proof.
  unfold basenameWithoutExtension.
  destruct (Base_cases path) as [->|H]; [now left|].
  right. now apply has_sep_slice_to.
Qed.

(** X3.  The directory in front of a file name does not change the stem:
    joining a directory and taking the stem gives the stem of the name. *)
Theorem basenameWithoutExtension_Join (dir name : string) :
  name <> "" -> has_sep name = false ->
  basenameWithoutExtension (Join dir name) = basenameWithoutExtension name.
Proof.
  intros Hne Hn. unfold basenameWithoutExtension.
  now rewrite Base_Join, Base_name.
Qed.

(** X4.  A name that is an extension only, a dot followed by text without
    dot, has the empty stem. *)
Theorem basenameWithoutExtension_of_extension (x : string) :
  has_sep x = false -> Ext x = "" ->
  basenameWithoutExtension ("." +:+ x) = "".
Proof.
  intros Hs He. unfold basenameWithoutExtension.
  change ("." +:+ x) with (String dot x).
  rewrite Base_name; [|discriminate|simpl; now rewrite Hs].
  simpl Ext. rewrite He, Hs. simpl.
  rewrite Nat.sub_diag. reflexivity.
Qed.

End StemFacts.

(** ** Existence checks *)

Section ExistenceChecks.
Context (env : Env).

(** What one check returns, in any environment. *)
Lemma fileExistsAtLocation_cases (filename location : string) (w : World) :
  exists found err w',
    fileExistsAtLocation env filename location w = (Next (found, err), w') /\
    quiet_step w w' /\ draws w' = draws w /\
    (found = true -> err = None /\ Join location filename ∈ fs w) /\
    (never_fails env ->
     found = bool_decide (Join location filename ∈ fs w) /\ err = None).
Proof.
  unfold fileExistsAtLocation, SecureJoin, bind, call, exists_file, ret. simpl.
  destruct (env_fails env (calls w) (OpSecureJoin location filename)) as [e|] eqn:E1;
    simpl.
  - do 3 eexists. split; [reflexivity|]. split; [|split; [reflexivity|split]].
    + eexists [_]. simpl. repeat split.
    + discriminate.
    + intros H. now rewrite H in E1.
  - destruct (env_fails env (S (calls w)) (OpStat (Join location filename)))
      as [e|] eqn:E2; simpl.
    + do 3 eexists. split; [reflexivity|]. split; [|split; [reflexivity|split]].
      * eexists [_; _]. simpl. rewrite <- app_assoc. repeat split.
      * discriminate.
      * intros H. now rewrite H in E2.
    + do 3 eexists. split; [reflexivity|]. split; [|split; [reflexivity|split]].
      * eexists [_; _]. simpl. rewrite <- app_assoc. repeat split.
      * intros H%bool_decide_eq_true. now split.
      * now split.
Qed.

Lemma fileExistsAtAnyLocation_cases (filename : string) (locations : list string)
    (files : gset string) (w : World) :
  fs w = files ->
  exists found err w',
    fileExistsAtAnyLocation env filename locations w = (Next (found, err), w') /\
    quiet_step w w' /\ draws w' = draws w /\
    (found = true -> err = None /\ exists_in files filename locations = true) /\
    (err <> None -> found = false) /\
    (never_fails env ->
     found = exists_in files filename locations /\ err = None).
Proof.
  revert w. induction locations as [|loc rest IH]; intros w Hw; simpl.
  - do 3 eexists. split; [reflexivity|]. split; [apply quiet_step_refl|].
    split; [reflexivity|]. split; [discriminate|]. split; [congruence|]. now split.
  - destruct (fileExistsAtLocation_cases filename loc w)
      as (b & err & w1 & E & Hq & Hdr & Hs & Hc).
    unfold bind at 1. rewrite E. simpl.
    destruct err as [e|]; simpl.
    + do 3 eexists. split; [reflexivity|]. split; [exact Hq|]. split; [exact Hdr|].
      split; [discriminate|]. split; [reflexivity|].
      intros H. destruct (Hc H). discriminate.
    + destruct b; simpl.
      * do 3 eexists. split; [reflexivity|]. split; [exact Hq|]. split; [exact Hdr|].
        destruct (Hs eq_refl) as [_ Hin]. rewrite Hw in Hin.
        assert (Hex : exists_in files filename (loc :: rest) = true).
        { unfold exists_in. simpl. now rewrite bool_decide_eq_true_2. }
        split; [now split|]. split; [congruence|]. intros _. now split.
      * destruct Hq as (e1 & Ht1 & Hq1 & Hf1 & Hd1).
        destruct (IH w1) as (b' & err' & w2 & E' & Hq' & Hdr' & Hs' & He' & Hc');
          [congruence|].
        do 3 eexists. split; [exact E'|].
        split; [eapply quiet_step_trans; [exists e1; eauto | exact Hq']|].
        split; [congruence|].
        split; [|split; [exact He'|]].
        -- intros H. destruct (Hs' H) as [-> Hin]. split; [reflexivity|].
           unfold exists_in in *. simpl. rewrite Hin. apply orb_true_r.
        -- intros H. destruct (Hc' H) as [-> ->]. destruct (Hc H) as [Hb _].
           split; [|reflexivity]. unfold exists_in. simpl.
           rewrite Hw in Hb. now rewrite <- Hb.
Qed.

(** X5.  In any environment [fileExistsAtAnyLocation] returns a result, makes
    only queries, and is sound: it says "exists" only for a file that exists
    in one of the locations, then with a nil error; with an error it says
    "does not exist". *)
Theorem fileExistsAtAnyLocation_sound (filename : string)
    (locations : list string) (w : World) :
  exists found err w',
    fileExistsAtAnyLocation env filename locations w = (Next (found, err), w') /\
    quiet_step w w' /\
    (found = true -> err = None /\ exists_in (fs w) filename locations = true) /\
    (err <> None -> found = false).
Proof.
  destruct (fileExistsAtAnyLocation_cases filename locations (fs w) w eq_refl)
    as (found & err & w' & E & Hq & _ & Hs & He & _).
  now exists found, err, w'.
Qed.

(** X6.  When no call fails, [fileExistsAtAnyLocation] decides whether the
    file exists in one of the locations, and returns no error. *)
Theorem fileExistsAtAnyLocation_complete (filename : string)
    (locations : list string) (w : World) :
  never_fails env ->
  exists w',
    fileExistsAtAnyLocation env filename locations w =
      (Next (exists_in (fs w) filename locations, None), w') /\
    quiet_step w w'.
Proof.
  intros Hnf.
  destruct (fileExistsAtAnyLocation_cases filename locations (fs w) w eq_refl)
    as (found & err & w' & E & Hq & _ & _ & _ & Hc).
  destruct (Hc Hnf) as [-> ->]. now exists w'.
Qed.

End ExistenceChecks.

(** ** The name of the master *)

Section FreshNames.
Context (env : Env).
Hypothesis Hnf : never_fails env.

(** One round of the collision loop when no call fails. *)
Lemma newVideoFileName_for_step (n : nat) (candidateFilename : string)
    (locations : list string) (newFileName : string) (w : World) :
  exists w1,
    quiet_step w w1 /\ draws w1 = draws w /\
    newVideoFileName_for env (S n) candidateFilename locations newFileName w =
      if exists_in (fs w) newFileName locations
      then newVideoFileName_for env n candidateFilename locations
             (basenameWithoutExtension candidateFilename +:+ "_" +:+
              env_rand env (draws w) +:+ ".mp4") (drew w1)
      else (Next (inl newFileName), w1).
Proof.
  destruct (fileExistsAtAnyLocation_cases env newFileName locations (fs w) w eq_refl)
    as (found & err & w1 & E & Hq & Hdr & _ & _ & Hc).
  destruct (Hc Hnf) as [-> ->].
  exists w1. split; [exact Hq|]. split; [exact Hdr|].
  simpl. unfold bind at 1. rewrite E. simpl.
  destruct (exists_in (fs w) newFileName locations); simpl; [|reflexivity].
  unfold bind at 1. unfold random. simpl. now rewrite Hdr.
Qed.

Lemma newVideoFileName_for_fresh (n : nat) (candidateFilename : string)
    (locations : list string) (newFileName : string) (w : World)
    (r : string + string * option string) (w' : World) :
  newVideoFileName_for env n candidateFilename locations newFileName w
    = (Next r, w') ->
  fs w' = fs w /\
  exists name, r = inl name /\ exists_in (fs w) name locations = false.
Proof.
  revert newFileName w. induction n as [|n IH]; intros name w H; [discriminate|].
  destruct (newVideoFileName_for_step n candidateFilename locations name w)
    as (w1 & (evs & _ & _ & Hfs & _) & _ & E).
  rewrite E in H. destruct (exists_in (fs w) name locations) eqn:Ex.
  - apply IH in H. simpl in H. now rewrite Hfs in H.
  - injection H as <- <-. split; [exact Hfs|]. now exists name.
Qed.

Local Opaque newVideoFileName_for.

Lemma newVideoFileName_free (fuel : nat)
    (candidateFilename : string) (locations : list string) (w w' : World)
    (name : string) (err : option string) :
  newVideoFileName env fuel candidateFilename locations w
    = (Next (name, err), w') ->
  fs w' = fs w /\ exists_in (fs w') name locations = false.
Proof.
  unfold newVideoFileName. intros H.
  unfold bind at 1 in H.
  destruct (negb (candidateFilename =? "")%string); simpl in H.
  - unfold bind at 1 in H.
    destruct (newVideoFileName_for _ _ _ _ _ _) as [[r| | | |] w1] eqn:E;
      try discriminate.
    apply newVideoFileName_for_fresh in E as (Hfs & nm & -> & Hex).
    simpl in H. injection H as <- <- <-. rewrite Hfs. now split.
  - unfold bind at 1 in H. simpl in H.
    destruct (newVideoFileName_for _ _ _ _ _ _) as [[r| | | |] w1] eqn:E;
      try discriminate.
    apply newVideoFileName_for_fresh in E as (Hfs & nm & -> & Hex).
    simpl in *. injection H as <- <- <-. rewrite Hfs. now split.
Qed.

(** X7.  When no call fails, the name [newVideoFileName] returns is free: no
    file of that name exists in any of the locations, and the function has
    changed no file. *)
Theorem newVideoFileName_returns_free_name (fuel : nat)
    (candidateFilename : string) (locations : list string) (w w' : World)
    (name : string) (err : option string) :
  newVideoFileName env fuel candidateFilename locations w
    = (Next (name, err), w') ->
  fs w' = fs w /\ exists_in (fs w') name locations = false.
Proof.
  intros H. split.
  - eapply newVideoFileName_free, H.
  - eapply newVideoFileName_free, H.
Qed.

(** X8.  When no call fails and the stem of the claimed name is free, the
    master gets that stem: no random token is drawn. *)
Theorem newVideoFileName_keeps_free_name (fuel : nat)
    (candidateFilename : string) (locations : list string) (w : World) :
  let name := basenameWithoutExtension candidateFilename +:+ ".mp4" in
  candidateFilename <> "" ->
  exists_in (fs w) name locations = false ->
  exists w',
    newVideoFileName env (S fuel) candidateFilename locations w
      = (Next (name, None), w') /\
    draws w' = draws w /\ quiet_step w w'.
Proof.
  intros name Hc Hex. unfold newVideoFileName.
  apply String.eqb_neq in Hc. rewrite Hc. simpl.
  unfold bind at 1. simpl.
  destruct (newVideoFileName_for_step fuel candidateFilename locations name w)
    as (w1 & Hq & Hdr & E).
  unfold bind. fold name. rewrite E, Hex. simpl. now exists w1.
Qed.


(** X10.  Without a claimed name the master is named by a random token. *)
Theorem newVideoFileName_random_when_unnamed (fuel : nat)
    (locations : list string) (w : World) :
  let name := env_rand env (draws w) +:+ ".mp4" in
  exists_in (fs w) name locations = false ->
  exists w',
    newVideoFileName env (S fuel) "" locations w = (Next (name, None), w') /\
    draws w' = S (draws w) /\ quiet_step w w'.
Proof.
  intros name Hex. unfold newVideoFileName. simpl.
  unfold bind at 1. unfold bind at 2. simpl.
  destruct (newVideoFileName_for_step fuel "" locations name (drew w))
    as (w1 & Hq & Hdr & E).
  unfold bind. fold name. rewrite E.
  change (fs (drew w)) with (fs w). rewrite Hex. simpl.
  exists w1. split; [reflexivity|]. split; [exact Hdr|].
  eapply quiet_step_trans; [|exact Hq]. exists []. simpl. now rewrite app_nil_r.
Qed.

End FreshNames.

Section NameShape.
Context (env : Env).

(** X11.  In any environment the name [newVideoFileName] returns has the
    extension ".mp4", whatever the extension of the claimed name. *)
Theorem newVideoFileName_has_extension_mp4 (fuel : nat)
    (candidateFilename : string) (locations : list string) (w w' : World)
    (name : string) (err : option string) :
  newVideoFileName env fuel candidateFilename locations w
    = (Next (name, err), w') ->
  Ext name = ".mp4" /\ pathWithoutExtension name +:+ ".mp4" = name.
Proof.
  intros H.
  destruct (newVideoFileName_spec env fuel candidateFilename locations w)
    as (r & w1 & E & _ & Hr).
  rewrite H in E. injection E as <- <-.
  destruct Hr as [Hr|[stem Hr]]; [discriminate|].
  injection Hr as -> ->.
  now rewrite pathWithoutExtension_mp4, Ext_append_mp4.
Qed.

End NameShape.

(** ** Helpers that report *)

Section Reporting.
Context (env : Env) (a : App).

Ltac told :=
  do 3 eexists; split; [reflexivity|];
  autorewrite with world; simpl; rewrite ?app_nil_r;
  repeat split; intros; first [reflexivity | congruence].

Lemma getSelectedTargetLibraryDir_reports (request : Request) :
  reports_its_error (getSelectedTargetLibraryDir a request).
Proof.
  intros w. unfold getSelectedTargetLibraryDir.
  destruct (Paths (AppLibrary a) !! _); simpl; told.
Qed.

Lemma extractFormFile_reports (request : Request) :
  reports_its_error (extractFormFile request).
Proof.
  intros w. unfold extractFormFile.
  destruct (FormFile request _); simpl; told.
Qed.

Lemma copyFileFromFormToUploadDir_reports (name : string) :
  reports_its_error (copyFileFromFormToUploadDir env a name).
Proof.
  intros w.
  unfold copyFileFromFormToUploadDir, TempFile, bind, random, call, http_Error,
    emit, ret. simpl.
  step; [told|]. step; told.
Qed.

Lemma getTranscodedPath_reports (name : string) :
  reports_its_error (getTranscodedPath env a name).
Proof.
  intros w.
  unfold getTranscodedPath, SecureJoin, bind, call, http_Error, emit, ret. simpl.
  step; told.
Qed.

(** X12.  The four helpers of the upload handler that are given the response
    writer keep one contract: a helper returns an error exactly when it has
    reported that error to the client, with status 500, and it then returns
    the empty string; it reports nothing else. *)
Theorem upload_helpers_report_their_errors :
  (forall request, reports_its_error (getSelectedTargetLibraryDir a request)) /\
  (forall request, reports_its_error (extractFormFile request)) /\
  (forall name, reports_its_error (copyFileFromFormToUploadDir env a name)) /\
  (forall name, reports_its_error (getTranscodedPath env a name)).
Proof.
  split; [exact getSelectedTargetLibraryDir_reports|].
  split; [exact extractFormFile_reports|].
  split; [exact copyFileFromFormToUploadDir_reports | exact getTranscodedPath_reports].
Qed.

End Reporting.

(** ** The staged copy of an upload *)

Section Staging.

Lemma prefixAndSuffix_star (x e : string) :
  prefixAndSuffix e = None -> prefixAndSuffix (x +:+ "*" +:+ e) = Some (x, e).
Proof.
  intros He. induction x as [|c x IH].
  - rewrite append_nil_l. change ("*" +:+ e) with (String "*"%char e).
    simpl. now rewrite He.
  - rewrite append_cons. simpl. now rewrite IH.
Qed.

Lemma Ext_idempotent (path : string) : Ext (Ext path) = Ext path.
Proof.
  induction path as [|c rest IH]; [reflexivity|].
  simpl. destruct (Ext rest) as [|d e] eqn:E.
  - destruct (has_sep rest) eqn:Hs; [reflexivity|].
    destruct (Ascii.eqb c dot) eqn:Hc; [|reflexivity].
    simpl. now rewrite E, Hs, Hc.
  - exact IH.
Qed.

Lemma Ext_append (x e : string) : Ext e <> "" -> Ext (x +:+ e) = Ext e.
Proof.
  intros He. induction x as [|c x IH]; [reflexivity|].
  rewrite append_cons. simpl. rewrite IH.
  destruct (Ext e); [congruence | reflexivity].
Qed.

Context (env : Env) (a : App).

(** X13.  When the payload of an upload has been staged, the staged file is a
    file of the scratch directory named "tube-upload-", a random string and
    the extension of the claimed file name, provided that the extension has
    no "*"; the file exists, and it has the extension of the claimed name
    when there is one. *)
Theorem staged_upload_keeps_extension (name : string) (w w' : World)
    (staged : string) :
  prefixAndSuffix (Ext name) = None ->
  copyFileFromFormToUploadDir env a name w = (Next (staged, None), w') ->
  staged = Join (UploadPath (Server (AppConfig a)))
             ("tube-upload-" +:+ env_rand env (draws w) +:+ Ext name) /\
  staged ∈ fs w' /\
  (Ext name <> "" -> Ext staged = Ext name).
Proof.
  intros Hstar Hrun.
  unfold copyFileFromFormToUploadDir, TempFile in Hrun.
  change ("tube-upload-*" +:+ Ext name)
    with ("tube-upload-" +:+ "*" +:+ Ext name) in Hrun.
  unfold temp_name in Hrun. rewrite (prefixAndSuffix_star _ _ Hstar) in Hrun.
  unfold bind, random, call, http_Error, emit, ret in Hrun. simpl in Hrun.
  match type of Hrun with context [env_fails env ?n ?op] =>
    destruct (env_fails env n op) eqn:E1 end; [discriminate|].
  match type of Hrun with context [env_fails env ?n (OpCopy ?p)] =>
    destruct (env_fails env n (OpCopy p)) eqn:E2 end; [discriminate|].
  injection Hrun as <- <-. split; [reflexivity|]. split.
  - autorewrite with world. simpl. set_solver.
  - intros He. unfold Join. rewrite <- !append_assoc.
    rewrite Ext_append by (now rewrite Ext_idempotent).
    apply Ext_idempotent.
Qed.

End Staging.

(** ** One answer for each request *)

Section Answers.
Context (bounded : bool).

Lemma answers_app (t u : list Event) :
  answers (t ++ u) = (answers t + answers u)%nat.
Proof.
  unfold answers. rewrite http_errors_app, successes_app, !length_app. lia.
Qed.

Lemma queries_no_answer (t : list Event) :
  forallb is_query t = true -> answers t = 0%nat.
Proof.
  intros H. unfold answers.
  now rewrite (queries_no_http_error _ H), (queries_no_success _ H).
Qed.

Lemma ans_bind {A B} (c : M A) (k : A -> M B) (ok : A -> bool) (ok' : B -> bool) :
  ans bounded 0 c ok ->
  (forall x, ans bounded (if ok x then 0 else 1) (k x) ok') ->
  ans bounded 0 (bind c k) ok'.
Proof.
  intros Hc Hk w. unfold bind. specialize (Hc w).
  destruct (c w) as [[x| | | |] w1]; try exact Hc.
  specialize (Hk x w1).
  destruct (k x w1) as [[y| | | |] w2]; try exact Hk; destruct (ok x); lia.
Qed.

Lemma ans_ret {A} (x : A) (ok : A -> bool) :
  ans bounded (if ok x then 0 else 1) (ret x) ok.
Proof. intros w. simpl. lia. Qed.

Lemma ans_return {A} (ok : A -> bool) : ans bounded 1 (@return_ A) ok.
Proof. intros w. simpl. lia. Qed.

Lemma ans_emit (e : Event) :
  ans bounded 0 (emit e) (fun _ => Nat.eqb (answers [e]) 0).
Proof.
  intros w. simpl. autorewrite with world. rewrite answers_app.
  destruct e; unfold answers; simpl; lia.
Qed.

Lemma ans_quiet (e : Event) :
  answers [e] = 0%nat -> ans bounded 0 (emit e) (fun _ => true).
Proof. intros H. pose proof (ans_emit e) as He. now rewrite H in He. Qed.

Lemma ans_Fprintf (body : string) :
  ans bounded 0 (emit (Fprintf body)) (fun _ => false).
Proof. apply (ans_emit (Fprintf body)). Qed.

Lemma ans_http_Error (msg : string) (code : Z) :
  ans bounded 0 (http_Error msg code) (fun _ => false).
Proof. apply (ans_emit (HttpError msg code)). Qed.

Lemma ans_defer (d : Deferred) : ans bounded 0 (defer d) (fun _ => true).
Proof. intros w. simpl. autorewrite with world. lia. Qed.

Context (env : Env).

Lemma ans_call (op : Op) : ans bounded 0 (call env op) (fun _ => true).
Proof.
  intros w. simpl. autorewrite with world. rewrite answers_app.
  unfold answers. simpl. lia.
Qed.

Lemma ans_RunCmd (timeout : Z) (name : string) (args : list string) :
  ans bounded 0 (RunCmd env timeout name args) (fun _ => true).
Proof. apply ans_call. Qed.

Lemma ans_Download (url dst : string) :
  ans bounded 0 (Download env url dst) (fun _ => true).
Proof. apply ans_call. Qed.

Lemma ans_random : ans bounded 0 (random env) (fun _ => true).
Proof. intros w. simpl. autorewrite with world. lia. Qed.

(** A helper that keeps the contract has answered when it fails. *)
Lemma ans_reports (c : M (string * option string)) :
  reports_its_error c -> ans bounded 0 c (fun r => is_nil (snd r)).
Proof.
  intros H w. destruct (H w) as (x & err & w' & -> & He & Hs & _).
  unfold answers. rewrite He, Hs, length_app. destruct err; simpl; lia.
Qed.

Lemma answers_run_defers (ds : list Deferred) (w : World) :
  answers (trace (run_defers env ds w)) = answers (trace w).
Proof. unfold answers. now autorewrite with world. Qed.

(** What [ans] says of a handler that starts with an empty log. *)
Lemma ans_handle (body : M unit) (files : gset string) (r : Flow unit) (w' : World) :
  ans bounded 0 body (fun _ => false) ->
  handle env body (initial files) = (r, w') ->
  (r = OutOfFuel /\ bounded = true) \/
  ((r = Returned \/ r = Next tt) /\ answers (trace w') = 1%nat).
Proof.
  intros Ha Hrun. unfold handle in Hrun. specialize (Ha (initial files)).
  destruct (body (initial files)) as [[[]| | | |] w1]; try contradiction;
    injection Hrun as <- <-; [right|right|now left];
    (split; [auto|]); rewrite answers_run_defers;
    autorewrite with world; simpl in Ha; lia.
Qed.

End Answers.

(** A piece that is not bounded does not hit the bound. *)
Lemma ans_not_out_of_fuel {A} (n : nat) (c : M A) (ok : A -> bool)
    (w w' : World) :
  ans false n c ok -> c w = (OutOfFuel, w') -> False.
Proof. intros H E. specialize (H w). rewrite E in H. discriminate. Qed.

(** The rules applied along the text of a handler. *)

Ltac ans_more := fail.

Ltac ans_atom :=
  first
    [ apply ans_return
    | ans_more
    | apply ans_call | apply ans_RunCmd | apply ans_Download
    | apply ans_random | apply ans_defer
    | apply ans_http_Error | apply ans_Fprintf
    | apply ans_quiet; reflexivity
    | apply ans_reports;
      first [ apply getSelectedTargetLibraryDir_reports
            | apply extractFormFile_reports
            | apply copyFileFromFormToUploadDir_reports
            | apply getTranscodedPath_reports ]
    | match goal with |- ans ?b _ (ret ?x) ?ok => apply (ans_ret b x ok) end
    | match goal with |- ans ?b _ (ret ?x) _ => apply (ans_ret b x (fun _ => true)) end
    | match goal with H : _ |- _ => apply H end ].

Ltac ans_walk :=
  cbv beta iota zeta delta [is_nil];
  lazymatch goal with
  | |- ans _ _ (bind _ _) _ => eapply ans_bind; [ans_atom | intros ?; ans_walk]
  | |- ans _ _ (match ?x with Some _ => _ | None => _ end) _ => destruct x; ans_walk
  | |- ans _ _ (if ?b then _ else _) _ => destruct b; ans_walk
  | |- _ => ans_atom
  end.

Section StepsThatDoNotAnswer.
Context (bounded : bool) (env : Env).

Lemma ans_TempFile (dir pattern : string) :
  ans bounded 0 (TempFile env dir pattern) (fun _ => true).
Proof. unfold TempFile. ans_walk. Qed.

Lemma ans_createScaledVideo (i o : string) (t : Z) (title desc size : string) :
  ans bounded 0 (createScaledVideo env i o t title desc size) (fun _ => true).
Proof. unfold createScaledVideo. ans_walk. Qed.

Lemma ans_createVideo (i o : string) (t : Z) (title desc : string) :
  ans bounded 0 (createVideo env i o t title desc) (fun _ => true).
Proof. unfold createVideo. ans_walk. Qed.

Lemma ans_createThumbnail (i o : string) (t s : Z) :
  ans bounded 0 (createThumbnail env i o t s) (fun _ => true).
Proof. unfold createThumbnail. ans_walk. Qed.

Lemma ans_newVideoFileName (fuel : nat) (c : string) (l : list string) :
  ans true 0 (newVideoFileName env fuel c l) (fun r => is_nil (snd r)).
Proof.
  intros w.
  destruct (newVideoFileName_spec env fuel c l w)
    as (r & w' & -> & (evs & Ht & Hq & _) & Hr).
  destruct Hr as [->|[stem ->]]; [reflexivity|].
  rewrite Ht, answers_app, (queries_no_answer _ Hq). simpl. lia.
Qed.

End StepsThatDoNotAnswer.

Ltac ans_more ::=
  first [ apply ans_TempFile | apply ans_createScaledVideo | apply ans_createVideo
        | apply ans_createThumbnail | apply ans_newVideoFileName ].

Section CollisionLoopEnds.
Context (env : Env).

(** The collision loop ends within its bound when one of the candidates it
    would try within that bound is free, in any environment: a round goes on
    only after a check that found the candidate. *)
Lemma newVideoFileName_for_progress (n : nat) (candidateFilename : string)
    (locations : list string) (name : string) (w : World) :
  free_within env (fs w) candidateFilename locations n name (draws w) = true ->
  exists x w',
    newVideoFileName_for env n candidateFilename locations name w = (Next x, w').
Proof.
  revert name w. induction n as [|n IH]; intros name w H; [discriminate|].
  simpl in H.
  destruct (fileExistsAtAnyLocation_cases env name locations (fs w) w eq_refl)
    as (found & err & w1 & E & (evs & _ & _ & Hfs & _) & Hdr & Hs & _).
  simpl. unfold bind at 1. rewrite E. simpl.
  destruct found; simpl; [|eauto].
  destruct (Hs eq_refl) as [-> Hex]. rewrite Hex in H. simpl in H |- *.
  unfold bind at 1. unfold random. simpl.
  apply IH. unfold drew. simpl. now rewrite Hfs, Hdr.
Qed.

Lemma newVideoFileName_progress (fuel : nat) (candidateFilename : string)
    (locations : list string) (w : World) :
  name_free_within env (fs w) candidateFilename locations fuel (draws w) = true ->
  exists r w',
    newVideoFileName env fuel candidateFilename locations w = (Next r, w').
Proof.
  unfold name_free_within, newVideoFileName. intros H.
  destruct (negb (candidateFilename =? "")%string).
  - apply newVideoFileName_for_progress in H as (x & w' & E).
    unfold bind at 1. simpl. unfold bind at 1. rewrite E.
    destruct x as [name|res]; simpl; eauto.
  - unfold bind at 1. unfold bind at 1. unfold random. simpl.
    change (S (draws w)) with (draws (drew w)) in H.
    change (fs w) with (fs (drew w)) in H.
    apply newVideoFileName_for_progress in H as (x & w' & E).
    unfold bind at 1. unfold drew in E |- *. simpl in E |- *. rewrite E.
    destruct x as [name|res]; simpl; eauto.
Qed.

End CollisionLoopEnds.

Section UploadAnswers.
Context (env : Env) (a : App) (fuel : nat).

Lemma ans_upload_resize (bounded : bool) (sizes : list (string * string))
    (uploadedFile transcodedVideoPath newVideoPath title desc : string) :
  ans bounded 0 (upload_resize env a sizes uploadedFile transcodedVideoPath
                   newVideoPath title desc) (fun _ => true).
Proof.
  induction sizes as [|[size suffix] rest IH]; simpl.
  - apply (ans_ret bounded tt (fun _ => true)).
  - ans_walk.
Qed.

Lemma ans_upload_post (request : Request) :
  ans true 0 (upload_post env a fuel request) (fun _ => false).
Proof.
  pose proof (ans_upload_resize true) as Hr. unfold upload_post. ans_walk.
Qed.

(** The upload handler hits the bound of the collision loop only in the
    loop, and then none of the names within the bound was free. *)
Lemma upload_post_out_of_fuel (request : Request) (files : gset string)
    (w1 : World) :
  upload_post env a fuel request (initial files) = (OutOfFuel, w1) ->
  upload_name_free_within env a files request fuel = false.
Proof.
  intros Hrun. unfold upload_post in Hrun.
  unfold bind at 1 in Hrun. simpl in Hrun.
  unfold bind at 1 in Hrun. unfold getSelectedTargetLibraryDir in Hrun.
  destruct (Paths (AppLibrary a) !! _) as [p|]; [|discriminate].
  simpl in Hrun.
  unfold bind at 1 in Hrun. unfold extractFormFile in Hrun.
  unfold upload_name_free_within, claimed_name.
  destruct (FormFile request "video_file") as [fh|e]; [|discriminate].
  simpl in Hrun.
  unfold bind at 1 in Hrun. simpl in Hrun.
  destruct (name_free_within env files (Filename fh) _ fuel 0) eqn:F;
    [exfalso | reflexivity].
  match type of Hrun with
  | bind (newVideoFileName _ _ ?c ?l) ?k ?w0 = _ =>
      assert (Hk : forall x, ans false (if is_nil (snd x) then 0 else 1) (k x)
                               (fun _ => false));
      [ intros x; pose proof (ans_upload_resize false) as Hr; ans_walk |];
      destruct (newVideoFileName_progress env fuel c l w0) as (r & w' & E);
      [ exact F |];
      unfold bind at 1 in Hrun; rewrite E in Hrun;
      exact (ans_not_out_of_fuel _ (k r) _ w' w1 (Hk r) Hrun)
  end.
Qed.

(** X15.  Every request to the upload handler other than a GET is answered
    exactly once, as soon as the bound on the collision loop leaves room for
    a free name.  When the bound is not hit, the handler returns, it does
    not panic, and the client has then been sent either one error or the
    success message, never both and never two errors.  And the bound is not
    hit when one of the names the loop would try within the bound is free in
    the collection and in the scratch directory, whatever the calls to the
    environment return; nor for a request that is refused before a name is
    chosen. *)
Theorem upload_answers_exactly_once (request : Request) (files : gset string)
    (r : Flow unit) (w' : World) :
  Method request <> "GET" ->
  uploadHandler env a fuel request (initial files) = (r, w') ->
  (r = OutOfFuel \/ ((r = Returned \/ r = Next tt) /\ answers (trace w') = 1%nat))
  /\ (upload_name_free_within env a files request fuel = true ->
      (r = Returned \/ r = Next tt) /\ answers (trace w') = 1%nat).
Proof.
  intros Hm Hrun.
  assert (Ha : ans true 0 (uploadHandler_body env a fuel request) (fun _ => false)).
  { unfold uploadHandler_body.
    destruct (String.eqb_spec (Method request) "GET") as [|_]; [contradiction|].
    destruct (Method request =? "POST")%string;
      [apply ans_upload_post | apply ans_http_Error]. }
  destruct (ans_handle true env _ files r w' Ha Hrun) as [[-> _]|H];
    [|split; [right; exact H | intros _; exact H]].
  split; [now left|]. intros Hfree. exfalso.
  unfold uploadHandler, handle, uploadHandler_body in Hrun.
  destruct (String.eqb_spec (Method request) "GET") as [|_]; [contradiction|].
  destruct (Method request =? "POST")%string.
  - destruct (upload_post env a fuel request (initial files))
      as [[[]| | | |] w1] eqn:E; try discriminate.
    apply upload_post_out_of_fuel in E. congruence.
  - discriminate.
Qed.

End UploadAnswers.

(** ** The destination of the master *)

Section NoOverwrite.
Context (env : Env) (a : App) (fuel : nat).
Hypothesis Hnf : never_fails env.
Let U := UploadPath (Server (AppConfig a)).

Local Opaque Ext TrimSuffix Join.

Ltac run H := unfold bind at 1 in H; simpl in H.


End NoOverwrite.

(** ** Removal of the staged files *)

Section Staged.

Lemma staged_app (t u : list Event) : staged (t ++ u) = staged t ++ staged u.
Proof. apply omap_app. Qed.

Lemma removals_app (t u : list Event) : removals (t ++ u) = removals t ++ removals u.
Proof. apply omap_app. Qed.

Lemma queries_no_staged (t : list Event) :
  forallb is_query t = true -> staged t = [].
Proof.
  induction t as [|e t IH]; simpl; [reflexivity|].
  intros [He Ht]%andb_true_iff. unfold staged in *. simpl.
  rewrite (IH Ht). destruct e as [[] ?| | | | | | | | | | |]; simpl in *; congruence.
Qed.

Lemma queries_no_removal (t : list Event) :
  forallb is_query t = true -> removals t = [].
Proof.
  induction t as [|e t IH]; simpl; [reflexivity|].
  intros [He Ht]%andb_true_iff. unfold removals in *. simpl.
  rewrite (IH Ht). destruct e as [[] ?| | | | | | | | | | |]; simpl in *; congruence.
Qed.

Lemma cleanup_no_staged (t : list Event) :
  forallb is_cleanup t = true -> staged t = [].
Proof.
  induction t as [|e t IH]; simpl; [reflexivity|].
  intros [He Ht]%andb_true_iff. unfold staged in *. simpl.
  rewrite (IH Ht). destruct e as [[] ?| | | | | | | | | | |]; simpl in *; congruence.
Qed.

Context (env : Env).

Lemma staged_run_defers (ds : list Deferred) (w : World) :
  staged (trace (run_defers env ds w)) = staged (trace w).
Proof.
  destruct (run_defers_trace env ds w) as (evs & -> & Hc).
  now rewrite staged_app, (cleanup_no_staged _ Hc), app_nil_r.
Qed.

(** The deferred removals are asked for when the handler is left. *)
Lemma removals_run_defers (ds : list Deferred) (w : World) :
  removals (trace (run_defers env ds w)) =
  removals (trace w) ++ omap deferred_removal ds.
Proof.
  revert w. induction ds as [|d ds IH]; intros w; simpl.
  - now rewrite app_nil_r.
  - rewrite IH. destruct d; simpl.
    + autorewrite with world. rewrite removals_app. simpl. now rewrite app_nil_r.
    + unfold bind, call. simpl. autorewrite with world. rewrite removals_app.
      simpl. now rewrite <- app_assoc.
    + unfold bind, call. simpl. autorewrite with world. rewrite removals_app.
      simpl. now rewrite app_nil_r.
Qed.

Context (a : App).

Local Opaque Ext TrimSuffix Join.

Lemma upload_resize_stages_nothing (sizes : list (string * string))
    (uploadedFile transcodedVideoPath newVideoPath title desc : string)
    (w : World) :
  let run := upload_resize env a sizes uploadedFile transcodedVideoPath
               newVideoPath title desc w in
  (run.1 = Next tt \/ run.1 = Returned) /\
  staged (trace run.2) = staged (trace w) /\
  defers run.2 = defers w.
Proof.
  revert w. induction sizes as [|[size suffix] rest IH]; intros w; simpl.
  - auto.
  - unfold createScaledVideo, RunCmd, bind, call, http_Error, emit, return_, ret.
    simpl. step.
    + autorewrite with world. rewrite !staged_app. simpl.
      rewrite !app_nil_r. auto.
    + step.
      * autorewrite with world. rewrite !staged_app. simpl.
        rewrite !app_nil_r. auto.
      * match goal with |- context [upload_resize _ _ _ _ _ _ _ _ ?w1] =>
          destruct (IH w1) as (Hr & Hs & Hd) end.
        split; [exact Hr|]. rewrite Hs, Hd. autorewrite with world.
        rewrite !staged_app. simpl. rewrite !app_nil_r. auto.
Qed.

End Staged.

Section UploadCleanup.
Context (env : Env) (a : App) (fuel : nat).
Let U := UploadPath (Server (AppConfig a)).

Local Opaque Ext TrimSuffix Join.

Ltac run H := unfold bind at 1 in H; simpl in H.

Ltac fork H :=
  match type of H with
  | context [env_fails ?env ?n ?op] =>
      let e := fresh "e" in
      let E := fresh "E" in
      destruct (env_fails env n op) as [e|] eqn:E; simpl in H
  end.

Ltac fin :=
  intros ?;
  rewrite ?staged_run_defers, ?removals_run_defers;
  autorewrite with world;
  repeat match goal with
         | H : trace _ = _ |- _ => rewrite H
         | H : defers _ = _ |- _ => rewrite H
         | H : staged _ = _ |- _ => rewrite H
         end;
  autorewrite with world;
  rewrite ?staged_app, ?removals_app;
  repeat match goal with
         | H : staged _ = _ |- _ => rewrite H
         | H : removals _ = _ |- _ => rewrite H
         end;
  simpl; rewrite ?app_nil_r; simpl;
  rewrite ?in_app_iff; simpl; tauto.

(** X17.  Whatever happens after, a payload the upload handler has staged in
    full and a file it has created for the transcoder are asked to be
    removed when the handler is left. *)
Theorem upload_removes_what_it_staged (request : Request) (files : gset string)
    (r : Flow unit) (w' : World) :
  uploadHandler env a fuel request (initial files) = (r, w') ->
  forall p, In p (staged (trace w')) -> In p (removals (trace w')).
Proof.
  intros Hrun.
  unfold uploadHandler, handle, uploadHandler_body in Hrun.
  destruct (String.eqb (Method request) "GET").
  { simpl in Hrun. injection Hrun as <- <-. fin. }
  destruct (String.eqb (Method request) "POST").
  2:{ simpl in Hrun. injection Hrun as <- <-. fin. }
  unfold upload_post in Hrun.
  run Hrun. run Hrun. unfold getSelectedTargetLibraryDir in Hrun.
  destruct (Paths (AppLibrary a) !! _) as [p|].
  2:{ simpl in Hrun. injection Hrun as <- <-. fin. }
  simpl in Hrun.
  run Hrun. unfold extractFormFile in Hrun.
  destruct (FormFile request "video_file") as [fh|e0].
  2:{ simpl in Hrun. injection Hrun as <- <-. fin. }
  simpl in Hrun.
  run Hrun. run Hrun.
  match type of Hrun with context [newVideoFileName _ _ ?c ?l ?w] =>
    destruct (newVideoFileName_spec env fuel c l w)
      as (rn & w2 & En & (evs & Ht & Hq & Hfs & Hd) & Hrn) end.
  rewrite En in Hrun. autorewrite with world in Ht, Hfs, Hd.
  simpl in Ht, Hfs, Hd.
  change (?x :: evs) with ([x] ++ evs) in Ht.
  pose proof (queries_no_staged _ Hq) as Hq1.
  pose proof (queries_no_removal _ Hq) as Hq2.
  destruct Hrn as [->|[stem ->]].
  { injection Hrun as <- <-. fin. }
  simpl in Hrun.
  unfold bind at 1 in Hrun.
  unfold copyFileFromFormToUploadDir in Hrun.
  unfold bind at 1 in Hrun. unfold TempFile in Hrun.
  unfold bind at 1 in Hrun. unfold random at 1 in Hrun.
  unfold bind at 1 in Hrun. unfold call at 1 in Hrun. simpl in Hrun.
  fork Hrun.
  { injection Hrun as <- <-. fin. }
  unfold bind at 1 in Hrun. unfold call at 1 in Hrun. simpl in Hrun.
  fork Hrun.
  { injection Hrun as <- <-. fin. }
  set (tmp := Join _ (temp_name _ _)) in *.
  run Hrun.
  unfold bind at 1 in Hrun. unfold getTranscodedPath in Hrun.
  unfold bind at 1 in Hrun. unfold SecureJoin in Hrun.
  unfold bind at 1 in Hrun. unfold call at 1 in Hrun. simpl in Hrun.
  fork Hrun.
  { injection Hrun as <- <-. fin. }
  unfold bind at 1 in Hrun. unfold call at 1 in Hrun. simpl in Hrun.
  fork Hrun.
  { injection Hrun as <- <-. fin. }
  run Hrun. run Hrun.
  unfold bind at 1 in Hrun. unfold createVideo in Hrun.
  unfold bind at 1 in Hrun. unfold RunCmd at 1, call at 1 in Hrun. simpl in Hrun.
  fork Hrun.
  { injection Hrun as <- <-. fin. }
  unfold bind at 1 in Hrun. unfold createThumbnail in Hrun.
  unfold bind at 1 in Hrun. unfold RunCmd at 1, call at 1 in Hrun. simpl in Hrun.
  fork Hrun.
  { injection Hrun as <- <-. fin. }
  unfold bind at 1 in Hrun. unfold call at 1 in Hrun. simpl in Hrun.
  fork Hrun.
  { injection Hrun as <- <-. fin. }
  unfold bind at 1 in Hrun. unfold call at 1 in Hrun. simpl in Hrun.
  fork Hrun.
  { injection Hrun as <- <-. fin. }
  match type of Hrun with context [bind (upload_resize _ _ ?s ?u ?t ?n ?x ?y) _ ?w] =>
    destruct (upload_resize_stages_nothing env a s u t n x y w) as (Hr & Hs & Hdr);
    cbv zeta in Hr, Hs, Hdr;
    unfold bind at 1 in Hrun;
    destruct (upload_resize env a s u t n x y w) as [rr w4]
  end.
  simpl in Hr, Hs, Hdr.
  autorewrite with world in Hs. rewrite Ht in Hs. rewrite !staged_app in Hs.
  rewrite Hq1 in Hs. simpl in Hs. rewrite Hd in Hdr.
  destruct Hr as [->| ->]; simpl in Hrun; injection Hrun as <- <-;
    intros q; rewrite staged_run_defers, removals_run_defers;
    autorewrite with world; rewrite ?staged_app, Hs, Hdr; simpl;
    rewrite in_app_iff; simpl; tauto.
Qed.

End UploadCleanup.

(** ** The collection of an import *)

Section Collection.
Context (a : App).

Lemma sorted_keys_dom (k : string) :
  k ∈ sorted_keys a <-> is_Some (Paths (AppLibrary a) !! k).
Proof.
  unfold sorted_keys. rewrite merge_sort_Permutation, elem_of_elements.
  apply elem_of_dom.
Qed.

Lemma sorted_keys_nonempty :
  Paths (AppLibrary a) <> ∅ -> sorted_keys a <> [].
Proof.
  intros Hne Hnil. apply Hne. apply map_empty. intros k.
  apply eq_None_not_Some. rewrite <- sorted_keys_dom, Hnil. apply not_elem_of_nil.
Qed.

(** X21.  The collection an import goes to, the first of the sorted keys, is
    a collection of the library and the least key in the order of the
    strings; so the lookup of its directory finds it. *)
Theorem import_selects_least_collection (collection : string) (rest : list string) :
  sorted_keys a = collection :: rest ->
  is_Some (Paths (AppLibrary a) !! collection) /\
  forall k, is_Some (Paths (AppLibrary a) !! k) -> String.le collection k.
Proof.
  intros Hk. split.
  - apply sorted_keys_dom. rewrite Hk. now left.
  - intros k Hin%sorted_keys_dom.
    pose proof (StronglySorted_merge_sort String.le
                  (elements (dom (Paths (AppLibrary a))))) as Hs.
    fold (sorted_keys a) in Hs. rewrite Hk in Hs, Hin.
    apply StronglySorted_inv in Hs as [_ Hall].
    apply elem_of_cons in Hin as [->|Hin]; [reflexivity|].
    rewrite Forall_forall in Hall. now apply Hall.
Qed.

End Collection.

(** ** Answers of the import handler *)

Section ImportAnswers.
Context (env : Env) (a : App).

Lemma ans_import_resize (sizes : list (string * string)) (vf : string)
    (videoInfo : VideoInfo) :
  ans false 0 (import_resize env a sizes vf videoInfo) (fun _ => true).
Proof.
  induction sizes as [|[size suffix] rest IH]; simpl.
  - apply (ans_ret false tt (fun _ => true)).
  - ans_walk.
Qed.

Lemma ans_import_post (r : Request) :
  Paths (AppLibrary a) <> ∅ ->
  ans false 0 (import_post env a r) (fun _ => false).
Proof.
  intros Hne. unfold import_post.
  pose proof (sorted_keys_nonempty a Hne) as Hk.
  destruct (sorted_keys a) as [|collection rest] eqn:Ek; [congruence|].
  assert (Hin : collection ∈ sorted_keys a) by (rewrite Ek; now left).
  apply sorted_keys_dom in Hin as [p Hp]. rewrite Hp.
  pose proof ans_import_resize as Hr.
  ans_walk.
Qed.

(** X24.  When the library has a collection, every request to the import
    handler other than a GET is answered exactly once, with one error or
    with the success message, and the handler does not panic. *)
Theorem import_answers_exactly_once (r : Request) (files : gset string)
    (res : Flow unit) (w' : World) :
  Paths (AppLibrary a) <> ∅ ->
  Method r <> "GET" ->
  importHandler env a r (initial files) = (res, w') ->
  (res = Returned \/ res = Next tt) /\ answers (trace w') = 1%nat.
Proof.
  intros Hne Hm Hrun.
  assert (Ha : ans false 0 (importHandler_body env a r) (fun _ => false)).
  { unfold importHandler_body.
    destruct (String.eqb_spec (Method r) "GET") as [|_]; [contradiction|].
    destruct (Method r =? "POST")%string;
      [now apply ans_import_post | apply ans_http_Error]. }
  destruct (ans_handle false env _ files res w' Ha Hrun) as [[_ ?]|H];
    [discriminate | exact H].
Qed.

End ImportAnswers.

(** ** The size limit of an import *)

Section Downloads.
Context (P : Prop).

Lemma downloads_app (t u : list Event) :
  downloads (t ++ u) = downloads t ++ downloads u.
Proof. apply omap_app. Qed.

Lemma cleanup_no_download (t : list Event) :
  forallb is_cleanup t = true -> downloads t = [].
Proof.
  induction t as [|e t IH]; simpl; [reflexivity|].
  intros [He Ht]%andb_true_iff. unfold downloads in *. simpl.
  rewrite (IH Ht). destruct e as [[] ?| | | | | | | | | | |]; simpl in *; congruence.
Qed.

Lemma dl_holds {A} (c : M A) : P -> downloads_only_if P c.
Proof. intros H w. now left. Qed.

Lemma dl_bind {A B} (c : M A) (k : A -> M B) :
  downloads_only_if P c -> (forall x, downloads_only_if P (k x)) ->
  downloads_only_if P (bind c k).
Proof.
  intros Hc Hk w. unfold bind. destruct (Hc w) as [|Hc']; [now left|].
  destruct (c w) as [[x| | | |] w1]; simpl in *; try (now right).
  destruct (Hk x w1) as [|Hk']; [now left|]. right. congruence.
Qed.

Lemma dl_same {A} (c : M A) :
  (forall w, trace (c w).2 = trace w) -> downloads_only_if P c.
Proof. intros H w. right. now rewrite H. Qed.

Lemma dl_emit (e : Event) :
  download_of e = None -> downloads_only_if P (emit e).
Proof.
  intros H w. right. simpl. autorewrite with world.
  rewrite downloads_app. unfold downloads at 2. simpl. rewrite H. apply app_nil_r.
Qed.

Context (env : Env).

Lemma dl_call (op : Op) :
  download_of (Call op None) = None -> downloads_only_if P (call env op).
Proof.
  intros H w. right. simpl. autorewrite with world.
  rewrite downloads_app. unfold downloads at 2. simpl.
  destruct op; try discriminate; apply app_nil_r.
Qed.

End Downloads.

Ltac dl_atom :=
  first
    [ apply dl_call; reflexivity
    | apply dl_emit; reflexivity
    | apply dl_same; reflexivity
    | match goal with H : _ |- _ => apply H end ].

Ltac dl_walk :=
  cbv beta iota zeta;
  lazymatch goal with
  | |- downloads_only_if _ (bind _ _) => eapply dl_bind; [dl_atom | intros ?; dl_walk]
  | |- downloads_only_if _ (match ?x with Some _ => _ | None => _ end) =>
      destruct x; dl_walk
  | |- downloads_only_if _ (if ?b then _ else _) =>
      let E := fresh "E" in
      destruct b eqn:E;
      first [ solve [apply dl_holds; split; [apply Z.eqb_neq | apply Z.ltb_ge];
                     assumption]
            | dl_walk ]
  | |- _ => dl_atom
  end.

Section SizeLimit.
Context (env : Env) (a : App).

Lemma dl_TempFile (P : Prop) (dir pattern : string) :
  downloads_only_if P (TempFile env dir pattern).
Proof. unfold TempFile, random. dl_walk. Qed.

Lemma dl_import_post (r : Request) :
  downloads_only_if
    (announced_size env (FormValue r "url") <> -1 /\
     announced_size env (FormValue r "url") <= MaxUploadSize (Server (AppConfig a)))
    (import_post env a r).
Proof.
  unfold import_post. fold (announced_size env (FormValue r "url")).
  destruct (sorted_keys a) as [|collection rest].
  - pose proof dl_TempFile as Ht.
    dl_walk.
  - pose proof dl_TempFile as Ht. dl_walk.
Qed.

End SizeLimit.

Section DownloadsOfImports.
Context (env : Env) (a : App).

Lemma downloads_run_defers (ds : list Deferred) (w : World) :
  downloads (trace (run_defers env ds w)) = downloads (trace w).
Proof.
  destruct (run_defers_trace env ds w) as (evs & -> & Hc).
  now rewrite downloads_app, (cleanup_no_download _ Hc), app_nil_r.
Qed.

(** X22.  The import handler downloads nothing, neither the video nor its
    thumbnail, unless the remote server has announced a size for the video
    and that size is at most [MaxUploadSize]. *)
Theorem import_downloads_within_limit (r : Request) (files : gset string)
    (res : Flow unit) (w' : World) :
  importHandler env a r (initial files) = (res, w') ->
  downloads (trace w') <> [] ->
  announced_size env (FormValue r "url") <> -1 /\
  announced_size env (FormValue r "url") <= MaxUploadSize (Server (AppConfig a)).
Proof.
  intros Hrun Hdl.
  assert (Hb : downloads_only_if
                 (announced_size env (FormValue r "url") <> -1 /\
                  announced_size env (FormValue r "url")
                    <= MaxUploadSize (Server (AppConfig a)))
                 (importHandler_body env a r)).
  { unfold importHandler_body.
    destruct (Method r =? "GET")%string; [apply dl_emit; reflexivity|].
    destruct (Method r =? "POST")%string;
      [apply dl_import_post | apply dl_emit; reflexivity]. }
  destruct (Hb (initial files)) as [H|H]; [exact H|].
  exfalso. apply Hdl. unfold importHandler, handle in Hrun.
  destruct (importHandler_body env a r (initial files)) as [[[]| | | |] w1];
    injection Hrun as <- <-; rewrite ?downloads_run_defers; exact H.
Qed.

End DownloadsOfImports.

(** ** Requests that are refused at once *)

Section Refusals.
Context (env : Env) (a : App).

(** X20.  An import (POST) without a URL is answered with status 400 and
    nothing else happens, whether the library has a collection or not. *)
Theorem import_without_url_is_bad_request (r : Request) (files : gset string) :
  Method r = "POST" ->
  FormValue r "url" = "" ->
  importHandler env a r (initial files) =
    (Returned,
     {| fs := files;
        trace := [ParseMultipartForm 1024;
                  HttpError "error, no url supplied" StatusBadRequest];
        defers := [];
        calls := 0%nat;
        draws := 0%nat;
        proc_started := false |}).
Proof.
  intros Hpost Hurl.
  unfold importHandler, handle, importHandler_body, import_post.
  rewrite Hpost, Hurl. reflexivity.
Qed.

Context (fuel : nat).

(** X14.  An upload (POST) to a collection of the library whose file cannot
    be taken from the form, because [FormFile] returns an error (the form
    has no field "video_file", the body is not a multipart form, the file
    cannot be opened), is answered with "error processing form: " followed
    by that error, status 500, and nothing else happens: no call is made,
    nothing is deferred and the files are unchanged. *)
Theorem upload_without_file_no_side_effects (request : Request)
    (files : gset string) (e : string) :
  Method request = "POST" ->
  is_Some (Paths (AppLibrary a) !! FormValue request "target_library_path") ->
  FormFile request "video_file" = inr e ->
  uploadHandler env a fuel request (initial files) =
    (Returned,
     {| fs := files;
        trace := [ParseMultipartForm uploadParserBuffer;
                  HttpError ("error processing form: " +:+ e)
                    StatusInternalServerError];
        defers := [];
        calls := 0%nat;
        draws := 0%nat;
        proc_started := false |}).
Proof.
  intros Hpost [p Hp] Herr.
  unfold uploadHandler, handle, uploadHandler_body. rewrite Hpost. simpl.
  unfold upload_post, bind, emit, getSelectedTargetLibraryDir, extractFormFile.
  simpl. rewrite Hp. simpl. rewrite Herr. reflexivity.
Qed.

(** X19.  A request whose method is neither GET nor POST is answered by both
    ingestion handlers with "Method Not Allowed", status 405, and nothing
    else: the form is not parsed and no call is made. *)
Theorem ingest_rejects_other_methods (ep : EntryPoint) (request : Request)
    (files : gset string) :
  Method request <> "GET" ->
  Method request <> "POST" ->
  ingest ep env a fuel request (initial files) =
    (Next tt,
     {| fs := files;
        trace := [HttpError "Method Not Allowed" StatusMethodNotAllowed];
        defers := [];
        calls := 0%nat;
        draws := 0%nat;
        proc_started := false |}).
Proof.
  intros Hg%String.eqb_neq Hp%String.eqb_neq.
  destruct ep; simpl;
    unfold uploadHandler, importHandler, handle, uploadHandler_body,
      importHandler_body; now rewrite Hg, Hp.
Qed.

End Refusals.

(** ** Imports over the limit *)

Section OverLimit.
Context (env : Env) (a : App).
Hypothesis Hnf : never_fails env.

(** X23.  When no call fails and the library has a collection, an import whose
    video is announced larger than [MaxUploadSize] is rejected with one
    error, status 500, that names the limit; nothing is downloaded, no
    command is run, and the temporary file the handler had created for the
    download is removed again: the files are those that existed before. *)
Theorem import_over_limit_is_rejected_and_cleaned (r : Request)
    (files : gset string) :
  let uf := Join (UploadPath (Server (AppConfig a)))
              ("tube-import-" +:+ env_rand env 0 +:+ ".mp4") in
  Method r = "POST" ->
  FormValue r "url" <> "" ->
  Paths (AppLibrary a) <> ∅ ->
  announced_size env (FormValue r "url") <> -1 ->
  MaxUploadSize (Server (AppConfig a)) < announced_size env (FormValue r "url") ->
  uf ∉ files ->
  exists w',
    importHandler env a r (initial files) = (Returned, w') /\
    http_errors (trace w') =
      [("imported video would exceed maximum upload size of " +:+
        humanize_Bytes env (MaxUploadSize (Server (AppConfig a))),
        StatusInternalServerError)] /\
    downloads (trace w') = [] /\
    commands (trace w') = [] /\
    removals (trace w') = [uf] /\
    fs w' = files.
Proof.
  intros uf Hpost Hurl Hne Hsize Hbig Hfresh.
  unfold importHandler, handle, importHandler_body. rewrite Hpost. simpl.
  unfold import_post.
  apply String.eqb_neq in Hurl. rewrite Hurl.
  pose proof (sorted_keys_nonempty a Hne) as Hk.
  destruct (sorted_keys a) as [|collection rest]; [congruence|].
  apply Z.eqb_neq in Hsize. apply Z.ltb_lt in Hbig.
  unfold announced_size in Hsize, Hbig.
  unfold TempFile, bind, call, random, emit, defer, http_Error, return_.
  simpl. rewrite !Hnf. simpl. rewrite Hsize, Hbig. simpl. rewrite !Hnf.
  eexists. split; [reflexivity|].
  autorewrite with world. simpl.
  repeat split. fold uf. clear - Hfresh. set_solver.
Qed.

End OverLimit.

(** ** Playback *)

Section Playback.
Context (env : Env) (a : App).

(** X25.  A playback request for an identifier that is not in the catalog is
    left without any effect: no header is set, nothing is written, the view
    store is not touched; the handler just returns. *)
Theorem video_unknown_id_is_silent (r : Request) (files : gset string) :
  Videos (AppLibrary a) !! requested_id r = None ->
  videoHandler env a r (initial files) = (Returned, initial files).
Proof.
  intros H. unfold requested_id in H.
  unfold videoHandler, handle, videoHandler_body. cbv zeta. now rewrite H.
Qed.

(** X26.  A playback request for a catalogued video whose quality parameter
    is, after lowercasing, none of "720p", "480p", "360p", "240p" (absent,
    empty or unknown) is served the master file: the handler migrates the
    store entry and counts the view, whether or not these two calls fail,
    sets the two headers and serves the file; the files are unchanged. *)
Theorem video_serves_master_by_default (r : Request) (files : gset string)
    (m : Video) :
  Videos (AppLibrary a) !! requested_id r = Some m ->
  is_quality (ToLower (QueryGet r "quality")) = false ->
  exists e1 e2 w',
    videoHandler env a r (initial files) = (Next tt, w') /\
    trace w' =
      [Call (OpMigrate (default "" (Vars r !! "prefix")) (requested_id r)) e1;
       Call (OpIncViews (requested_id r)) e2;
       SetHeader "Content-Disposition" (content_disposition (Title m));
       SetHeader "Content-Type" "video/mp4";
       ServeFile (VideoPath m)] /\
    fs w' = files.
Proof.
  intros H Hq. unfold requested_id in *.
  unfold videoHandler, handle, videoHandler_body. cbv zeta. rewrite H, Hq.
  do 3 eexists. split; [reflexivity|]. split; reflexivity.
Qed.

(** X27.  A playback request in one of the four qualities for a catalogued
    video whose derivative exists is served the derivative, under the name
    the ingestion gives it: for the master [T/stem.mp4] and the quality [q]
    this is the file [T/stem#q.mp4], the destination of the rename of the
    upload handler for a profile with suffix [q].  No pipe is created and
    no command is started. *)
Theorem video_serves_published_derivative (r : Request) (files : gset string)
    (m : Video) (T stem size : string) :
  let q := ToLower (QueryGet r "quality") in
  Videos (AppLibrary a) !! requested_id r = Some m ->
  VideoPath m = Join T (stem +:+ ".mp4") ->
  is_quality q = true ->
  scaled T stem (size, q) ∈ files ->
  exists w',
    videoHandler env a r (initial files) = (Next tt, w') /\
    derivative_path (VideoPath m) q = scaled T stem (size, q) /\
    last (trace w') = Some (ServeFile (scaled T stem (size, q))) /\
    ops (trace w') =
      [OpMigrate (default "" (Vars r !! "prefix")) (requested_id r);
       OpIncViews (requested_id r)].
Proof.
  intros q H Hp Hq Hin. unfold requested_id in *.
  assert (Hd : derivative_path (VideoPath m) q = scaled T stem (size, q)).
  { unfold derivative_path, scaled. rewrite Hp. simpl.
    now rewrite !Join_append, TrimSuffix_Ext_mp4. }
  unfold videoHandler, handle, videoHandler_body. cbv zeta. rewrite H.
  fold q. rewrite Hq.
  fold (derivative_path (VideoPath m) q). rewrite Hd.
  unfold bind at 1. unfold bind at 1. unfold FileExists, exists_file.
  simpl fs. rewrite (bool_decide_eq_true_2 _ Hin).
  eexists. split; [reflexivity|]. split; [reflexivity|]. split; reflexivity.
Qed.

End Playback.

(** ** The loop that forwards the encoder's output *)

Section Forwarding.
Context (env : Env).



End Forwarding.

(** ** Instances on the sample server *)

Lemma basenameWithoutExtension_Join_witness :
  basenameWithoutExtension (Join "/srv/videos" "cat.mov") =
  basenameWithoutExtension "cat.mov".
Proof.
  apply (basenameWithoutExtension_Join "/srv/videos" "cat.mov");
    [discriminate | reflexivity].
Defined.

Lemma basenameWithoutExtension_of_extension_witness :
  basenameWithoutExtension ".mp4" = "".
Proof.
  apply (basenameWithoutExtension_of_extension "mp4"); reflexivity.
Defined.

Lemma fileExistsAtAnyLocation_complete_witness :
  exists_in {["uploads/cat.mp4"]} "cat.mp4" ["videos"; "uploads"] = true /\
  exists w',
    fileExistsAtAnyLocation env_ok "cat.mp4" ["videos"; "uploads"]
      (initial {["uploads/cat.mp4"]}) =
      (Next (exists_in (fs (initial {["uploads/cat.mp4"]})) "cat.mp4"
               ["videos"; "uploads"], None), w') /\
    quiet_step (initial {["uploads/cat.mp4"]}) w'.
Proof.
  split; [vm_compute; reflexivity|].
  apply (fileExistsAtAnyLocation_complete env_ok "cat.mp4" ["videos"; "uploads"]
           (initial {["uploads/cat.mp4"]})).
  intros n op. reflexivity.
Defined.

Lemma newVideoFileName_returns_free_name_witness :
  let w := initial {["videos/cat.mp4"]} in
  let run := newVideoFileName env_ok 3 "cat.mov" ["videos"; "uploads"] w in
  run.1 = Next ("cat_r0.mp4", None) /\
  fs run.2 = fs w /\
  exists_in (fs run.2) "cat_r0.mp4" ["videos"; "uploads"] = false.
Proof.
  intros w run. split; [vm_compute; reflexivity|].
  apply (newVideoFileName_returns_free_name env_ok
           (fun n op => eq_refl) 3 "cat.mov" ["videos"; "uploads"] w run.2
           "cat_r0.mp4" None).
  vm_compute. reflexivity.
Defined.

Lemma newVideoFileName_keeps_free_name_witness :
  basenameWithoutExtension "cat.mov" +:+ ".mp4" = "cat.mp4" /\
  exists w',
    newVideoFileName env_ok 1 "cat.mov" ["videos"; "uploads"] (initial ∅)
      = (Next (basenameWithoutExtension "cat.mov" +:+ ".mp4", None), w') /\
    draws w' = draws (initial ∅) /\ quiet_step (initial ∅) w'.
Proof.
  split; [reflexivity|].
  apply (newVideoFileName_keeps_free_name env_ok (fun n op => eq_refl) 0
           "cat.mov" ["videos"; "uploads"] (initial ∅));
    [discriminate | vm_compute; reflexivity].
Defined.


Lemma newVideoFileName_random_when_unnamed_witness :
  let name := env_rand env_ok (draws (initial ∅)) +:+ ".mp4" in
  name = "r0.mp4" /\
  exists w',
    newVideoFileName env_ok 1 "" ["videos"; "uploads"] (initial ∅)
      = (Next (name, None), w') /\
    draws w' = S (draws (initial ∅)) /\ quiet_step (initial ∅) w'.
Proof.
  intros name. split; [reflexivity|].
  apply (newVideoFileName_random_when_unnamed env_ok (fun n op => eq_refl) 0
           ["videos"; "uploads"] (initial ∅)).
  vm_compute. reflexivity.
Defined.

Lemma newVideoFileName_has_extension_mp4_witness :
  let run := newVideoFileName stat_fails 3 "clip.webm" ["videos"] (initial ∅) in
  run.1 = Next ("clip.mp4", None) /\
  Ext "clip.mp4" = ".mp4" /\ pathWithoutExtension "clip.mp4" +:+ ".mp4" = "clip.mp4".
Proof.
  intros run. split; [vm_compute; reflexivity|].
  apply (newVideoFileName_has_extension_mp4 stat_fails 3 "clip.webm" ["videos"]
           (initial ∅) run.2 "clip.mp4" None).
  vm_compute. reflexivity.
Defined.

Lemma upload_answers_exactly_once_witness :
  let files : gset string := {["videos/cat.mp4"]} in
  let request := upload "videos" "cat.mov" 10 in
  let run := uploadHandler env_ok (app hd) 2 request (initial files) in
  upload_name_free_within env_ok (app hd) files request 1 = false /\
  upload_name_free_within env_ok (app hd) files request 2 = true /\
  (run.1 = Returned \/ run.1 = Next tt) /\ answers (trace run.2) = 1%nat.
Proof.
  intros files request run.
  split; [vm_compute; reflexivity|]. split; [vm_compute; reflexivity|].
  apply (upload_answers_exactly_once env_ok (app hd) 2 request files
           run.1 run.2);
    [discriminate | apply surjective_pairing | vm_compute; reflexivity].
Defined.

Lemma import_answers_exactly_once_witness :
  let run := importHandler transcoder_fails (app []) (import "http://x.example/1")
               (initial ∅) in
  (run.1 = Returned \/ run.1 = Next tt) /\ answers (trace run.2) = 1%nat.
Proof.
  intros run.
  apply (import_answers_exactly_once transcoder_fails (app [])
           (import "http://x.example/1") ∅ run.1 run.2);
    [apply insert_non_empty | discriminate | apply surjective_pairing].
Defined.

Lemma import_selects_least_collection_witness :
  sorted_keys app_two = ["archive"; "videos"] /\
  is_Some (Paths (AppLibrary app_two) !! "archive") /\
  forall k, is_Some (Paths (AppLibrary app_two) !! k) -> String.le "archive" k.
Proof.
  split; [vm_compute; reflexivity|].
  apply (import_selects_least_collection app_two "archive" ["videos"]).
  vm_compute. reflexivity.
Defined.

Lemma import_downloads_within_limit_witness :
  let run := importHandler env_ok (app []) (import "http://x.example/1")
               (initial ∅) in
  length (downloads (trace run.2)) = 2%nat /\
  announced_size env_ok "http://x.example/1" = 100 /\
  announced_size env_ok (FormValue (import "http://x.example/1") "url") <> -1 /\
  announced_size env_ok (FormValue (import "http://x.example/1") "url")
    <= MaxUploadSize (Server (AppConfig (app []))).
Proof.
  intros run. split; [vm_compute; reflexivity|]. split; [vm_compute; reflexivity|].
  apply (import_downloads_within_limit env_ok (app [])
           (import "http://x.example/1") ∅ run.1 run.2);
    [apply surjective_pairing | vm_compute; discriminate].
Defined.

Lemma import_without_url_is_bad_request_witness :
  importHandler env_ok app_empty (import "") (initial ∅) =
    (Returned,
     {| fs := ∅;
        trace := [ParseMultipartForm 1024;
                  HttpError "error, no url supplied" StatusBadRequest];
        defers := [];
        calls := 0%nat;
        draws := 0%nat;
        proc_started := false |}).
Proof.
  apply (import_without_url_is_bad_request env_ok app_empty (import "") ∅);
    reflexivity.
Defined.

Lemma upload_without_file_no_side_effects_witness :
  uploadHandler env_ok (app []) 3 (upload_without_file "videos") (initial ∅) =
    (Returned,
     {| fs := ∅;
        trace := [ParseMultipartForm uploadParserBuffer;
                  HttpError ("error processing form: " +:+ "http: no such file")
                    StatusInternalServerError];
        defers := [];
        calls := 0%nat;
        draws := 0%nat;
        proc_started := false |}) /\
  uploadHandler env_ok (app []) 3 (upload_not_multipart "videos") (initial ∅) =
    (Returned,
     {| fs := ∅;
        trace := [ParseMultipartForm uploadParserBuffer;
                  HttpError ("error processing form: " +:+
                             "request Content-Type isn't multipart/form-data")
                    StatusInternalServerError];
        defers := [];
        calls := 0%nat;
        draws := 0%nat;
        proc_started := false |}).
Proof.
  split.
  - apply (upload_without_file_no_side_effects env_ok (app []) 3
             (upload_without_file "videos") ∅ "http: no such file");
      [reflexivity | vm_compute; eauto | reflexivity].
  - apply (upload_without_file_no_side_effects env_ok (app []) 3
             (upload_not_multipart "videos") ∅
             "request Content-Type isn't multipart/form-data");
      [reflexivity | vm_compute; eauto | reflexivity].
Defined.

Lemma ingest_rejects_other_methods_witness :
  ingest ByImport env_ok (app []) 3 options (initial ∅) =
    (Next tt,
     {| fs := ∅;
        trace := [HttpError "Method Not Allowed" StatusMethodNotAllowed];
        defers := [];
        calls := 0%nat;
        draws := 0%nat;
        proc_started := false |}).
Proof.
  apply (ingest_rejects_other_methods env_ok (app []) 3 ByImport options ∅);
    discriminate.
Defined.

Lemma video_unknown_id_is_silent_witness :
  videoHandler env_ok (app []) (play "dog" "") (initial {["videos/cat.mp4"]}) =
    (Returned, initial {["videos/cat.mp4"]}).
Proof.
  apply (video_unknown_id_is_silent env_ok (app []) (play "dog" "")
           {["videos/cat.mp4"]}).
  vm_compute. reflexivity.
Defined.

Lemma video_serves_master_by_default_witness :
  let r := play "cat" "1080p" in
  exists e1 e2 w',
    videoHandler stat_fails (app []) r (initial {["videos/cat.mp4"]})
      = (Next tt, w') /\
    trace w' =
      [Call (OpMigrate (default "" (Vars r !! "prefix")) (requested_id r)) e1;
       Call (OpIncViews (requested_id r)) e2;
       SetHeader "Content-Disposition" (content_disposition (Title cat));
       SetHeader "Content-Type" "video/mp4";
       ServeFile (VideoPath cat)] /\
    fs w' = {["videos/cat.mp4"]}.
Proof.
  intros r.
  apply (video_serves_master_by_default stat_fails (app []) r
           {["videos/cat.mp4"]} cat); vm_compute; reflexivity.
Defined.

Lemma video_serves_published_derivative_witness :
  let r := play "cat" "720P" in
  let files : gset string := {["videos/cat.mp4"; "videos/cat#720p.mp4"]} in
  let q := ToLower (QueryGet r "quality") in
  q = "720p" /\
  scaled "videos" "cat" ("hd720", q) = "videos/cat#720p.mp4" /\
  exists w',
    videoHandler env_ok (app hd) r (initial files) = (Next tt, w') /\
    derivative_path (VideoPath cat) q = scaled "videos" "cat" ("hd720", q) /\
    last (trace w') = Some (ServeFile (scaled "videos" "cat" ("hd720", q))) /\
    ops (trace w') =
      [OpMigrate (default "" (Vars r !! "prefix")) (requested_id r);
       OpIncViews (requested_id r)].
Proof.
  intros r files q. split; [reflexivity|]. split; [reflexivity|].
  apply (video_serves_published_derivative env_ok (app hd) r files cat
           "videos" "cat" "hd720");
    [vm_compute; reflexivity | reflexivity | reflexivity |].
  vm_compute. reflexivity.
Defined.

Lemma staged_upload_keeps_extension_witness :
  let run := copyFileFromFormToUploadDir env_ok (app []) "cat.mov" (initial ∅) in
  run.1 = Next ("uploads/tube-upload-r0.mov", None) /\
  "uploads/tube-upload-r0.mov" =
    Join (UploadPath (Server (AppConfig (app []))))
      ("tube-upload-" +:+ env_rand env_ok (draws (initial ∅)) +:+ Ext "cat.mov") /\
  "uploads/tube-upload-r0.mov" ∈ fs run.2 /\
  (Ext "cat.mov" <> "" -> Ext "uploads/tube-upload-r0.mov" = Ext "cat.mov").
Proof.
  intros run. split; [vm_compute; reflexivity|].
  apply (staged_upload_keeps_extension env_ok (app []) "cat.mov" (initial ∅)
           run.2 "uploads/tube-upload-r0.mov");
    vm_compute; reflexivity.
Defined.

Lemma import_over_limit_is_rejected_and_cleaned_witness :
  let a := app [] in
  let r := import "http://x.example/1" in
  let uf := Join (UploadPath (Server (AppConfig a)))
              ("tube-import-" +:+ env_rand announces_5000 0 +:+ ".mp4") in
  uf = "uploads/tube-import-r0.mp4" /\
  announced_size announces_5000 (FormValue r "url") = 5000 /\
  exists w',
    importHandler announces_5000 a r (initial ∅) = (Returned, w') /\
    http_errors (trace w') =
      [("imported video would exceed maximum upload size of " +:+
        humanize_Bytes announces_5000 (MaxUploadSize (Server (AppConfig a))),
        StatusInternalServerError)] /\
    downloads (trace w') = [] /\
    commands (trace w') = [] /\
    removals (trace w') = [uf] /\
    fs w' = ∅.
Proof.
  intros a r uf. split; [reflexivity|]. split; [vm_compute; reflexivity|].
  apply (import_over_limit_is_rejected_and_cleaned announces_5000 a
           (fun n op => eq_refl) r ∅);
    [reflexivity | discriminate | apply insert_non_empty
    | vm_compute; discriminate | vm_compute; reflexivity | apply not_elem_of_empty].
Defined.


Lemma upload_removes_what_it_staged_witness :
  let run := uploadHandler transcoder_fails (app []) 5
               (upload "videos" "cat.mov" 10) (initial ∅) in
  staged (trace run.2) = ["uploads/tube-upload-r0.mov"; "uploads/cat.mp4"] /\
  removals (trace run.2) = ["uploads/cat.mp4"; "uploads/tube-upload-r0.mov"] /\
  In "uploads/tube-upload-r0.mov" (removals (trace run.2)).
Proof.
  intros run. split; [vm_compute; reflexivity|]. split; [vm_compute; reflexivity|].
  apply (upload_removes_what_it_staged transcoder_fails (app []) 5
           (upload "videos" "cat.mov" 10) ∅ run.1 run.2);
    [apply surjective_pairing | vm_compute; left; reflexivity].
Defined.
